(** * Kubernetes MCP server: the command executor and the tool dispatcher

    A shallow embedding of [src/index.ts]: the executor [runKubectl], the
    helpers [getNamespace] and [calculateAge], the tool catalog [tools],
    the dispatcher [handleTool], the tool-call request handler and
    [main].

    The program is TypeScript; its argument mapping is typed
    [Record<string, unknown>] and its casts ([as string],
    [as Record<string, unknown>]) are erased at run time, so values are
    modelled as untyped JavaScript values ([jsval]) and the argument
    mapping of a request may be absent.  Built-ins of the host (the
    environment, [child_process.spawn], [JSON.parse], [JSON.stringify],
    [Buffer], [String.prototype.trim], the printing of large numbers, the
    message texts of the engine's errors) are the fields of the class
    [Platform].

    An [async] function is a computation in the monad [M]: its promise
    resolves, rejects or stays pending for ever, and it carries the trace
    of what it did (the resolution of the namespace, the calls of the
    executor, the calls of [spawn] and how the processes settled), so
    that properties such as "no process is spawned" can be stated. *)

From Stdlib Require Import String Ascii List ZArith Bool Lia DecimalString.
Import ListNotations.
Open Scope string_scope.

Set Implicit Arguments.
Set Warnings "-register-all".

(** ** JavaScript values *)

(** The values that reach the server as JSON: tool arguments and the parsed
    output of the cluster client.  [JNum] carries the integral numbers
    (the counts used by the tool schemas; how they print is
    [Number_toString] below); an object is the list of its own enumerable
    properties, in the order [Object.entries] reports them. *)
Inductive jsval : Type :=
| JUndefined
| JNull
| JBool (b : bool)
| JNum (n : Z)
| JStr (s : string)
| JArr (elems : list jsval)
| JObj (props : list (string * jsval)).

Coercion JStr : string >-> jsval.

(** An array literal of values; string literals stand for themselves. *)
Notation "'js[' x ; .. ; y ]" :=
  (@cons jsval (x : jsval) .. (@cons jsval (y : jsval) nil) ..)
  (at level 0, x at level 99, y at level 99).
Notation "'js[' x ]" := (@cons jsval (x : jsval) nil)
  (at level 0, x at level 99).

(** The type [Record<string, unknown>] of the argument mapping. *)
Definition record : Type := list (string * jsval).

Definition dquote : ascii := "034"%char.
Definition squote : ascii := "039"%char.
Definition backslash : ascii := "092"%char.
Definition space : ascii := " "%char.

Definition str1 (c : ascii) : string := String c EmptyString.

(** The decimal numeral of an integer. *)
Definition Z_to_string (n : Z) : string :=
  NilZero.string_of_int (Z.to_int n).

(** JavaScript truthiness, as tested by [if (v)] and [v || d]. *)
Definition truthy (v : jsval) : bool :=
  match v with
  | JUndefined | JNull => false
  | JBool b => b
  | JNum n => negb (n =? 0)%Z
  | JStr s => negb (s =? "")
  | JArr _ | JObj _ => true
  end.

(** [a || b]. *)
Definition js_or (a b : jsval) : jsval := if truthy a then a else b.

(** Own-property lookup [o.k] on an argument mapping or a parsed object. *)
Fixpoint lookup (k : string) (o : record) : jsval :=
  match o with
  | [] => JUndefined
  | (k', v) :: rest => if k' =? k then v else lookup k rest
  end.

Notation "o .[ k ]" := (lookup k o) (at level 1, left associativity, format "o .[ k ]").

(** [s.includes(needle)]. *)
Fixpoint String_includes (needle s : string) : bool :=
  String.prefix needle s ||
  match s with
  | EmptyString => false
  | String _ rest => String_includes needle rest
  end.

(** [s.replace(/"/g, '\\"')]: a backslash before every double quote. *)
Fixpoint escape_dquotes (s : string) : string :=
  match s with
  | EmptyString => EmptyString
  | String c rest =>
      if Ascii.eqb c dquote
      then String backslash (String dquote (escape_dquotes rest))
      else String c (escape_dquotes rest)
  end.

(** [s.split(sep)] for a one-character separator: every occurrence of the
    separator ends a piece, so the empty string yields one empty piece and
    adjacent separators yield empty pieces. *)
Fixpoint String_split (sep : ascii) (s : string) : list string :=
  match s with
  | EmptyString => [EmptyString]
  | String c rest =>
      if Ascii.eqb c sep then EmptyString :: String_split sep rest
      else match String_split sep rest with
           | [] => [str1 c]
           | w :: ws => String c w :: ws
           end
  end.

(** [v === s] for a string literal [s]. *)
Definition is_string (s : string) (v : jsval) : bool :=
  match v with
  | JStr t => t =? s
  | _ => false
  end.

(** [Array.prototype.includes(s)] for a string [s]. *)
Definition Array_includes (s : string) (l : list jsval) : bool :=
  existsb (is_string s) l.

(** Decimal index keys ["0"], ["1"], ... of an array or a string. *)
Definition index_keys (n : nat) : list string :=
  map (fun i => Z_to_string (Z.of_nat i)) (seq 0 n).

Fixpoint chars (s : string) : list jsval :=
  match s with
  | EmptyString => []
  | String c rest => JStr (str1 c) :: chars rest
  end.

(** ** Exceptions and the call trace *)

(** The operation at which the engine raises a [TypeError]: reading the
    property [k] of [undefined] or [null]; calling [callee], an
    expression of the program (as it is written there) whose value is no
    function; [Object.entries] of [undefined] or [null]; writing a chunk
    that is no string to a stream; [Buffer.from] of a value it does not
    take. *)
Inductive operation : Type :=
| Read (k : string)
| Call (callee : string)
| Entries
| Write
| Decode.

(** Errors raised by the engine itself: a [TypeError] at an operation on
    a value, or the [SyntaxError] of [JSON.parse] on a text.  Their
    message texts are the engine's. *)
Inductive engine_error : Type :=
| TypeError (op : operation) (v : jsval)
| SyntaxError (text : string).

(** A thrown value: an error object with its message ([new Error(message)]
    thrown by the program, or an error thrown by the host), or an engine
    error. *)
Inductive exn : Type :=
| Error (message : string)
| Engine (e : engine_error).

Inductive result (A : Type) : Type :=
| Ok (a : A)
| Throw (e : exn).
Arguments Ok {A} a.
Arguments Throw {A} e.

(** A promise at the end of time: settled (resolved with [Ok], rejected
    with [Throw]), or pending for ever. *)
Inductive promise (A : Type) : Type :=
| Settled (r : result A)
| Pending.
Arguments Settled {A} r.
Arguments Pending {A}.

(** What [spawn(command, args, {shell: true})] does: it throws an error
    (an argument that holds a NUL byte, an argument list that is too
    long), or returns a child that has no streams (no file descriptor
    left for its pipes), or returns a child with its streams. *)
Inductive spawned : Type :=
| SpawnThrows (message : string)
| NoStreams
| Started.

(** What a started child reports: the [close] event with the collected
    output and the exit code ([null] when killed by a signal), or the
    [error] event; the first of the two settles the promise. *)
Inductive proc_outcome : Type :=
| ProcClose (out err : string) (code : option Z)
| ProcError (message : string).

(** What a tool invocation does, in order: [getNamespace] with the value
    it returned, [runKubectl] with its argument list and the [stdin]
    option, [spawn] with the command and its arguments, the write to the
    child's standard input, and the [close] or [error] event that settles
    the executor's promise. *)
Inductive event : Type :=
| EvNamespace (ns : jsval)
| EvKubectl (args : list jsval) (stdin : option jsval)
| EvSpawn (command : string) (spawnArgs : list jsval)
| EvStdin (text : string)
| EvProc (settled : proc_outcome).

(** A computation: the calls made and the state of its promise. *)
Definition M (A : Type) : Type := (list event * promise A)%type.

Definition ret {A} (a : A) : M A := ([], Settled (Ok a)).
Definition throw {A} (e : exn) : M A := ([], Settled (Throw e)).
Definition pending {A} : M A := ([], Pending).
Definition log (e : event) : M unit := ([e], Settled (Ok tt)).

(** [await]: what follows runs when the promise resolves; a rejection is
    thrown on, and nothing follows a promise that stays pending. *)
Definition bind {A B} (m : M A) (f : A -> M B) : M B :=
  match m with
  | (t, Settled (Ok a)) => let (t', r) := f a in ((t ++ t')%list, r)
  | (t, Settled (Throw e)) => (t, Settled (Throw e))
  | (t, Pending) => (t, Pending)
  end.

Definition lift {A} (r : result A) : M A := ([], Settled r).

Notation "x <- m ;; k" := (bind m (fun x => k))
  (at level 61, m at next level, right associativity).
Notation "m ;;; k" := (bind m (fun _ => k))
  (at level 61, right associativity).

Definition trace {A} (m : M A) : list event := fst m.
Definition outcome {A} (m : M A) : promise A := snd m.

(** [for]/[map] over a list with a body that may throw. *)
Fixpoint mapR {A B} (f : A -> result B) (l : list A) : result (list B) :=
  match l with
  | [] => Ok []
  | x :: rest =>
      match f x with
      | Throw e => Throw e
      | Ok y => match mapR f rest with
                | Throw e => Throw e
                | Ok ys => Ok (y :: ys)
                end
      end
  end.

(** [v.k] on a parsed value: a [TypeError] on [undefined] and [null], the
    own property on an object, [undefined] on every other value (the
    property names the program reads are not properties of strings,
    numbers, booleans or arrays). *)
Definition getp (v : jsval) (k : string) : result jsval :=
  match v with
  | JUndefined | JNull => Throw (Engine (TypeError (Read k) v))
  | JObj o => Ok o.[k]
  | _ => Ok JUndefined
  end.

(** ** The host platform *)

Class Platform : Type := {
  (** [process.env[k]] *)
  process_env : string -> option string;
  (** [process.platform] *)
  process_platform : string;
  (** [String(n)] for an integral number [n] beyond 2^53 in magnitude *)
  number_text : Z -> string;
  (** [spawn(command, args, {shell: true})], by the command line the call
      hands to the system shell *)
  spawn : string -> spawned;
  (** what the child started on a command line reports, given the text
      written to its standard input; [None] when it never does *)
  settle : string -> option string -> option proc_outcome;
  (** [JSON.parse(text)]; [None] when it throws a [SyntaxError] *)
  JSON_parse : string -> option jsval;
  (** [JSON.stringify(value, null, 2)] *)
  JSON_stringify : jsval -> string;
  (** [Buffer.from(s, "base64").toString("utf-8")] for a string [s] *)
  base64_utf8 : string -> string;
  (** the same on a value that is not a string; [None] when it throws *)
  Buffer_from_other : jsval -> option string;
  (** [s.trim()] *)
  String_trim : string -> string;
  (** [e.message] of an engine error *)
  engine_message : engine_error -> string
}.

Definition message_of `{Platform} (e : exn) : string :=
  match e with
  | Error m => m
  | Engine k => engine_message k
  end.

Section Server.

Context `{P : Platform}.

(** ** Printing *)

(** [Number::toString] on an integral number.  Up to 2^53 in magnitude
    every integer is a number of its own and prints as its decimal
    numeral; beyond, the digits printed are the shortest that tell the
    number from its neighbours, with an exponent from 10^21 on, and are
    left to the host. *)
Definition Number_toString (n : Z) : string :=
  if (Z.abs n <=? 2 ^ 53)%Z then Z_to_string n else number_text n.

(** [ToString], used by template literals, [String(v)] and [Array.join]. *)
Fixpoint ToString (v : jsval) : string :=
  match v with
  | JUndefined => "undefined"
  | JNull => "null"
  | JBool true => "true"
  | JBool false => "false"
  | JNum n => Number_toString n
  | JStr s => s
  | JArr l =>
      String.concat ","
        (map (fun x => match x with
                       | JUndefined | JNull => ""
                       | _ => ToString x
                       end) l)
  | JObj _ => "[object Object]"
  end.

(** [Array.prototype.join(sep)]: [undefined] and [null] print as the empty
    string, every other element through [ToString]. *)
Definition Array_join (sep : string) (l : list jsval) : string :=
  String.concat sep
    (map (fun x => match x with
                   | JUndefined | JNull => ""
                   | _ => ToString x
                   end) l).

(** ** Environment configuration *)

(** [process.env[k] || d]: an unset or empty variable takes the default. *)
Definition env_or (k d : string) : string :=
  match process_env k with
  | Some v => if v =? "" then d else v
  | None => d
  end.

Definition KUBECONFIG : string := env_or "KUBECONFIG" "".
Definition K8S_CONTEXT : string := env_or "K8S_CONTEXT" "".
Definition K8S_DEFAULT_NAMESPACE : string := env_or "K8S_DEFAULT_NAMESPACE" "default".
Definition KUBECTL_PATH : string := env_or "KUBECTL_PATH" "kubectl".

Definition K8S_SSH_HOST : string := env_or "K8S_SSH_HOST" "".
Definition K8S_SSH_USER : string := env_or "K8S_SSH_USER" "".
Definition K8S_SSH_PASSWORD : string := env_or "K8S_SSH_PASSWORD" "".
Definition K8S_SSH_KEY : string := env_or "K8S_SSH_KEY" "".

(** [if (s)] on a string. *)
Definition set (s : string) : bool := negb (s =? "").

Record KubectlResult : Type := {
  stdout : string;
  stderr : string;
  code : Z
}.

(** ** The command executor *)

(** The callback of [args.map] in remote mode.  [includes] and [replace]
    are string methods: an array has [includes] but no [replace], every
    other value has neither; calling a missing method is a [TypeError],
    and so is reading a method of [undefined] or [null]. *)
Definition escapeArg (arg : jsval) : result jsval :=
  match arg with
  | JStr s =>
      if String_includes "'" s || String_includes " " s
      then Ok (JStr (str1 dquote ++ escape_dquotes s ++ str1 dquote))
      else Ok arg
  | JArr l =>
      if Array_includes "'" l || Array_includes " " l
      then Throw (Engine (TypeError (Call "arg.replace") arg))
      else Ok arg
  | JUndefined | JNull => Throw (Engine (TypeError (Read "includes") arg))
  | _ => Throw (Engine (TypeError (Call "arg.includes") arg))
  end.

(** [`sudo kubectl ${escapedArgs.join(" ")}`] *)
Definition kubectlCmd (args : list jsval) : result string :=
  match mapR escapeArg args with
  | Throw e => Throw e
  | Ok escapedArgs => Ok ("sudo kubectl " ++ Array_join " " escapedArgs)
  end.

Definition userAtHost : jsval := JStr (K8S_SSH_USER ++ "@" ++ K8S_SSH_HOST).

(** The [if (K8S_SSH_HOST) ... else ...] of [runKubectl]: the command to
    spawn and its arguments. *)
Definition commandLine (args : list jsval) : result (string * list jsval) :=
  if set K8S_SSH_HOST then
    match kubectlCmd args with
    | Throw e => Throw e
    | Ok cmd =>
        if set K8S_SSH_KEY then
          Ok ("ssh",
              [JStr "-i"; JStr K8S_SSH_KEY;
               JStr "-o"; JStr "StrictHostKeyChecking=no";
               JStr "-o"; JStr "UserKnownHostsFile=/dev/null";
               JStr "-o"; JStr "BatchMode=yes";
               userAtHost; JStr cmd])
        else if set K8S_SSH_PASSWORD then
          if process_platform =? "win32" then
            Ok ("plink",
                [JStr "-batch"; JStr "-pw"; JStr K8S_SSH_PASSWORD;
                 userAtHost; JStr cmd])
          else
            Ok ("sshpass",
                [JStr "-p"; JStr K8S_SSH_PASSWORD; JStr "ssh";
                 JStr "-o"; JStr "StrictHostKeyChecking=no";
                 JStr "-o"; JStr "UserKnownHostsFile=/dev/null";
                 userAtHost; JStr cmd])
        else
          Ok ("ssh",
              [JStr "-o"; JStr "StrictHostKeyChecking=no";
               userAtHost; JStr cmd])
    end
  else
    let spawnArgs := args in
    let spawnArgs :=
      if set KUBECONFIG
      then JStr ("--kubeconfig=" ++ KUBECONFIG) :: spawnArgs
      else spawnArgs in
    let spawnArgs :=
      if set K8S_CONTEXT
      then JStr ("--context=" ++ K8S_CONTEXT) :: spawnArgs
      else spawnArgs in
    Ok (KUBECTL_PATH, spawnArgs).

(** [if (options?.stdin) { proc.stdin.write(options.stdin); ... }]: the
    text written, if any; writing a value that is not a string throws. *)
Definition writeStdin (options : option jsval) : M (option string) :=
  match options with
  | None => ret None
  | Some v =>
      if truthy v then
        match v with
        | JStr s => log (EvStdin s) ;;; ret (Some s)
        | _ => throw (Engine (TypeError Write v))
        end
      else ret None
  end.

(** With the option [shell: true], [spawn] joins the command and its
    arguments with single spaces and runs the system shell on the
    resulting command line; the shell, not [spawn], divides the line
    into the words of a command. *)
Definition shellCommand (command : string) (spawnArgs : list jsval) : string :=
  Array_join " " (JStr command :: spawnArgs).

(** The handlers [proc.on("close", ...)] and [proc.on("error", ...)]: the
    value the promise resolves with ([code || 0] turns a [null] code
    into 0). *)
Definition resolved (settled : proc_outcome) : KubectlResult :=
  match settled with
  | ProcClose out err c =>
      {| stdout := out; stderr := err;
         code := match c with Some n => n | None => 0%Z end |}
  | ProcError msg =>
      {| stdout := ""; stderr := msg; code := 1 |}
  end.

(** [runKubectl(args, options)].  The returned computation is the
    promise: it resolves when one of the two handlers runs; it rejects
    when the promise executor throws (building the command line, in
    [spawn], at [proc.stdout.on] on a child without streams, at the write
    to the child's input); it stays pending when the child never
    reports. *)
Definition runKubectl (args : list jsval) (options : option jsval)
  : M KubectlResult :=
  log (EvKubectl args options) ;;;
  cl <- lift (commandLine args) ;;
  let '(command, spawnArgs) := cl in
  log (EvSpawn command spawnArgs) ;;;
  let line := shellCommand command spawnArgs in
  match spawn line with
  | SpawnThrows message => throw (Error message)
  | NoStreams => throw (Engine (TypeError (Read "on") JUndefined))
  | Started =>
      input <- writeStdin options ;;
      match settle line input with
      | None => pending
      | Some settled => log (EvProc settled) ;;; ret (resolved settled)
      end
  end.

(** ** Helper functions *)

(** [namespace || K8S_DEFAULT_NAMESPACE] *)
Definition getNamespace (namespace : jsval) : jsval :=
  js_or namespace (JStr K8S_DEFAULT_NAMESPACE).

(** [if (result.code !== 0) throw new Error(message)] *)
Definition throwIfFailed (r : KubectlResult) (message : string) : M unit :=
  if (code r =? 0)%Z then ret tt else throw (Error message).

(** [s || d] on strings. *)
Definition str_or (s d : string) : string := if set s then s else d.

(** [JSON.parse(text)] *)
Definition parse (text : string) : M jsval :=
  match JSON_parse text with
  | Some v => ret v
  | None => throw (Engine (SyntaxError text))
  end.

(** A property path [v.k1.k2...]. *)
Fixpoint getpath (v : jsval) (path : list string) : result jsval :=
  match path with
  | [] => Ok v
  | k :: rest =>
      match getp v k with
      | Throw e => Throw e
      | Ok w => getpath w rest
      end
  end.

Definition path (v : jsval) (p : list string) : M jsval := lift (getpath v p).

(** [Array.prototype.find] with a callback that may throw. *)
Fixpoint findR (f : jsval -> result bool) (l : list jsval)
  : result (option jsval) :=
  match l with
  | [] => Ok None
  | x :: rest =>
      match f x with
      | Throw e => Throw e
      | Ok true => Ok (Some x)
      | Ok false => findR f rest
      end
  end.

(** [v.map(f)], written [callee] in the program: only an array has the
    method. *)
Definition Array_map (callee : string) (f : jsval -> result jsval)
    (v : jsval) : result jsval :=
  match v with
  | JArr l =>
      match mapR f l with
      | Throw e => Throw e
      | Ok l' => Ok (JArr l')
      end
  | JUndefined | JNull => Throw (Engine (TypeError (Read "map") v))
  | _ => Throw (Engine (TypeError (Call callee) v))
  end.

(** [conditions?.find((c) => c.type === "Ready")?.status] *)
Definition readyCondition (conditions : jsval) : result jsval :=
  match conditions with
  | JUndefined | JNull => Ok JUndefined
  | JArr l =>
      match findR (fun c => match getp c "type" with
                            | Throw e => Throw e
                            | Ok t => Ok (is_string "Ready" t)
                            end) l with
      | Throw e => Throw e
      | Ok None => Ok JUndefined
      | Ok (Some c) => getp c "status"
      end
  | _ => Throw (Engine (TypeError (Call "node.status.conditions?.find") conditions))
  end.

(** [Object.entries(v)] *)
Definition Object_entries (v : jsval) : result record :=
  match v with
  | JUndefined | JNull => Throw (Engine (TypeError Entries v))
  | JObj o => Ok o
  | JArr l => Ok (combine (index_keys (List.length l)) l)
  | JStr s => Ok (combine (index_keys (String.length s)) (chars s))
  | JBool _ | JNum _ => Ok []
  end.

(** [Object.keys(v)] for a value that is not [undefined] or [null]. *)
Definition Object_keys (v : jsval) : list string :=
  match Object_entries v with
  | Ok o => map fst o
  | Throw _ => []
  end.

(** [o[k] = v] on an object created by the literal [{}] or by an object
    literal: the key [__proto__] reaches the accessor inherited from
    [Object.prototype], which creates no own property (and ignores a value
    that is neither an object nor [null]); any other key replaces or
    appends the own property. *)
Fixpoint assign_own (k : string) (v : jsval) (o : record) : record :=
  match o with
  | [] => [(k, v)]
  | (k', v') :: rest =>
      if k' =? k then (k', v) :: rest else (k', v') :: assign_own k v rest
  end.

Definition assign (k : string) (v : jsval) (o : record) : record :=
  if k =? "__proto__" then o else assign_own k v o.

(** [Buffer.from(value as string, "base64").toString("utf-8")] *)
Definition decodeBase64 (value : jsval) : result jsval :=
  match value with
  | JStr s => Ok (JStr (base64_utf8 s))
  | _ =>
      match Buffer_from_other value with
      | Some s => Ok (JStr s)
      | None => Throw (Engine (TypeError Decode value))
      end
  end.

(** ** Tool definitions *)

Inductive schema_type : Type := TString | TBoolean | TNumber | TObject.

(** A tool descriptor: its name, the declared properties of its input
    schema with their types, and the required ones (the description
    texts are documentation and are left out). *)
Record Tool : Type := {
  name : string;
  properties : list (string * schema_type);
  required : list string
}.

Definition tools : list Tool :=
  [
    {| name := "k8s_get_cluster_info";
       properties := [];
       required := [] |};
    {| name := "k8s_list_nodes";
       properties := [];
       required := [] |};
    {| name := "k8s_get_node";
       properties := [("name", TString)];
       required := ["name"] |};
    {| name := "k8s_describe_node";
       properties := [("name", TString)];
       required := ["name"] |};
    {| name := "k8s_list_namespaces";
       properties := [];
       required := [] |};
    {| name := "k8s_create_namespace";
       properties := [("name", TString)];
       required := ["name"] |};
    {| name := "k8s_delete_namespace";
       properties := [("name", TString)];
       required := ["name"] |};
    {| name := "k8s_list_pods";
       properties := [("namespace", TString); ("all_namespaces", TBoolean);
                      ("label_selector", TString)];
       required := [] |};
    {| name := "k8s_get_pod";
       properties := [("name", TString); ("namespace", TString)];
       required := ["name"] |};
    {| name := "k8s_describe_pod";
       properties := [("name", TString); ("namespace", TString)];
       required := ["name"] |};
    {| name := "k8s_get_pod_logs";
       properties := [("name", TString); ("namespace", TString);
                      ("container", TString); ("tail", TNumber);
                      ("previous", TBoolean); ("since", TString)];
       required := ["name"] |};
    {| name := "k8s_delete_pod";
       properties := [("name", TString); ("namespace", TString);
                      ("force", TBoolean)];
       required := ["name"] |};
    {| name := "k8s_exec_pod";
       properties := [("name", TString); ("namespace", TString);
                      ("container", TString); ("command", TString)];
       required := ["name"; "command"] |};
    {| name := "k8s_list_deployments";
       properties := [("namespace", TString); ("all_namespaces", TBoolean)];
       required := [] |};
    {| name := "k8s_get_deployment";
       properties := [("name", TString); ("namespace", TString)];
       required := ["name"] |};
    {| name := "k8s_describe_deployment";
       properties := [("name", TString); ("namespace", TString)];
       required := ["name"] |};
    {| name := "k8s_scale_deployment";
       properties := [("name", TString); ("namespace", TString);
                      ("replicas", TNumber)];
       required := ["name"; "replicas"] |};
    {| name := "k8s_restart_deployment";
       properties := [("name", TString); ("namespace", TString)];
       required := ["name"] |};
    {| name := "k8s_update_deployment_image";
       properties := [("name", TString); ("namespace", TString);
                      ("container", TString); ("image", TString)];
       required := ["name"; "container"; "image"] |};
    {| name := "k8s_list_services";
       properties := [("namespace", TString); ("all_namespaces", TBoolean)];
       required := [] |};
    {| name := "k8s_get_service";
       properties := [("name", TString); ("namespace", TString)];
       required := ["name"] |};
    {| name := "k8s_describe_service";
       properties := [("name", TString); ("namespace", TString)];
       required := ["name"] |};
    {| name := "k8s_list_configmaps";
       properties := [("namespace", TString); ("all_namespaces", TBoolean)];
       required := [] |};
    {| name := "k8s_get_configmap";
       properties := [("name", TString); ("namespace", TString)];
       required := ["name"] |};
    {| name := "k8s_create_configmap";
       properties := [("name", TString); ("namespace", TString);
                      ("data", TObject)];
       required := ["name"; "data"] |};
    {| name := "k8s_delete_configmap";
       properties := [("name", TString); ("namespace", TString)];
       required := ["name"] |};
    {| name := "k8s_list_secrets";
       properties := [("namespace", TString); ("all_namespaces", TBoolean)];
       required := [] |};
    {| name := "k8s_get_secret";
       properties := [("name", TString); ("namespace", TString);
                      ("decode", TBoolean)];
       required := ["name"] |};
    {| name := "k8s_create_secret";
       properties := [("name", TString); ("namespace", TString);
                      ("data", TObject); ("type", TString)];
       required := ["name"; "data"] |};
    {| name := "k8s_delete_secret";
       properties := [("name", TString); ("namespace", TString)];
       required := ["name"] |};
    {| name := "k8s_list_statefulsets";
       properties := [("namespace", TString); ("all_namespaces", TBoolean)];
       required := [] |};
    {| name := "k8s_get_statefulset";
       properties := [("name", TString); ("namespace", TString)];
       required := ["name"] |};
    {| name := "k8s_scale_statefulset";
       properties := [("name", TString); ("namespace", TString);
                      ("replicas", TNumber)];
       required := ["name"; "replicas"] |};
    {| name := "k8s_list_daemonsets";
       properties := [("namespace", TString); ("all_namespaces", TBoolean)];
       required := [] |};
    {| name := "k8s_get_daemonset";
       properties := [("name", TString); ("namespace", TString)];
       required := ["name"] |};
    {| name := "k8s_list_ingresses";
       properties := [("namespace", TString); ("all_namespaces", TBoolean)];
       required := [] |};
    {| name := "k8s_get_ingress";
       properties := [("name", TString); ("namespace", TString)];
       required := ["name"] |};
    {| name := "k8s_apply_manifest";
       properties := [("manifest", TString); ("namespace", TString);
                      ("dry_run", TBoolean)];
       required := ["manifest"] |};
    {| name := "k8s_delete_resource";
       properties := [("resource_type", TString); ("name", TString);
                      ("namespace", TString); ("force", TBoolean)];
       required := ["resource_type"; "name"] |};
    {| name := "k8s_get_events";
       properties := [("namespace", TString); ("all_namespaces", TBoolean)];
       required := [] |};
    {| name := "k8s_get_resource_yaml";
       properties := [("resource_type", TString); ("name", TString);
                      ("namespace", TString)];
       required := ["resource_type"; "name"] |};
    {| name := "k8s_get_all";
       properties := [("namespace", TString)];
       required := [] |};
    {| name := "k8s_rollout_status";
       properties := [("name", TString); ("namespace", TString)];
       required := ["name"] |};
    {| name := "k8s_rollout_history";
       properties := [("name", TString); ("namespace", TString)];
       required := ["name"] |};
    {| name := "k8s_rollout_undo";
       properties := [("name", TString); ("namespace", TString);
                      ("revision", TNumber)];
       required := ["name"] |};
    {| name := "k8s_top_nodes";
       properties := [];
       required := [] |};
    {| name := "k8s_top_pods";
       properties := [("namespace", TString); ("all_namespaces", TBoolean)];
       required := [] |};
    {| name := "k8s_get_contexts";
       properties := [];
       required := [] |};
    {| name := "k8s_current_context";
       properties := [];
       required := [] |}
  ].

(** ** The tool dispatcher: the branches of [handleTool]

    Each branch of the [switch] is a definition of its own, named after
    its [case] label; [args] is the argument mapping and [ns] the constant
    bound at the head of [handleTool]. *)

(** The branches that run one fixed command and return its output. *)
Definition run_and_return (kubectlArgs : list jsval) : M string :=
  result <- runKubectl kubectlArgs None ;;
  throwIfFailed result (stderr result) ;;;
  ret (stdout result).

(** The branches that run one command and return a fixed message. *)
Definition run_and_report (kubectlArgs : list jsval) (message : string)
  : M string :=
  result <- runKubectl kubectlArgs None ;;
  throwIfFailed result (stderr result) ;;;
  ret message.

(** The branches that return the re-serialised JSON output. *)
Definition run_and_reprint (kubectlArgs : list jsval) : M string :=
  result <- runKubectl kubectlArgs None ;;
  throwIfFailed result (stderr result) ;;;
  v <- parse (stdout result) ;;
  ret (JSON_stringify v).

(** [if (args.all_namespaces) push("--all-namespaces") else push("-n", ns)] *)
Definition namespaceScope (args : record) (ns : jsval) : list jsval :=
  if truthy args.["all_namespaces"]
  then [JStr "--all-namespaces"]
  else [JStr "-n"; ns].

(** [if (v) kubectlArgs.push(...flags)] *)
Definition when (v : jsval) (flags : list jsval) : list jsval :=
  if truthy v then flags else [].

Definition case_k8s_get_cluster_info (args : record) (ns : jsval) : M string :=
  run_and_return js["cluster-info"].

Definition case_k8s_list_nodes (args : record) (ns : jsval) : M string :=
  run_and_return js["get"; "nodes"; "-o"; "wide"].

Definition case_k8s_get_node (args : record) (ns : jsval) : M string :=
  result <- runKubectl js["get"; "node"; args.["name"];
                        "-o"; "json"] None ;;
  throwIfFailed result (stderr result) ;;;
  node <- parse (stdout result) ;;
  name <- path node ["metadata"; "name"] ;;
  labels <- path node ["metadata"; "labels"] ;;
  conditions <- path node ["status"; "conditions"] ;;
  ready <- lift (readyCondition conditions) ;;
  conditions' <- path node ["status"; "conditions"] ;;
  capacity <- path node ["status"; "capacity"] ;;
  allocatable <- path node ["status"; "allocatable"] ;;
  nodeInfo <- path node ["status"; "nodeInfo"] ;;
  ret (JSON_stringify (JObj [
    ("name", name);
    ("labels", labels);
    ("status", JStr (if is_string "True" ready then "Ready" else "NotReady"));
    ("conditions", conditions');
    ("capacity", capacity);
    ("allocatable", allocatable);
    ("nodeInfo", nodeInfo)])).

Definition case_k8s_describe_node (args : record) (ns : jsval) : M string :=
  run_and_return js["describe"; "node"; args.["name"]].

Definition case_k8s_list_namespaces (args : record) (ns : jsval) : M string :=
  run_and_return js["get"; "namespaces"; "-o"; "wide"].

Definition case_k8s_create_namespace (args : record) (ns : jsval) : M string :=
  run_and_report js["create"; "namespace"; args.["name"]]
    ("Namespace '" ++ ToString args.["name"] ++ "' created successfully").

Definition case_k8s_delete_namespace (args : record) (ns : jsval) : M string :=
  run_and_report js["delete"; "namespace"; args.["name"]]
    ("Namespace '" ++ ToString args.["name"] ++ "' deleted").

Definition case_k8s_list_pods (args : record) (ns : jsval) : M string :=
  let kubectlArgs : list jsval := js["get"; "pods"; "-o"; "wide"] in
  let kubectlArgs := (kubectlArgs ++ namespaceScope args ns)%list in
  let kubectlArgs :=
    (kubectlArgs ++ when args.["label_selector"]
                      [JStr "-l"; args.["label_selector"]])%list in
  run_and_return kubectlArgs.

(** [c => ({ name: c.name, image: c.image, ports: c.ports })] *)
Definition podContainer (c : jsval) : result jsval :=
  match getp c "name" with
  | Throw e => Throw e
  | Ok name =>
      match getp c "image", getp c "ports" with
      | Ok image, Ok ports =>
          Ok (JObj [("name", name); ("image", image); ("ports", ports)])
      | Throw e, _ | _, Throw e => Throw e
      end
  end.

Definition case_k8s_get_pod (args : record) (ns : jsval) : M string :=
  result <- runKubectl js["get"; "pod"; args.["name"];
                        "-n"; ns; "-o"; "json"] None ;;
  throwIfFailed result (stderr result) ;;;
  pod <- parse (stdout result) ;;
  name <- path pod ["metadata"; "name"] ;;
  namespace <- path pod ["metadata"; "namespace"] ;;
  phase <- path pod ["status"; "phase"] ;;
  podIP <- path pod ["status"; "podIP"] ;;
  nodeName <- path pod ["spec"; "nodeName"] ;;
  containers <- path pod ["spec"; "containers"] ;;
  containers' <- lift (Array_map "pod.spec.containers.map"
                             podContainer containers) ;;
  conditions <- path pod ["status"; "conditions"] ;;
  containerStatuses <- path pod ["status"; "containerStatuses"] ;;
  ret (JSON_stringify (JObj [
    ("name", name);
    ("namespace", namespace);
    ("status", phase);
    ("podIP", podIP);
    ("nodeName", nodeName);
    ("containers", containers');
    ("conditions", conditions);
    ("containerStatuses", containerStatuses)])).

Definition case_k8s_describe_pod (args : record) (ns : jsval) : M string :=
  run_and_return js["describe"; "pod"; args.["name"]; "-n"; ns].

Definition case_k8s_get_pod_logs (args : record) (ns : jsval) : M string :=
  let kubectlArgs : list jsval := js["logs"; args.["name"]; "-n"; ns] in
  let kubectlArgs :=
    (kubectlArgs ++ when args.["container"] [JStr "-c"; args.["container"]])%list in
  let kubectlArgs :=
    (kubectlArgs ++ when args.["previous"] [JStr "--previous"])%list in
  let kubectlArgs :=
    (kubectlArgs ++ when args.["tail"]
                      [JStr "--tail"; JStr (ToString args.["tail"])])%list in
  let kubectlArgs :=
    (kubectlArgs ++ when args.["since"] [JStr "--since"; args.["since"]])%list in
  result <- runKubectl kubectlArgs None ;;
  throwIfFailed result (stderr result) ;;;
  ret (str_or (stdout result) "No logs available").

Definition case_k8s_delete_pod (args : record) (ns : jsval) : M string :=
  let kubectlArgs : list jsval := js["delete"; "pod"; args.["name"]; "-n"; ns] in
  let kubectlArgs :=
    (kubectlArgs ++ when args.["force"]
                      [JStr "--force"; JStr "--grace-period=0"])%list in
  run_and_report kubectlArgs
    ("Pod '" ++ ToString args.["name"] ++ "' deleted from namespace '"
       ++ ToString ns ++ "'").

(** [(args.command as string).split(" ")]: only a string has [split]. *)
Definition splitCommand (command : jsval) : result (list jsval) :=
  match command with
  | JStr s => Ok (map JStr (String_split space s))
  | JUndefined | JNull => Throw (Engine (TypeError (Read "split") command))
  | _ => Throw (Engine (TypeError (Call "args.command.split") command))
  end.

Definition case_k8s_exec_pod (args : record) (ns : jsval) : M string :=
  let kubectlArgs : list jsval := js["exec"; args.["name"]; "-n"; ns] in
  let kubectlArgs :=
    (kubectlArgs ++ when args.["container"] [JStr "-c"; args.["container"]])%list in
  words <- lift (splitCommand args.["command"]) ;;
  let kubectlArgs := (kubectlArgs ++ JStr "--" :: words)%list in
  result <- runKubectl kubectlArgs None ;;
  ret (stdout result ++ stderr result).

Definition case_k8s_list_deployments (args : record) (ns : jsval) : M string :=
  run_and_return (js["get"; "deployments"; "-o"; "wide"] ++ namespaceScope args ns)%list.

(** [c => ({ name: c.name, image: c.image })] *)
Definition deploymentContainer (c : jsval) : result jsval :=
  match getp c "name", getp c "image" with
  | Ok name, Ok image => Ok (JObj [("name", name); ("image", image)])
  | Throw e, _ | _, Throw e => Throw e
  end.

Definition case_k8s_get_deployment (args : record) (ns : jsval) : M string :=
  result <- runKubectl js["get"; "deployment"; args.["name"];
                          "-n"; ns; "-o"; "json"] None ;;
  throwIfFailed result (stderr result) ;;;
  dep <- parse (stdout result) ;;
  name <- path dep ["metadata"; "name"] ;;
  namespace <- path dep ["metadata"; "namespace"] ;;
  replicas <- path dep ["spec"; "replicas"] ;;
  availableReplicas <- path dep ["status"; "availableReplicas"] ;;
  readyReplicas <- path dep ["status"; "readyReplicas"] ;;
  strategy <- path dep ["spec"; "strategy"] ;;
  containers <- path dep ["spec"; "template"; "spec"; "containers"] ;;
  containers' <- lift (Array_map "dep.spec.template.spec.containers.map"
                             deploymentContainer containers) ;;
  conditions <- path dep ["status"; "conditions"] ;;
  ret (JSON_stringify (JObj [
    ("name", name);
    ("namespace", namespace);
    ("replicas", replicas);
    ("availableReplicas", availableReplicas);
    ("readyReplicas", readyReplicas);
    ("strategy", strategy);
    ("containers", containers');
    ("conditions", conditions)])).

Definition case_k8s_describe_deployment (args : record) (ns : jsval) : M string :=
  run_and_return js["describe"; "deployment"; args.["name"]; "-n"; ns].

Definition case_k8s_scale_deployment (args : record) (ns : jsval) : M string :=
  run_and_report
    js["scale"; "deployment"; args.["name"]; "-n"; ns;
       "--replicas=" ++ ToString args.["replicas"]]
    ("Deployment '" ++ ToString args.["name"] ++ "' scaled to "
       ++ ToString args.["replicas"] ++ " replicas").

Definition case_k8s_restart_deployment (args : record) (ns : jsval) : M string :=
  run_and_report
    js["rollout"; "restart"; "deployment"; args.["name"]; "-n"; ns]
    ("Deployment '" ++ ToString args.["name"] ++ "' restarted").

Definition case_k8s_update_deployment_image (args : record) (ns : jsval) : M string :=
  run_and_report
    js["set"; "image"; "deployment/" ++ ToString args.["name"];
       ToString args.["container"] ++ "=" ++ ToString args.["image"];
       "-n"; ns]
    ("Deployment '" ++ ToString args.["name"] ++ "' container '"
       ++ ToString args.["container"] ++ "' updated to image '"
       ++ ToString args.["image"] ++ "'").

Definition case_k8s_list_services (args : record) (ns : jsval) : M string :=
  run_and_return (js["get"; "services"; "-o"; "wide"] ++ namespaceScope args ns)%list.

Definition case_k8s_get_service (args : record) (ns : jsval) : M string :=
  result <- runKubectl js["get"; "service"; args.["name"];
                          "-n"; ns; "-o"; "json"] None ;;
  throwIfFailed result (stderr result) ;;;
  svc <- parse (stdout result) ;;
  name <- path svc ["metadata"; "name"] ;;
  namespace <- path svc ["metadata"; "namespace"] ;;
  type <- path svc ["spec"; "type"] ;;
  clusterIP <- path svc ["spec"; "clusterIP"] ;;
  externalIPs <- path svc ["spec"; "externalIPs"] ;;
  ports <- path svc ["spec"; "ports"] ;;
  selector <- path svc ["spec"; "selector"] ;;
  ret (JSON_stringify (JObj [
    ("name", name);
    ("namespace", namespace);
    ("type", type);
    ("clusterIP", clusterIP);
    ("externalIPs", externalIPs);
    ("ports", ports);
    ("selector", selector)])).

Definition case_k8s_describe_service (args : record) (ns : jsval) : M string :=
  run_and_return js["describe"; "service"; args.["name"]; "-n"; ns].

Definition case_k8s_list_configmaps (args : record) (ns : jsval) : M string :=
  run_and_return (js["get"; "configmaps"] ++ namespaceScope args ns)%list.

Definition case_k8s_get_configmap (args : record) (ns : jsval) : M string :=
  result <- runKubectl js["get"; "configmap"; args.["name"];
                          "-n"; ns; "-o"; "json"] None ;;
  throwIfFailed result (stderr result) ;;;
  cm <- parse (stdout result) ;;
  name <- path cm ["metadata"; "name"] ;;
  namespace <- path cm ["metadata"; "namespace"] ;;
  data <- path cm ["data"] ;;
  ret (JSON_stringify (JObj [
    ("name", name);
    ("namespace", namespace);
    ("data", data)])).

(** [`--from-literal=${key}=${value}`] for every entry of [data]. *)
Definition fromLiterals (data : jsval) : result (list jsval) :=
  match Object_entries data with
  | Throw e => Throw e
  | Ok entries =>
      Ok (map (fun kv => JStr ("--from-literal=" ++ fst kv ++ "="
                                 ++ ToString (snd kv))) entries)
  end.

Definition case_k8s_create_configmap (args : record) (ns : jsval) : M string :=
  let data := args.["data"] in
  let kubectlArgs : list jsval :=
    js["create"; "configmap"; args.["name"]; "-n"; ns] in
  literals <- lift (fromLiterals data) ;;
  let kubectlArgs := (kubectlArgs ++ literals)%list in
  run_and_report kubectlArgs
    ("ConfigMap '" ++ ToString args.["name"] ++ "' created in namespace '"
       ++ ToString ns ++ "'").

Definition case_k8s_delete_configmap (args : record) (ns : jsval) : M string :=
  run_and_report js["delete"; "configmap"; args.["name"]; "-n"; ns]
    ("ConfigMap '" ++ ToString args.["name"] ++ "' deleted from namespace '"
       ++ ToString ns ++ "'").

Definition case_k8s_list_secrets (args : record) (ns : jsval) : M string :=
  run_and_return (js["get"; "secrets"] ++ namespaceScope args ns)%list.

(** The [for] loop of the secret branch:
    [response.decodedData[key] = Buffer.from(value, "base64").toString("utf-8")]
    for every entry, starting from [decodedData]. *)
Fixpoint decodeEntries (entries : record) (decodedData : record)
  : result record :=
  match entries with
  | [] => Ok decodedData
  | (key, value) :: rest =>
      match decodeBase64 value with
      | Throw e => Throw e
      | Ok text => decodeEntries rest (assign key text decodedData)
      end
  end.

(** The object [response] of the secret branch, built from the parsed
    output [secret]. *)
Definition secretResponse (args : record) (secret : jsval) : result jsval :=
  match getpath secret ["metadata"; "name"] with
  | Throw e => Throw e
  | Ok name =>
  match getpath secret ["metadata"; "namespace"] with
  | Throw e => Throw e
  | Ok namespace =>
  match getp secret "type", getp secret "data" with
  | Throw e, _ | _, Throw e => Throw e
  | Ok type, Ok data =>
      let response : record :=
        [("name", name);
         ("namespace", namespace);
         ("type", type);
         ("keys", JArr (map JStr (Object_keys (js_or data (JObj [])))))] in
      if truthy args.["decode"] && truthy data then
        match Object_entries data with
        | Throw e => Throw e
        | Ok entries =>
            match decodeEntries entries [] with
            | Throw e => Throw e
            | Ok decodedData =>
                Ok (JObj (assign "decodedData" (JObj decodedData) response))
            end
        end
      else Ok (JObj response)
  end end end.

Definition case_k8s_get_secret (args : record) (ns : jsval) : M string :=
  result <- runKubectl js["get"; "secret"; args.["name"];
                          "-n"; ns; "-o"; "json"] None ;;
  throwIfFailed result (stderr result) ;;;
  secret <- parse (stdout result) ;;
  response <- lift (secretResponse args secret) ;;
  ret (JSON_stringify response).

Definition case_k8s_create_secret (args : record) (ns : jsval) : M string :=
  let data := args.["data"] in
  let kubectlArgs : list jsval :=
    js["create"; "secret"; js_or args.["type"] "generic";
       args.["name"]; "-n"; ns] in
  literals <- lift (fromLiterals data) ;;
  let kubectlArgs := (kubectlArgs ++ literals)%list in
  run_and_report kubectlArgs
    ("Secret '" ++ ToString args.["name"] ++ "' created in namespace '"
       ++ ToString ns ++ "'").

Definition case_k8s_delete_secret (args : record) (ns : jsval) : M string :=
  run_and_report js["delete"; "secret"; args.["name"]; "-n"; ns]
    ("Secret '" ++ ToString args.["name"] ++ "' deleted from namespace '"
       ++ ToString ns ++ "'").

Definition case_k8s_list_statefulsets (args : record) (ns : jsval) : M string :=
  run_and_return (js["get"; "statefulsets"; "-o"; "wide"] ++ namespaceScope args ns)%list.

Definition case_k8s_get_statefulset (args : record) (ns : jsval) : M string :=
  run_and_reprint js["get"; "statefulset"; args.["name"];
                     "-n"; ns; "-o"; "json"].

Definition case_k8s_scale_statefulset (args : record) (ns : jsval) : M string :=
  run_and_report
    js["scale"; "statefulset"; args.["name"]; "-n"; ns;
       "--replicas=" ++ ToString args.["replicas"]]
    ("StatefulSet '" ++ ToString args.["name"] ++ "' scaled to "
       ++ ToString args.["replicas"] ++ " replicas").

Definition case_k8s_list_daemonsets (args : record) (ns : jsval) : M string :=
  run_and_return (js["get"; "daemonsets"; "-o"; "wide"] ++ namespaceScope args ns)%list.

Definition case_k8s_get_daemonset (args : record) (ns : jsval) : M string :=
  run_and_reprint js["get"; "daemonset"; args.["name"];
                     "-n"; ns; "-o"; "json"].

Definition case_k8s_list_ingresses (args : record) (ns : jsval) : M string :=
  run_and_return (js["get"; "ingress"; "-o"; "wide"] ++ namespaceScope args ns)%list.

Definition case_k8s_get_ingress (args : record) (ns : jsval) : M string :=
  run_and_reprint js["get"; "ingress"; args.["name"];
                     "-n"; ns; "-o"; "json"].

Definition case_k8s_apply_manifest (args : record) (ns : jsval) : M string :=
  let kubectlArgs : list jsval := js["apply"; "-f"; "-"] in
  let kubectlArgs :=
    (kubectlArgs ++ when args.["namespace"] [JStr "-n"; ns])%list in
  let kubectlArgs :=
    (kubectlArgs ++ when args.["dry_run"] [JStr "--dry-run=client"])%list in
  result <- runKubectl kubectlArgs (Some args.["manifest"]) ;;
  throwIfFailed result (stderr result) ;;;
  ret (stdout result ++ stderr result).

Definition case_k8s_delete_resource (args : record) (ns : jsval) : M string :=
  let kubectlArgs : list jsval :=
    js["delete"; args.["resource_type"]; args.["name"]; "-n"; ns] in
  let kubectlArgs :=
    (kubectlArgs ++ when args.["force"]
                      [JStr "--force"; JStr "--grace-period=0"])%list in
  run_and_report kubectlArgs
    (ToString args.["resource_type"] ++ " '" ++ ToString args.["name"]
       ++ "' deleted from namespace '" ++ ToString ns ++ "'").

Definition case_k8s_get_events (args : record) (ns : jsval) : M string :=
  run_and_return
    (js["get"; "events"; "--sort-by=.lastTimestamp"] ++ namespaceScope args ns)%list.

Definition case_k8s_get_resource_yaml (args : record) (ns : jsval) : M string :=
  run_and_return js["get"; args.["resource_type"]; args.["name"];
                    "-n"; ns; "-o"; "yaml"].

Definition case_k8s_get_all (args : record) (ns : jsval) : M string :=
  run_and_return js["get"; "all"; "-n"; ns; "-o"; "wide"].

Definition case_k8s_rollout_status (args : record) (ns : jsval) : M string :=
  run_and_return js["rollout"; "status"; "deployment"; args.["name"]; "-n"; ns].

Definition case_k8s_rollout_history (args : record) (ns : jsval) : M string :=
  run_and_return js["rollout"; "history"; "deployment"; args.["name"]; "-n"; ns].

Definition case_k8s_rollout_undo (args : record) (ns : jsval) : M string :=
  let kubectlArgs : list jsval :=
    js["rollout"; "undo"; "deployment"; args.["name"]; "-n"; ns] in
  let kubectlArgs :=
    (kubectlArgs ++ when args.["revision"]
                      [JStr ("--to-revision=" ++ ToString args.["revision"])])%list in
  run_and_return kubectlArgs.

Definition metricsHint : string := "Metrics server may not be installed".

Definition case_k8s_top_nodes (args : record) (ns : jsval) : M string :=
  result <- runKubectl js["top"; "nodes"] None ;;
  throwIfFailed result (str_or (stderr result) metricsHint) ;;;
  ret (stdout result).

Definition case_k8s_top_pods (args : record) (ns : jsval) : M string :=
  let kubectlArgs : list jsval := (js["top"; "pods"] ++ namespaceScope args ns)%list in
  result <- runKubectl kubectlArgs None ;;
  throwIfFailed result (str_or (stderr result) metricsHint) ;;;
  ret (stdout result).

Definition case_k8s_get_contexts (args : record) (ns : jsval) : M string :=
  run_and_return js["config"; "get-contexts"].

Definition case_k8s_current_context (args : record) (ns : jsval) : M string :=
  result <- runKubectl js["config"; "current-context"] None ;;
  throwIfFailed result (stderr result) ;;;
  ret (String_trim (stdout result)).

(** The [default] branch. *)
Definition case_default (name : string) : M string :=
  throw (Error ("Unknown tool: " ++ name)).

(** The [case] labels of the [switch] in [handleTool], each with its
    branch, in source order.  Every branch ends in [return] or [throw], so
    the [switch] runs the branch of the first label equal to [name]. *)
Definition cases : list (string * (record -> jsval -> M string)) :=
  [ ("k8s_get_cluster_info", case_k8s_get_cluster_info);
    ("k8s_list_nodes", case_k8s_list_nodes);
    ("k8s_get_node", case_k8s_get_node);
    ("k8s_describe_node", case_k8s_describe_node);
    ("k8s_list_namespaces", case_k8s_list_namespaces);
    ("k8s_create_namespace", case_k8s_create_namespace);
    ("k8s_delete_namespace", case_k8s_delete_namespace);
    ("k8s_list_pods", case_k8s_list_pods);
    ("k8s_get_pod", case_k8s_get_pod);
    ("k8s_describe_pod", case_k8s_describe_pod);
    ("k8s_get_pod_logs", case_k8s_get_pod_logs);
    ("k8s_delete_pod", case_k8s_delete_pod);
    ("k8s_exec_pod", case_k8s_exec_pod);
    ("k8s_list_deployments", case_k8s_list_deployments);
    ("k8s_get_deployment", case_k8s_get_deployment);
    ("k8s_describe_deployment", case_k8s_describe_deployment);
    ("k8s_scale_deployment", case_k8s_scale_deployment);
    ("k8s_restart_deployment", case_k8s_restart_deployment);
    ("k8s_update_deployment_image", case_k8s_update_deployment_image);
    ("k8s_list_services", case_k8s_list_services);
    ("k8s_get_service", case_k8s_get_service);
    ("k8s_describe_service", case_k8s_describe_service);
    ("k8s_list_configmaps", case_k8s_list_configmaps);
    ("k8s_get_configmap", case_k8s_get_configmap);
    ("k8s_create_configmap", case_k8s_create_configmap);
    ("k8s_delete_configmap", case_k8s_delete_configmap);
    ("k8s_list_secrets", case_k8s_list_secrets);
    ("k8s_get_secret", case_k8s_get_secret);
    ("k8s_create_secret", case_k8s_create_secret);
    ("k8s_delete_secret", case_k8s_delete_secret);
    ("k8s_list_statefulsets", case_k8s_list_statefulsets);
    ("k8s_get_statefulset", case_k8s_get_statefulset);
    ("k8s_scale_statefulset", case_k8s_scale_statefulset);
    ("k8s_list_daemonsets", case_k8s_list_daemonsets);
    ("k8s_get_daemonset", case_k8s_get_daemonset);
    ("k8s_list_ingresses", case_k8s_list_ingresses);
    ("k8s_get_ingress", case_k8s_get_ingress);
    ("k8s_apply_manifest", case_k8s_apply_manifest);
    ("k8s_delete_resource", case_k8s_delete_resource);
    ("k8s_get_events", case_k8s_get_events);
    ("k8s_get_resource_yaml", case_k8s_get_resource_yaml);
    ("k8s_get_all", case_k8s_get_all);
    ("k8s_rollout_status", case_k8s_rollout_status);
    ("k8s_rollout_history", case_k8s_rollout_history);
    ("k8s_rollout_undo", case_k8s_rollout_undo);
    ("k8s_top_nodes", case_k8s_top_nodes);
    ("k8s_top_pods", case_k8s_top_pods);
    ("k8s_get_contexts", case_k8s_get_contexts);
    ("k8s_current_context", case_k8s_current_context) ].

(** [switch (name) { case ...: ...; default: ... }] *)
Fixpoint switch (name : string)
    (branches : list (string * (record -> jsval -> M string)))
    (args : record) (ns : jsval) : M string :=
  match branches with
  | [] => case_default name
  | (label, branch) :: rest =>
      if name =? label then branch args ns else switch name rest args ns
  end.

(** [handleTool(name, args)]: the namespace is resolved once, before the
    [switch]; the call of [getNamespace] is recorded in the trace.  The
    parameter is typed [Record<string, unknown>], but the handler passes
    on what the request holds: without an argument mapping [args] is
    [undefined], and reading [args.namespace] throws. *)
Definition handleTool (name : string) (args : option record) : M string :=
  match args with
  | None => throw (Engine (TypeError (Read "namespace") JUndefined))
  | Some args =>
      let ns := getNamespace args.["namespace"] in
      log (EvNamespace ns) ;;;
      switch name cases args ns
  end.

(** The response of a tool call. *)
Record CallToolResult : Type := {
  text : string;
  isError : bool
}.

(** The handler registered for [CallToolRequestSchema], on the name and
    the argument mapping of [request.params] (the mapping is optional in
    a request): the calls made and the response; there is no response
    when the dispatcher's promise stays pending. *)
Definition callTool (name : string) (args : option record)
  : list event * option CallToolResult :=
  match handleTool name args with
  | (t, Settled (Ok result)) =>
      (t, Some {| text := result; isError := false |})
  | (t, Settled (Throw error)) =>
      (t, Some {| text := "Error: " ++ message_of error; isError := true |})
  | (t, Pending) => (t, None)
  end.

End Server.

(** ** The age helper

    [calculateAge] reads the clock and parses its argument with [Date];
    both are the host's.  Time values are integral milliseconds, and the
    arithmetic of the function is exact on them as long as the difference
    stays below 2^53 (any date within 285,000 years of now). *)

Class Clock : Type := {
  (** [new Date().getTime()] *)
  Date_now : Z;
  (** [new Date(text).getTime()]; [None] for an invalid date ([NaN]) *)
  Date_parse : string -> option Z
}.

Definition msPerDay : Z := 1000 * 60 * 60 * 24.
Definition msPerHour : Z := 1000 * 60 * 60.
Definition msPerMinute : Z := 1000 * 60.

(** [calculateAge(timestamp)].  [Math.floor(a / b)] is [Z.div] for a
    positive [b], the remainder [a % b] takes the sign of [a] ([Z.rem]);
    with [NaN] every comparison fails and the minutes print as [NaN]. *)
Definition calculateAge `{Clock} (timestamp : string) : string :=
  if timestamp =? "" then "N/A"
  else
    match Date_parse timestamp with
    | None => "NaN" ++ "m"
    | Some created =>
        let diff := (Date_now - created)%Z in
        let days := (diff / msPerDay)%Z in
        let hours := (Z.rem diff msPerDay / msPerHour)%Z in
        let minutes := (Z.rem diff msPerHour / msPerMinute)%Z in
        if (0 <? days)%Z then Z_to_string days ++ "d"
        else if (0 <? hours)%Z then Z_to_string hours ++ "h"
        else Z_to_string minutes ++ "m"
    end.

(** ** Start-up *)

(** What [main] does, in order: a line on the error console, a run of the
    executor (with its trace), the connection of the transport, the exit
    of the process.  When the run of the executor stays pending, [main]
    goes no further. *)
Inductive startup : Type :=
| Console (line : string)
| Executor (t : list event)
| Connect
| Exit (status : Z).

(** The transport: [server.connect(transport)] resolves ([None]) or
    rejects with an error of the given message. *)
Class Transport : Type := {
  connect_error : option string
}.

(** The [catch] of [main]. *)
Definition failedToStart (message : string) : list startup :=
  [Console ("Failed to start server: " ++ message); Exit 1].

(** The lines that tell the connection mode. *)
Definition modeLines `{Platform} : list startup :=
  if set K8S_SSH_HOST then
    [Console ("Mode: SSH remote kubectl (" ++ K8S_SSH_USER ++ "@"
                ++ K8S_SSH_HOST ++ ")")]
  else
    ([Console "Mode: Local kubectl"]
     ++ (if set KUBECONFIG
         then [Console ("Kubeconfig: " ++ KUBECONFIG)] else [])
     ++ (if set K8S_CONTEXT
         then [Console ("Context: " ++ K8S_CONTEXT)] else []))%list.

(** The lines that report the connectivity test. *)
Definition probeLines `{Platform} (versionResult : KubectlResult)
  : list startup :=
  if (code versionResult =? 0)%Z then
    [Console "kubectl connection successful";
     Console (String_trim (stdout versionResult))]
  else
    [Console ("Warning: kubectl may not be fully accessible: "
                ++ stderr versionResult)].

(** [await server.connect(transport)] and what follows it. *)
Definition connectSteps `{Transport} : list startup :=
  match connect_error with
  | Some message => Connect :: failedToStart message
  | None => [Connect; Console "Kubernetes MCP server running"]
  end.

(** [main()] *)
Definition main `{Platform} `{Transport} : list startup :=
  ([Console "Kubernetes MCP Server starting..."]
   ++ modeLines
   ++ match runKubectl js["version"; "--short"] None with
      | (t, Settled (Throw error)) =>
          Executor t :: failedToStart (message_of error)
      | (t, Settled (Ok versionResult)) =>
          [Executor t] ++ probeLines versionResult ++ connectSteps
      | (t, Pending) => [Executor t]
      end)%list.

(** ** Reference platforms

    Concrete hosts on which the model runs.  Everything of such a host
    is scripted: its environment is a table, [spawn] and the child
    behave the same on every command line, [JSON.parse] returns one
    value, [Buffer] decodes the texts of a table (and [JSON.stringify],
    [trim] and the printing of large numbers are fixed); the messages of
    the engine's errors are in the style of V8. *)

Definition env_table (table : list (string * string)) (k : string)
  : option string :=
  match find (fun kv => fst kv =? k) table with
  | Some kv => Some (snd kv)
  | None => None
  end.

(** The base64 texts of the examples, with what they decode to. *)
Definition decoded : list (string * string) :=
  [("YWRtaW4=", "admin"); ("aGk=", "hi")].

Definition decode_table (s : string) : string :=
  match find (fun kv => fst kv =? s) decoded with
  | Some kv => snd kv
  | None => ""
  end.

(** How the message of an invalid argument names the value it
    received. *)
Definition received (v : jsval) : string :=
  match v with
  | JUndefined => "Received undefined"
  | JNull => "Received null"
  | JBool b => "Received type boolean (" ++ (if b then "true" else "false")
                 ++ ")"
  | JNum n => "Received type number (" ++ Z_to_string n ++ ")"
  | JStr s => "Received type string ('" ++ s ++ "')"
  | JArr _ => "Received an instance of Array"
  | JObj _ => "Received an instance of Object"
  end.

(** The messages of the engine's errors.  That of a [SyntaxError] is the
    one for a text whose first character already is no JSON: a text of
    less than 21 characters is quoted whole, of a longer one the first
    ten. *)
Definition engine_text (e : engine_error) : string :=
  match e with
  | TypeError (Read k) v =>
      "Cannot read properties of "
        ++ match v with JNull => "null" | _ => "undefined" end
        ++ " (reading '" ++ k ++ "')"
  | TypeError (Call callee) _ => callee ++ " is not a function"
  | TypeError Entries _ => "Cannot convert undefined or null to object"
  | TypeError Write v =>
      "The " ++ str1 dquote ++ "chunk" ++ str1 dquote
        ++ " argument must be of type string or an instance of Buffer, "
        ++ "TypedArray, or DataView. " ++ received v
  | TypeError Decode v =>
      "The first argument must be of type string or an instance of "
        ++ "Buffer, ArrayBuffer, or Array or an Array-like Object. "
        ++ received v
  | SyntaxError text =>
      match text with
      | EmptyString => "Unexpected end of JSON input"
      | String c _ =>
          "Unexpected token '" ++ str1 c ++ "', " ++ str1 dquote
            ++ (if Nat.ltb (String.length text) 21
                then text ++ str1 dquote
                else substring 0 10 text ++ str1 dquote ++ "...")
            ++ " is not valid JSON"
      end
  end.

(** A POSIX host with the environment [env], on which [spawn] does
    [child] and every started child reports [proc], and on which
    [JSON.parse] returns [parsed]. *)
Definition scripted (env : list (string * string)) (child : spawned)
    (proc : option proc_outcome) (parsed : option jsval) : Platform :=
  {| process_env := env_table env;
     process_platform := "linux";
     number_text := fun _ => "1e+21";
     spawn := fun _ => child;
     settle := fun _ _ => proc;
     JSON_parse := fun _ => parsed;
     JSON_stringify := fun _ => "{...}";
     base64_utf8 := decode_table;
     Buffer_from_other := fun _ => None;
     String_trim := fun s => s;
     engine_message := engine_text |}.

(** The same, with a child that is started and reports [proc]. *)
Definition host (env : list (string * string)) (proc : proc_outcome)
    (parsed : option jsval) : Platform :=
  scripted env Started (Some proc) parsed.

Definition remote_env : list (string * string) :=
  [("K8S_SSH_HOST", "10.0.0.5"); ("K8S_SSH_USER", "ops");
   ("K8S_SSH_KEY", "/keys/id")].

Definition local_env : list (string * string) :=
  [("KUBECONFIG", "/etc/kube.conf"); ("K8S_CONTEXT", "prod");
   ("K8S_DEFAULT_NAMESPACE", "apps")].

(** A secret whose data has a key named [__proto__], as [JSON.parse]
    returns it (the key is an own property of the parsed object). *)
Definition proto_secret : jsval :=
  JObj [("metadata", JObj [("name", JStr "db"); ("namespace", JStr "apps")]);
        ("type", JStr "Opaque");
        ("data", JObj [("user", JStr "YWRtaW4=");
                       ("__proto__", JStr "aGk=")])].

(** A node with three conditions: memory pressure off, ready, and a
    later condition of type [Ready] that says the opposite. *)
Definition sample_node : jsval :=
  JObj [("metadata", JObj [("name", JStr "n1");
                           ("labels", JObj [("zone", JStr "a")])]);
        ("status",
         JObj [("conditions",
                JArr [JObj [("type", JStr "MemoryPressure");
                            ("status", JStr "False")];
                      JObj [("type", JStr "Ready"); ("status", JStr "True")];
                      JObj [("type", JStr "Ready");
                            ("status", JStr "False")]]);
               ("capacity", JObj [("cpu", JStr "4")])])].

(** Hosts for the examples: local with a failing client, local with a
    client that fails without a word, remote with a shell that cannot be
    forked, local with a client that succeeds, and local with a client
    that prints [proto_secret]. *)
Definition failing_host : Platform :=
  host local_env (ProcClose "out" "boom" (Some 1%Z)) None.

Definition mute_failing_host : Platform :=
  host local_env (ProcClose "" "" (Some 1%Z)) None.

Definition remote_host : Platform :=
  host remote_env (ProcError "spawn /bin/sh EAGAIN") None.

Definition ok_host : Platform :=
  host local_env (ProcClose "deployment.apps/web scaled" "" (Some 0%Z)) None.

Definition secret_host : Platform :=
  host local_env (ProcClose "{secret}" "" (Some 0%Z)) (Some proto_secret).

(** A label selector that holds double quotes and no space: [app="web"]. *)
Definition quoted_selector : string :=
  "app=" ++ str1 dquote ++ "web" ++ str1 dquote.

(** Further hosts: a client killed by a signal, a client that succeeds
    without output, a client that prints [null], a client that prints
    [sample_node], a remote host with a password only; a local host
    with a client path and a context, and one whose client path and
    configuration file have a space in their names; hosts on which
    [spawn] throws, returns a child without streams, or starts a child
    that never reports; a clock with a table of timestamps; a transport
    that connects. *)
Definition killed_host : Platform :=
  host local_env (ProcClose "NAME  READY" "Terminated" None) None.

Definition empty_host : Platform :=
  host local_env (ProcClose "" "" (Some 0%Z)) None.

Definition null_host : Platform :=
  host local_env (ProcClose "null" "" (Some 0%Z)) (Some JNull).

Definition node_host : Platform :=
  host local_env (ProcClose "{node}" "" (Some 0%Z)) (Some sample_node).

Definition password_host : Platform :=
  host [("K8S_SSH_HOST", "10.0.0.5"); ("K8S_SSH_USER", "ops");
        ("K8S_SSH_PASSWORD", "s3cret")]
       (ProcClose "" "" (Some 0%Z)) None.

Definition custom_host : Platform :=
  host [("KUBECTL_PATH", "/usr/local/bin/kubectl"); ("K8S_CONTEXT", "prod")]
       (ProcClose "" "" (Some 0%Z)) None.

Definition spaced_host : Platform :=
  host [("KUBECTL_PATH", "/opt/k8s tools/kubectl");
        ("KUBECONFIG", "/home/ops/my kube.conf")]
       (ProcClose "" "/bin/sh: 1: /opt/k8s: not found" (Some 127%Z)) None.

Definition throwing_host : Platform :=
  scripted local_env (SpawnThrows "spawn E2BIG") None None.

Definition streamless_host : Platform :=
  scripted local_env NoStreams None None.

Definition hanging_host : Platform :=
  scripted local_env Started None None.

Definition sample_clock : Clock :=
  {| Date_now := 1700000000000;
     Date_parse := fun text =>
       match find (fun kv => fst kv =? text)
                  [("2023-11-13T20:10:16Z", 1699906216000%Z);
                   ("2023-11-14T20:10:16Z", 1699992616000%Z);
                   ("2023-11-14T22:10:16Z", 1699999816000%Z);
                   ("2023-11-16T22:13:20Z", 1700172800000%Z)] with
       | Some kv => Some (snd kv)
       | None => None
       end |}.

Definition working_transport : Transport := {| connect_error := None |}.

(** ** Vocabulary of the properties *)

(** A computation that makes no call. *)
Definition silent {A} (m : M A) : Prop := trace m = [].

(** Events other than a namespace resolution and a settled process. *)
Definition quiet (e : event) : Prop :=
  match e with
  | EvNamespace _ | EvProc _ => False
  | _ => True
  end.

(** A thrown [TypeError] of the engine. *)
Definition type_error (e : exn) : Prop :=
  exists op v, e = Engine (TypeError op v).

(** A branch that calls the executor, or fails with an engine error
    before it could. *)
Definition engaged (m : M string) : Prop :=
  trace m <> [] \/ exists e, type_error e /\ outcome m = Settled (Throw e).

(** The message of the failure a branch reports for a nonzero exit with
    the error text [err]: the two metrics branches replace an empty text
    by a fixed hint. *)
Definition reportedText (label err : string) : string :=
  if (label =? "k8s_top_nodes") || (label =? "k8s_top_pods")
  then str_or err metricsHint
  else err.

(** A branch other than the exec one throws the reported text whenever
    its process exits with a nonzero status. *)
Definition reports_nonzero_exit (label : string) (m : M string) : Prop :=
  label <> "k8s_exec_pod" ->
  forall out err c,
    In (EvProc (ProcClose out err (Some c))) (trace m) ->
    c <> 0%Z ->
    outcome m = Settled (Throw (Error (reportedText label err))).

(** What [escapeArg] makes of a string argument. *)
Definition shellWord (s : string) : string :=
  if String_includes "'" s || String_includes " " s
  then str1 dquote ++ escape_dquotes s ++ str1 dquote
  else s.

(** The text [runKubectl] writes to the child for the option [stdin]:
    an absent or empty text is not written. *)
Definition written (stdin : option string) : option string :=
  match stdin with
  | Some s => if s =? "" then None else Some s
  | None => None
  end.

(** The value of an environment variable, when it is set and not
    empty. *)
Definition configured `{Platform} (k : string) : option string :=
  match process_env k with
  | Some v => if v =? "" then None else Some v
  | None => None
  end.








(** The events that record a call of [getNamespace]. *)
Definition is_resolution (e : event) : bool :=
  match e with
  | EvNamespace _ => true
  | _ => false
  end.


(** The events that record a spawned process, a settled process and a
    call of the executor. *)
Definition is_spawn (e : event) : bool :=
  match e with
  | EvSpawn _ _ => true
  | _ => false
  end.

Definition is_settle (e : event) : bool :=
  match e with
  | EvProc _ => true
  | _ => false
  end.

Definition is_kubectl (e : event) : bool :=
  match e with
  | EvKubectl _ _ => true
  | _ => false
  end.

(** The write to the child's standard input, as a trace. *)
Definition stdin_events (input : option string) : list event :=
  match input with
  | Some text => [EvStdin text]
  | None => []
  end.

(** The tools whose branch returns the client's output as it is. *)
Definition raw_output_tools : list string :=
  ["k8s_get_cluster_info"; "k8s_list_nodes"; "k8s_describe_node";
   "k8s_list_namespaces"; "k8s_list_pods"; "k8s_describe_pod";
   "k8s_list_deployments"; "k8s_describe_deployment"; "k8s_list_services";
   "k8s_describe_service"; "k8s_list_configmaps"; "k8s_list_secrets";
   "k8s_list_statefulsets"; "k8s_list_daemonsets"; "k8s_list_ingresses";
   "k8s_get_events"; "k8s_get_resource_yaml"; "k8s_get_all";
   "k8s_rollout_status"; "k8s_rollout_history"; "k8s_rollout_undo";
   "k8s_top_nodes"; "k8s_top_pods"; "k8s_get_contexts"].

(** The tools whose branch parses the client's output as JSON. *)
Definition json_tools : list string :=
  ["k8s_get_node"; "k8s_get_pod"; "k8s_get_deployment"; "k8s_get_service";
   "k8s_get_configmap"; "k8s_get_secret"; "k8s_get_statefulset";
   "k8s_get_daemonset"; "k8s_get_ingress"].

(** A double quote that no backslash precedes; [guarded] tells whether
    the character before the text is a backslash. *)
Fixpoint bare_dquote (guarded : bool) (s : string) : bool :=
  match s with
  | EmptyString => false
  | String c rest =>
      (Ascii.eqb c dquote && negb guarded)
      || bare_dquote (Ascii.eqb c backslash) rest
  end.

(** Dropping the backslash in front of each double quote. *)
Fixpoint unescape_dquotes (s : string) : string :=
  match s with
  | EmptyString => EmptyString
  | String c rest =>
      match rest with
      | String d rest' =>
          if Ascii.eqb c backslash && Ascii.eqb d dquote
          then String dquote (unescape_dquotes rest')
          else String c (unescape_dquotes rest)
      | EmptyString => String c EmptyString
      end
  end.

(** Number of occurrences of a character. *)
Fixpoint count_char (c : ascii) (s : string) : nat :=
  match s with
  | EmptyString => 0
  | String d rest => (if Ascii.eqb d c then 1 else 0) + count_char c rest
  end.

(** Decidable checks on lists of names. *)
Fixpoint distinct (l : list string) : bool :=
  match l with
  | [] => true
  | x :: rest => negb (existsb (String.eqb x) rest) && distinct rest
  end.

Definition declared (t : Tool) : bool :=
  forallb (fun r => existsb (String.eqb r) (map fst (properties t)))
          (required t).

(** A branch does nothing, or what one run of the executor does. *)
Definition single_run `{Platform} (m : M string) : Prop :=
  trace m = [] \/ exists a o, trace m = trace (runKubectl a o).

(** A promise that has not resolved decides what awaits it: a rejection
    is thrown on, and nothing follows a promise that stays pending. *)
Definition carried {A B} (p : promise A) (q : promise B) : Prop :=
  match p with
  | Settled (Ok _) => True
  | Settled (Throw e) => q = Settled (Throw e)
  | Pending => q = Pending
  end.

(** A branch does nothing, or awaits one run of the executor and makes
    no call after it. *)
Definition awaits_run `{Platform} (m : M string) : Prop :=
  trace m = []
  \/ exists a o, trace m = trace (runKubectl a o)
                 /\ carried (outcome (runKubectl a o)) (outcome m).

(** A branch other than the exec one throws the reported text whenever
    the result of its executor run has a nonzero code. *)
Definition reports_failure `{Platform} (label : string) (m : M string)
  : Prop :=
  label <> "k8s_exec_pod" ->
  forall settled,
    In (EvProc settled) (trace m) ->
    code (resolved settled) <> 0%Z ->
    outcome m
    = Settled (Throw (Error (reportedText label
                               (stderr (resolved settled))))).

(** A raw-output branch returns the collected output when the code of
    the result is 0. *)
Definition returns_output `{Platform} (label : string) (m : M string)
  : Prop :=
  In label raw_output_tools ->
  forall settled,
    In (EvProc settled) (trace m) ->
    code (resolved settled) = 0%Z ->
    outcome m = Settled (Ok (stdout (resolved settled))).

(** A JSON branch fails with a [SyntaxError] when the output of a
    successful run does not parse. *)
Definition rejects_bad_json `{Platform} (label : string) (m : M string)
  : Prop :=
  In label json_tools ->
  forall settled,
    In (EvProc settled) (trace m) ->
    code (resolved settled) = 0%Z ->
    JSON_parse (stdout (resolved settled)) = None ->
    outcome m
    = Settled (Throw (Engine (SyntaxError (stdout (resolved settled))))).


(** The tools that project fields of the parsed output. *)
Definition projecting_tools : list string :=
  ["k8s_get_node"; "k8s_get_pod"; "k8s_get_deployment"; "k8s_get_service";
   "k8s_get_configmap"; "k8s_get_secret"].

(** A projecting branch fails with the error of the first field it reads
    when the parsed output has no [metadata.name] to read. *)
Definition needs_metadata `{Platform} (label : string) (m : M string)
  : Prop :=
  In label projecting_tools ->
  forall settled v e,
    In (EvProc settled) (trace m) ->
    code (resolved settled) = 0%Z ->
    JSON_parse (stdout (resolved settled)) = Some v ->
    getpath v ["metadata"; "name"] = Throw e ->
    outcome m = Settled (Throw e).

(** * Properties *)

Unset Implicit Arguments.

Ltac unfold_branches :=
  unfold case_k8s_get_cluster_info, case_k8s_list_nodes, case_k8s_get_node,
    case_k8s_describe_node, case_k8s_list_namespaces,
    case_k8s_create_namespace, case_k8s_delete_namespace,
    case_k8s_list_pods, case_k8s_get_pod, case_k8s_describe_pod,
    case_k8s_get_pod_logs, case_k8s_delete_pod, case_k8s_exec_pod,
    case_k8s_list_deployments, case_k8s_get_deployment,
    case_k8s_describe_deployment, case_k8s_scale_deployment,
    case_k8s_restart_deployment, case_k8s_update_deployment_image,
    case_k8s_list_services, case_k8s_get_service, case_k8s_describe_service,
    case_k8s_list_configmaps, case_k8s_get_configmap,
    case_k8s_create_configmap, case_k8s_delete_configmap,
    case_k8s_list_secrets, case_k8s_get_secret, case_k8s_create_secret,
    case_k8s_delete_secret, case_k8s_list_statefulsets,
    case_k8s_get_statefulset, case_k8s_scale_statefulset,
    case_k8s_list_daemonsets, case_k8s_get_daemonset,
    case_k8s_list_ingresses, case_k8s_get_ingress, case_k8s_apply_manifest,
    case_k8s_delete_resource, case_k8s_get_events,
    case_k8s_get_resource_yaml, case_k8s_get_all, case_k8s_rollout_status,
    case_k8s_rollout_history, case_k8s_rollout_undo, case_k8s_top_nodes,
    case_k8s_top_pods, case_k8s_get_contexts, case_k8s_current_context,
    run_and_return, run_and_report, run_and_reprint.

Section Facts.

Context `{P : Platform}.

(** ** Computations *)

Lemma bind_ok {A B} (t : list event) (a : A) (f : A -> M B) :
  bind (t, Settled (Ok a)) f = ((t ++ trace (f a))%list, outcome (f a)).
Proof. unfold bind, trace, outcome. destruct (f a); reflexivity. Qed.

Lemma bind_throw {A B} (t : list event) (e : exn) (f : A -> M B) :
  bind (t, Settled (Throw e)) f = (t, Settled (Throw e)).
Proof. reflexivity. Qed.

Lemma bind_pending {A B} (t : list event) (f : A -> M B) :
  bind (t, @Pending A) f = (t, Pending).
Proof. reflexivity. Qed.

Lemma trace_bind {A B} (m : M A) (f : A -> M B) :
  trace (bind m f) =
  match outcome m with
  | Settled (Ok a) => (trace m ++ trace (f a))%list
  | _ => trace m
  end.
Proof.
  destruct m as [t [[a|e]|]]; [rewrite bind_ok | | ]; reflexivity.
Qed.

Lemma outcome_bind {A B} (m : M A) (f : A -> M B) :
  outcome (bind m f) =
  match outcome m with
  | Settled (Ok a) => outcome (f a)
  | Settled (Throw e) => Settled (Throw e)
  | Pending => Pending
  end.
Proof.
  destruct m as [t [[a|e]|]]; [rewrite bind_ok | | ]; reflexivity.
Qed.

Lemma silent_ret {A} (a : A) : silent (ret a).
Proof. reflexivity. Qed.

Lemma silent_throw {A} (e : exn) : silent (@throw A e).
Proof. reflexivity. Qed.

Lemma silent_lift {A} (r : result A) : silent (lift r).
Proof. reflexivity. Qed.

Lemma silent_parse (s : string) : silent (parse s).
Proof. unfold parse. destruct (JSON_parse s); reflexivity. Qed.

Lemma silent_path (v : jsval) (p : list string) : silent (path v p).
Proof. reflexivity. Qed.

Lemma silent_throwIfFailed (r : KubectlResult) (m : string) :
  silent (throwIfFailed r m).
Proof. unfold throwIfFailed. destruct (code r =? 0)%Z; reflexivity. Qed.

Lemma silent_bind {A B} (m : M A) (f : A -> M B) :
  silent m -> (forall a, silent (f a)) -> silent (bind m f).
Proof.
  unfold silent. intros Hm Hf. rewrite trace_bind, Hm.
  destruct (outcome m) as [[a|e]|]; [apply Hf | reflexivity | reflexivity].
Qed.

(** What follows a computation without making a call adds nothing to its
    trace. *)
Lemma trace_bind_silent {A B} (m : M A) (f : A -> M B) :
  (forall a, silent (f a)) -> trace (bind m f) = trace m.
Proof.
  intros Hf. rewrite trace_bind.
  destruct (outcome m) as [[a|e]|]; try reflexivity.
  rewrite (Hf a). apply app_nil_r.
Qed.

Lemma bind_lift_ok {A B} (a : A) (f : A -> M B) :
  bind (lift (Ok a)) f = f a.
Proof. unfold lift, bind. destruct (f a); reflexivity. Qed.

Lemma bind_lift_throw {A B} (e : exn) (f : A -> M B) :
  bind (lift (Throw e)) f = ([], Settled (Throw e)).
Proof. reflexivity. Qed.

Lemma bind_log {B} (e : event) (m : M B) :
  (log e ;;; m) = (e :: trace m, outcome m).
Proof. unfold log. rewrite bind_ok. reflexivity. Qed.

Create HintDb silent.
#[local] Hint Resolve silent_ret silent_throw silent_lift silent_parse
  silent_path silent_throwIfFailed : silent.
#[local] Hint Extern 2 (silent (bind _ _)) =>
  apply silent_bind; [ | intro ] : silent.

(** ** The switch *)

Lemma switch_default (name : string) branches (args : record) (ns : jsval) :
  ~ In name (map fst branches) ->
  switch name branches args ns = case_default name.
Proof.
  induction branches as [|[label branch] rest IH]; simpl; intros Hn.
  - reflexivity.
  - destruct (String.eqb_spec name label) as [->|Hne].
    + exfalso. apply Hn. now left.
    + apply IH. intros Hin. apply Hn. now right.
Qed.

Lemma switch_found (name : string) branches (args : record) (ns : jsval) :
  In name (map fst branches) ->
  exists branch,
    In (name, branch) branches /\
    switch name branches args ns = branch args ns.
Proof.
  induction branches as [|[label branch] rest IH]; simpl; intros Hin.
  - contradiction.
  - destruct (String.eqb_spec name label) as [->|Hne].
    + exists branch. split; [now left | reflexivity].
    + destruct Hin as [Heq|Hin]; [congruence|].
      destruct (IH Hin) as (b & Hb & Hs). exists b. split; [now right | exact Hs].
Qed.

(** A property of every branch and of the default is a property of the
    switch. *)
Lemma switch_elim (Q : string -> M string -> Prop) (name : string)
    branches (args : record) (ns : jsval) :
  Forall (fun lb => Q (fst lb) (snd lb args ns)) branches ->
  Q name (case_default name) ->
  Q name (switch name branches args ns).
Proof.
  intros Hall Hdef.
  induction branches as [|[label branch] rest IH]; simpl.
  - exact Hdef.
  - inversion Hall as [|? ? Hhead Htail]; subst.
    destruct (String.eqb_spec name label) as [->|Hne].
    + exact Hhead.
    + apply IH. exact Htail.
Qed.


(** ** The executor *)

Lemma escapeArg_throws (arg : jsval) (e : exn) :
  escapeArg arg = Throw e -> type_error e.
Proof.
  unfold type_error.
  destruct arg as [| | | |s|l|]; simpl; intros H;
    try (injection H as <-; eauto; fail).
  - destruct (String_includes "'" s || String_includes " " s); discriminate.
  - destruct (Array_includes "'" l || Array_includes " " l);
      [injection H as <-; eauto | discriminate].
Qed.

Lemma mapR_throws {A B} (f : A -> result B) (l : list A)
    (Q : exn -> Prop) (e : exn) :
  (forall x e', f x = Throw e' -> Q e') ->
  mapR f l = Throw e -> Q e.
Proof.
  intros Hf. induction l as [|x rest IH]; simpl; [congruence|].
  destruct (f x) eqn:Hx.
  - destruct (mapR f rest); [congruence|].
    intros H. injection H as <-. now apply IH.
  - intros H. injection H as <-. exact (Hf _ _ Hx).
Qed.

Lemma commandLine_throws (args : list jsval) (e : exn) :
  commandLine args = Throw e -> type_error e.
Proof.
  unfold commandLine, kubectlCmd.
  destruct (set K8S_SSH_HOST); [|congruence].
  destruct (mapR escapeArg args) eqn:Hm.
  - destruct (set K8S_SSH_KEY); [congruence|].
    destruct (set K8S_SSH_PASSWORD); [|congruence].
    destruct (process_platform =? "win32"); congruence.
  - intros H. injection H as <-.
    exact (mapR_throws _ _ type_error _ escapeArg_throws Hm).
Qed.

Lemma writeStdin_cases (options : option jsval) :
  (exists v, options = Some v
             /\ writeStdin options
                = ([], Settled (Throw (Engine (TypeError Write v)))))
  \/ exists input,
       writeStdin options = (stdin_events input, Settled (Ok input)).
Proof.
  destruct options as [v|]; simpl; [|right; exists None; reflexivity].
  destruct (truthy v); [|right; exists None; reflexivity].
  destruct v; try (left; eexists; split; reflexivity).
  right. exists (Some s). reflexivity.
Qed.

(** The runs of the executor: the command line cannot be built and
    [spawn] is not called; [spawn] is called and the promise executor
    throws (in [spawn], on a child without streams, at the write to the
    child's input); the child is started, and the promise resolves when
    it reports and stays pending when it does not. *)
Lemma runKubectl_shapes (a : list jsval) (o : option jsval) :
  (exists e, commandLine a = Throw e
             /\ runKubectl a o = ([EvKubectl a o], Settled (Throw e)))
  \/ exists c sa,
       commandLine a = Ok (c, sa)
       /\ ((exists e, runKubectl a o
                      = ([EvKubectl a o; EvSpawn c sa], Settled (Throw e)))
           \/ exists input,
                spawn (shellCommand c sa) = Started
                /\ writeStdin o = (stdin_events input, Settled (Ok input))
                /\ runKubectl a o
                   = match settle (shellCommand c sa) input with
                     | Some settled =>
                         ((EvKubectl a o :: EvSpawn c sa
                             :: stdin_events input) ++ [EvProc settled],
                          Settled (Ok (resolved settled)))
                     | None =>
                         (EvKubectl a o :: EvSpawn c sa
                            :: stdin_events input, Pending)
                     end)%list.
Proof.
  unfold runKubectl.
  destruct (commandLine a) as [[c sa]|e] eqn:Hc.
  - right. exists c, sa. split; [reflexivity|].
    rewrite bind_log, bind_lift_ok, bind_log.
    destruct (spawn (shellCommand c sa)) eqn:Hs.
    + left. eexists. reflexivity.
    + left. eexists. reflexivity.
    + destruct (writeStdin_cases o) as [(v & _ & Hw)|[input Hw]].
      * left. rewrite Hw. eexists. reflexivity.
      * right. exists input. split; [reflexivity|]. split; [exact Hw|].
        rewrite Hw, bind_ok.
        destruct (settle (shellCommand c sa) input) as [settled|].
        -- rewrite bind_log. reflexivity.
        -- simpl. rewrite app_nil_r. reflexivity.
  - left. exists e. split; reflexivity.
Qed.

Lemma quiet_stdin (input : option string) : Forall quiet (stdin_events input).
Proof. destruct input; repeat constructor. Qed.

(** The shape of every run of the executor: the call is recorded first;
    then either the promise does not resolve and no process has
    reported, or exactly one process reports, last, and the promise
    resolves with what the handlers make of it. *)
Lemma runKubectl_run (args : list jsval) (options : option jsval) :
  exists t,
    Forall quiet t /\
    ((exists r, (forall x, r <> Settled (Ok x))
                /\ runKubectl args options = (EvKubectl args options :: t, r))
     \/ exists settled,
          runKubectl args options
            = ((EvKubectl args options :: t) ++ [EvProc settled],
               Settled (Ok (resolved settled))))%list.
Proof.
  destruct (runKubectl_shapes args options)
    as [(e & _ & Hr)|(c & sa & _ & [(e & Hr)|(input & _ & _ & Hr)])].
  - exists []. split; [constructor|]. left. eexists. split; [|exact Hr].
    discriminate.
  - exists [EvSpawn c sa]. split; [repeat constructor|]. left.
    eexists. split; [|exact Hr]. discriminate.
  - exists (EvSpawn c sa :: stdin_events input). split.
    + constructor; [exact I|apply quiet_stdin].
    + destruct (settle (shellCommand c sa) input) as [settled|].
      * right. exists settled. exact Hr.
      * left. eexists. split; [|exact Hr]. discriminate.
Qed.

Lemma bind_unresolved {A B} (t : list event) (r : promise A) (f : A -> M B) :
  (forall x, r <> Settled (Ok x)) ->
  trace (bind (t, r) f) = t
  /\ forall y, outcome (bind (t, r) f) <> Settled (Ok y).
Proof.
  intros Hr. destruct r as [[x|e]|].
  - now contradiction (Hr x).
  - split; [reflexivity|discriminate].
  - split; [reflexivity|discriminate].
Qed.

Lemma quiet_not_proc (t : list event) (settled : proc_outcome) :
  Forall quiet t -> ~ In (EvProc settled) t.
Proof.
  intros Hq Hin. rewrite Forall_forall in Hq. exact (Hq _ Hin).
Qed.

Lemma trace_run_head (a : list jsval) (o : option jsval)
    {B} (f : KubectlResult -> M B) :
  exists rest, trace (bind (runKubectl a o) f) = EvKubectl a o :: rest.
Proof.
  destruct (runKubectl_run a o) as (t & _ & [(r & Hr & H) | [s H]]);
    rewrite H.
  - rewrite (proj1 (bind_unresolved _ _ f Hr)). eexists. reflexivity.
  - rewrite bind_ok. eexists. reflexivity.
Qed.

(** The one process that has reported decides what follows the run. *)
Lemma run_settled (a : list jsval) (o : option jsval)
    {B} (k : KubectlResult -> M B) (settled : proc_outcome) :
  (forall r, silent (k r)) ->
  In (EvProc settled) (trace (bind (runKubectl a o) k)) ->
  outcome (bind (runKubectl a o) k) = outcome (k (resolved settled)).
Proof.
  intros Hk Hin. rewrite (trace_bind_silent _ _ Hk) in Hin.
  destruct (runKubectl_run a o) as (t & Hq & [(r & Hr & H) | [s H]]);
    rewrite H in *; simpl in Hin.
  - destruct Hin as [Hin|Hin]; [discriminate|].
    now apply quiet_not_proc in Hin.
  - destruct Hin as [Hin|Hin]; [discriminate|].
    apply in_app_or in Hin. destruct Hin as [Hin|[Hin|[]]].
    + now apply quiet_not_proc in Hin.
    + injection Hin as ->. rewrite bind_ok. reflexivity.
Qed.

Lemma handleTool_unfold (name : string) (args : record) :
  handleTool name (Some args)
  = (EvNamespace (getNamespace args.["namespace"])
       :: trace (switch name cases args (getNamespace args.["namespace"])),
     outcome (switch name cases args (getNamespace args.["namespace"]))).
Proof. unfold handleTool. apply bind_log. Qed.

Lemma callTool_switch (name : string) (args : record) :
  callTool name (Some args)
  = (EvNamespace (getNamespace args.["namespace"])
       :: trace (switch name cases args (getNamespace args.["namespace"])),
     match outcome (switch name cases args (getNamespace args.["namespace"]))
     with
     | Settled (Ok text) => Some {| text := text; isError := false |}
     | Settled (Throw e) =>
         Some {| text := "Error: " ++ message_of e; isError := true |}
     | Pending => None
     end).
Proof.
  unfold callTool. rewrite handleTool_unfold.
  destruct (outcome (switch name cases args (getNamespace args.["namespace"])))
    as [[x|e]|]; reflexivity.
Qed.

Lemma callTool_trace (name : string) (args : option record) :
  fst (callTool name args) = trace (handleTool name args).
Proof.
  unfold callTool. destruct (handleTool name args) as [t [[x|e]|]]; reflexivity.
Qed.

Lemma callTool_answer (name : string) (args : option record) :
  snd (callTool name args)
  = match outcome (handleTool name args) with
    | Settled (Ok text) => Some {| text := text; isError := false |}
    | Settled (Throw e) =>
        Some {| text := "Error: " ++ message_of e; isError := true |}
    | Pending => None
    end.
Proof.
  unfold callTool. destruct (handleTool name args) as [t [[x|e]|]]; reflexivity.
Qed.

Lemma callTool_absent (name : string) :
  callTool name None
  = ([], Some {| text := "Error: " ++ engine_message
                                        (TypeError (Read "namespace")
                                           JUndefined);
                 isError := true |}).
Proof. reflexivity. Qed.

(** An event of a call other than the resolution of the namespace is an
    event of the branch the call runs. *)
Lemma switch_settled (name : string) (args : option record) (e : event) :
  In e (fst (callTool name args)) ->
  (forall ns, e <> EvNamespace ns) ->
  exists mapping,
    args = Some mapping
    /\ In e (trace (switch name cases mapping
                      (getNamespace mapping.["namespace"]))).
Proof.
  rewrite callTool_trace. destruct args as [mapping|]; [|intros []].
  rewrite handleTool_unfold. simpl. intros [H|H] Hne.
  - now contradiction (Hne _ (eq_sym H)).
  - exists mapping. split; [reflexivity|exact H].
Qed.

Lemma callTool_outcome (name : string) (args : record) (r : promise string) :
  outcome (switch name cases args (getNamespace args.["namespace"])) = r ->
  snd (callTool name (Some args))
  = match r with
    | Settled (Ok text) => Some {| text := text; isError := false |}
    | Settled (Throw e) =>
        Some {| text := "Error: " ++ message_of e; isError := true |}
    | Pending => None
    end.
Proof. intros <-. rewrite callTool_switch. reflexivity. Qed.

(** ** Unknown tool names *)

(** C4, as the code has it.  A tool name that is none of the [case]
    labels of the dispatcher: a call that carries an argument mapping
    resolves the namespace and yields the fixed failure
    [Unknown tool: <name>], which the request handler answers with a
    flagged error response; a call without an argument mapping fails
    before that, with the [TypeError] of reading [args.namespace], and
    the flagged response carries the engine's message.  Either way the
    executor is not called and [spawn] is not called. *)
Theorem unknown_tool_fails (name : string) (args : option record) :
  ~ In name (map fst cases) ->
  (forall mapping,
     args = Some mapping ->
     handleTool name args
       = ([EvNamespace (getNamespace mapping.["namespace"])],
          Settled (Throw (Error ("Unknown tool: " ++ name))))
     /\ callTool name args
        = ([EvNamespace (getNamespace mapping.["namespace"])],
           Some {| text := "Error: Unknown tool: " ++ name;
                   isError := true |}))
  /\ (args = None ->
      callTool name args
      = ([], Some {| text := "Error: " ++ engine_message
                                            (TypeError (Read "namespace")
                                               JUndefined);
                     isError := true |}))
  /\ (forall a o, ~ In (EvKubectl a o) (trace (handleTool name args)))
  /\ (forall c a, ~ In (EvSpawn c a) (trace (handleTool name args))).
Proof.
  intros Hn.
  assert (H : forall mapping,
             handleTool name (Some mapping)
             = ([EvNamespace (getNamespace mapping.["namespace"])],
                Settled (Throw (Error ("Unknown tool: " ++ name))))).
  { intros mapping.
    rewrite handleTool_unfold, (switch_default _ _ _ _ Hn). reflexivity. }
  split; [|split; [|split]].
  - intros mapping ->. split; [apply H|].
    unfold callTool. rewrite H. reflexivity.
  - intros ->. reflexivity.
  - destruct args as [mapping|]; [rewrite H|]; intros ? ? Hin; simpl in Hin.
    + destruct Hin as [Hin|[]]. discriminate Hin.
    + contradiction.
  - destruct args as [mapping|]; [rewrite H|]; intros ? ? Hin; simpl in Hin.
    + destruct Hin as [Hin|[]]. discriminate Hin.
    + contradiction.
Qed.

(** ** Catalog names *)

Lemma fromLiterals_throws (data : jsval) (e : exn) :
  fromLiterals data = Throw e -> type_error e.
Proof.
  unfold fromLiterals, type_error.
  destruct data; simpl; intros H; try discriminate; injection H as <-; eauto.
Qed.

Lemma splitCommand_throws (command : jsval) (e : exn) :
  splitCommand command = Throw e -> type_error e.
Proof.
  unfold type_error.
  destruct command; simpl; intros H; try discriminate;
    injection H as <-; eauto.
Qed.

Lemma engaged_run (a : list jsval) (o : option jsval)
    (f : KubectlResult -> M string) :
  engaged (bind (runKubectl a o) f).
Proof.
  left. destruct (trace_run_head a o f) as (rest & ->). discriminate.
Qed.

Lemma engaged_lift {A} (r : result A) (f : A -> M string) :
  (forall e, r = Throw e -> type_error e) ->
  (forall a, engaged (f a)) ->
  engaged (bind (lift r) f).
Proof.
  intros Hr Hf. destruct r as [a|e].
  - rewrite bind_lift_ok. apply Hf.
  - right. exists e. split; [now apply Hr|reflexivity].
Qed.

Ltac solve_engaged :=
  simpl fst; simpl snd; unfold_branches; cbv zeta;
  first
    [ apply engaged_run
    | apply engaged_lift;
      [ first [ apply fromLiterals_throws | apply splitCommand_throws ]
      | intro; apply engaged_run ] ].

Lemma branches_engaged (args : record) (ns : jsval) :
  Forall (fun lb => engaged (snd lb args ns)) cases.
Proof.
  unfold cases. repeat (apply Forall_cons; [solve_engaged|]). apply Forall_nil.
Qed.

Lemma catalog_labels : map name tools = map fst cases.
Proof. reflexivity. Qed.

(** C9.  Every name advertised in the catalog is a [case] label of the
    dispatcher; a call under such a name runs the branch of that label,
    and what it does differs from the unknown-tool failure: the branch
    calls the executor, or fails with an engine error on its way to it.
    A call without an argument mapping fails before the [switch], not
    with the unknown-tool failure either. *)
Theorem catalog_tools_dispatched (tool : Tool) (args : record) :
  In tool tools ->
  let ns := getNamespace args.["namespace"] in
  In (name tool) (map fst cases)
  /\ (exists branch,
        In (name tool, branch) cases /\
        handleTool (name tool) (Some args)
          = (log (EvNamespace ns) ;;; branch args ns))
  /\ switch (name tool) cases args ns <> case_default (name tool)
  /\ handleTool (name tool) (Some args)
       <> (log (EvNamespace ns) ;;; case_default (name tool))
  /\ outcome (handleTool (name tool) None)
       <> outcome (case_default (name tool)).
Proof.
  intros Hin ns.
  assert (Hl : In (name tool) (map fst cases)).
  { rewrite <- catalog_labels. now apply in_map. }
  destruct (switch_found _ _ args ns Hl) as (branch & Hb & Hs).
  assert (He : engaged (branch args ns)).
  { pose proof (branches_engaged args ns) as Hall.
    rewrite Forall_forall in Hall. exact (Hall _ Hb). }
  assert (Hd : switch (name tool) cases args ns <> case_default (name tool)).
  { rewrite Hs. intros Heq. destruct He as [He|(e & (op & v & ->) & He)];
      rewrite Heq in He.
    - now apply He.
    - discriminate He. }
  split; [exact Hl|]. split; [|split; [exact Hd|split]].
  - exists branch. split; [exact Hb|].
    unfold handleTool. fold ns. rewrite Hs. reflexivity.
  - unfold handleTool. fold ns. rewrite !bind_log.
    intros Heq. apply Hd.
    destruct (switch (name tool) cases args ns) as [t r].
    destruct (case_default (name tool)) as [t' r'].
    simpl in Heq. injection Heq as Ht Hr. subst. reflexivity.
  - discriminate.
Qed.

(** ** Nonzero exit status *)

(** A checked run: the executor, then
    [if (result.code !== 0) throw new Error(...)], then the rest. *)
Lemma checked_run_settled (a : list jsval) (o : option jsval)
    (msg : KubectlResult -> string) (k : KubectlResult -> M string)
    (settled : proc_outcome) :
  (forall r, silent (k r)) ->
  In (EvProc settled)
     (trace (result <- runKubectl a o ;;
             throwIfFailed result (msg result) ;;; k result)) ->
  outcome (result <- runKubectl a o ;;
           throwIfFailed result (msg result) ;;; k result)
  = if (code (resolved settled) =? 0)%Z
    then outcome (k (resolved settled))
    else Settled (Throw (Error (msg (resolved settled)))).
Proof.
  intros Hk Hin.
  rewrite (run_settled a o _ settled); [| |exact Hin].
  - rewrite outcome_bind. unfold throwIfFailed.
    destruct (code (resolved settled) =? 0)%Z; reflexivity.
  - intro r. apply silent_bind; [apply silent_throwIfFailed|intro; apply Hk].
Qed.

Lemma checked_run_nonzero (a : list jsval) (o : option jsval)
    (msg : KubectlResult -> string) (k : KubectlResult -> M string)
    (out err : string) (c : Z) :
  (forall r, silent (k r)) ->
  In (EvProc (ProcClose out err (Some c)))
     (trace (result <- runKubectl a o ;;
             throwIfFailed result (msg result) ;;; k result)) ->
  c <> 0%Z ->
  outcome (result <- runKubectl a o ;;
           throwIfFailed result (msg result) ;;; k result)
    = Settled (Throw (Error (msg {| stdout := out; stderr := err;
                                    code := c |}))).
Proof.
  intros Hk Hin Hc.
  rewrite (checked_run_settled a o msg k _ Hk Hin). simpl.
  destruct (Z.eqb_spec c 0) as [->|_]; [contradiction|reflexivity].
Qed.

Lemma reports_lift {A} (label : string) (r : result A) (f : A -> M string) :
  (forall a, reports_nonzero_exit label (f a)) ->
  reports_nonzero_exit label (bind (lift r) f).
Proof.
  intros Hf. destruct r as [a|e].
  - rewrite bind_lift_ok. apply Hf.
  - intros _ out err c [].
Qed.

Ltac solve_reports :=
  simpl fst; simpl snd; unfold_branches; cbv zeta;
  try (apply reports_lift; intro);
  intros _ out err c Hin Hc;
  first
    [ refine (eq_trans
                (checked_run_nonzero _ _ (fun r => stderr r) _ out err c
                   _ Hin Hc) _)
    | refine (eq_trans
                (checked_run_nonzero _ _
                   (fun r => str_or (stderr r) metricsHint) _ out err c
                   _ Hin Hc) _) ];
  [ intro; auto 20 with silent | reflexivity ].

Lemma branches_report (args : record) (ns : jsval) :
  Forall (fun lb => reports_nonzero_exit (fst lb) (snd lb args ns)) cases.
Proof.
  unfold cases.
  do 12 (apply Forall_cons; [solve_reports|]).
  apply Forall_cons; [intros Hne; now contradiction Hne|].
  repeat (apply Forall_cons; [solve_reports|]). apply Forall_nil.
Qed.

(** C1, as the code has it.  For every tool other than [k8s_exec_pod]:
    whenever the external process of the call exits with a nonzero status
    and the error text [err], the dispatcher throws an error whose
    message is [err], and the request handler answers with a flagged
    error response whose text is [Error: ] followed by that message; the
    two metrics tools [k8s_top_nodes] and [k8s_top_pods] put the fixed
    hint [Metrics server may not be installed] in the place of an empty
    [err]. *)
Theorem nonzero_exit_reported (name : string) (args : option record)
    (out err : string) (c : Z) :
  name <> "k8s_exec_pod" ->
  In (EvProc (ProcClose out err (Some c))) (fst (callTool name args)) ->
  c <> 0%Z ->
  outcome (handleTool name args)
    = Settled (Throw (Error (reportedText name err)))
  /\ snd (callTool name args)
     = Some {| text := "Error: " ++ reportedText name err; isError := true |}.
Proof.
  intros Hname Hin Hc.
  apply switch_settled in Hin; [|discriminate].
  destruct Hin as (mapping & -> & Hin).
  assert (H : outcome (switch name cases mapping
                         (getNamespace mapping.["namespace"]))
              = Settled (Throw (Error (reportedText name err)))).
  { refine (switch_elim reports_nonzero_exit name cases mapping _
              (branches_report mapping _) _ Hname out err c Hin Hc).
    intros _ ? ? ? []. }
  split.
  - rewrite handleTool_unfold. exact H.
  - rewrite (callTool_outcome _ _ _ H). reflexivity.
Qed.

(** The exec branch returns the collected output whatever the exit
    status. *)
Lemma exec_pod_returns_output (args : record) (ns : jsval)
    (settled : proc_outcome) :
  In (EvProc settled) (trace (case_k8s_exec_pod args ns)) ->
  outcome (case_k8s_exec_pod args ns)
  = Settled (Ok (stdout (resolved settled) ++ stderr (resolved settled))).
Proof.
  unfold case_k8s_exec_pod.
  destruct (splitCommand args.["command"]) as [words|e].
  - rewrite bind_lift_ok. cbv zeta. intros Hin.
    rewrite (run_settled _ _ _ settled); [reflexivity| |exact Hin].
    intro r. apply silent_ret.
  - intros [].
Qed.

(** ** Remote mode *)

Lemma escapeArg_string (s : string) : escapeArg (JStr s) = Ok (JStr (shellWord s)).
Proof.
  unfold escapeArg, shellWord.
  destruct (String_includes "'" s || String_includes " " s); reflexivity.
Qed.

Lemma mapR_escape_strings (l : list string) :
  mapR escapeArg (map JStr l) = Ok (map JStr (map shellWord l)).
Proof.
  induction l as [|s rest IH]; [reflexivity|].
  cbn [map mapR]. rewrite escapeArg_string, IH. reflexivity.
Qed.

Lemma Array_join_strings (sep : string) (l : list string) :
  Array_join sep (map JStr l) = String.concat sep l.
Proof.
  unfold Array_join. rewrite map_map. simpl. now rewrite map_id.
Qed.

Lemma kubectlCmd_strings (l : list string) :
  kubectlCmd (map JStr l)
  = Ok ("sudo kubectl " ++ String.concat " " (map shellWord l)).
Proof.
  unfold kubectlCmd. rewrite mapR_escape_strings, Array_join_strings.
  reflexivity.
Qed.

(** [spawn] is called as soon as the command line is built. *)
Lemma runKubectl_spawns (a : list jsval) (o : option jsval)
    (c : string) (sa : list jsval) :
  commandLine a = Ok (c, sa) ->
  exists rest,
    trace (runKubectl a o) = EvKubectl a o :: EvSpawn c sa :: rest.
Proof.
  intros Hc.
  destruct (runKubectl_shapes a o)
    as [(e & He & _)|(c' & sa' & Hc' & [(e & Hr)|(input & _ & _ & Hr)])].
  - congruence.
  - rewrite Hc in Hc'. injection Hc' as <- <-. rewrite Hr.
    eexists. reflexivity.
  - rewrite Hc in Hc'. injection Hc' as <- <-. rewrite Hr.
    destruct (settle (shellCommand c sa) input); eexists; reflexivity.
Qed.

(** C2, as the code has it.  In remote mode, for every list of string
    arguments, the last argument handed to the remote-shell client is the
    command string [sudo kubectl ] followed by the arguments joined with
    single spaces, where an argument containing a space or a single quote
    is wrapped in double quotes with a backslash put before each double
    quote inside it, and every other argument (one that contains double
    quotes only, too) is joined unchanged. *)
Theorem remote_command_quoting (args : list string) (options : option jsval) :
  set K8S_SSH_HOST = true ->
  (exists command sshArgs,
     commandLine (map JStr args)
       = Ok (command,
             (sshArgs ++ [JStr ("sudo kubectl "
                                  ++ String.concat " " (map shellWord args))])%list)
     /\ In (EvSpawn command
              (sshArgs ++ [JStr ("sudo kubectl "
                                   ++ String.concat " " (map shellWord args))])%list)
           (trace (runKubectl (map JStr args) options)))
  /\ forall arg,
       (String_includes "'" arg = true \/ String_includes " " arg = true ->
        shellWord arg = str1 dquote ++ escape_dquotes arg ++ str1 dquote)
       /\ (String_includes "'" arg = false ->
           String_includes " " arg = false ->
           shellWord arg = arg).
Proof.
  intros Hremote. split.
  - assert (Hc : exists command sshArgs,
               commandLine (map JStr args)
               = Ok (command,
                     (sshArgs ++ [JStr ("sudo kubectl "
                        ++ String.concat " " (map shellWord args))])%list)).
    { unfold commandLine. rewrite Hremote, kubectlCmd_strings.
      destruct (set K8S_SSH_KEY).
      - eexists; eexists (_ :: _ :: _ :: _ :: _ :: _ :: _ :: _ :: [_]);
          reflexivity.
      - destruct (set K8S_SSH_PASSWORD).
        + destruct (process_platform =? "win32").
          * eexists; eexists (_ :: _ :: _ :: [_]); reflexivity.
          * eexists; eexists (_ :: _ :: _ :: _ :: _ :: _ :: _ :: [_]);
              reflexivity.
        + eexists; eexists (_ :: _ :: [_]); reflexivity. }
    destruct Hc as (command & sshArgs & Hc).
    exists command, sshArgs. split; [exact Hc|].
    destruct (runKubectl_spawns _ options _ _ Hc) as (rest & ->).
    right. left. reflexivity.
  - intros arg. unfold shellWord. split.
    + intros [H|H]; rewrite H; [reflexivity | now rewrite orb_true_r].
    + intros H1 H2. rewrite H1, H2. reflexivity.
Qed.

(** ** Local mode *)

Lemma env_or_configured (k d : string) :
  env_or k d = match configured k with Some v => v | None => d end.
Proof.
  unfold env_or, configured.
  destruct (process_env k) as [v|]; [|reflexivity].
  destruct (v =? ""); reflexivity.
Qed.

Lemma set_configured (k : string) :
  set (env_or k "") = match configured k with Some _ => true | None => false end.
Proof.
  unfold env_or, configured, set.
  destruct (process_env k) as [v|]; [|reflexivity].
  destruct (v =? "") eqn:Hv; [reflexivity|]. now rewrite Hv.
Qed.

(** The process that reports in a run of the executor is the child that
    the host starts on the command line of the run. *)
Lemma runKubectl_settles (a : list jsval) (o : option jsval)
    (c : string) (sa : list jsval) (settled : proc_outcome) :
  commandLine a = Ok (c, sa) ->
  In (EvProc settled) (trace (runKubectl a o)) ->
  spawn (shellCommand c sa) = Started
  /\ exists input, settle (shellCommand c sa) input = Some settled.
Proof.
  intros Hc Hin.
  destruct (runKubectl_shapes a o)
    as [(e & He & _)|(c' & sa' & Hc' & [(e & Hr)|(input & Hs & _ & Hr)])].
  - congruence.
  - rewrite Hr in Hin. simpl in Hin.
    destruct Hin as [Hin|[Hin|[]]]; discriminate.
  - rewrite Hc in Hc'. injection Hc' as <- <-. split; [exact Hs|].
    exists input.
    destruct (settle (shellCommand c sa) input) as [s|]; rewrite Hr in Hin;
      simpl in Hin;
      (destruct Hin as [Hin|[Hin|Hin]]; [discriminate|discriminate|]).
    + apply in_app_or in Hin. destruct Hin as [Hin|[Hin|[]]].
      * now apply quiet_not_proc in Hin; [|apply quiet_stdin].
      * now injection Hin as ->.
    + now apply quiet_not_proc in Hin; [|apply quiet_stdin].
Qed.

(** C7, as the code has it.  In local mode (the variable [K8S_SSH_HOST]
    unset or empty) the executor calls [spawn] with the configured client
    path as the command, which is the value of [KUBECTL_PATH] and
    [kubectl] when that variable is unset or empty; the arguments are the
    given ones, preceded by [--kubeconfig=<file>] exactly when
    [KUBECONFIG] is set, and before that by [--context=<name>] exactly
    when [K8S_CONTEXT] is set.  [spawn] runs with the option [shell], so
    the process that reports is the child the host starts on the one
    command line made of the command and the arguments. *)
Theorem local_command_line (args : list jsval) (options : option jsval) :
  configured "K8S_SSH_HOST" = None ->
  let client :=
    match configured "KUBECTL_PATH" with
    | Some path => path
    | None => "kubectl"
    end in
  let configFlag :=
    match configured "KUBECONFIG" with
    | Some file => [JStr ("--kubeconfig=" ++ file)]
    | None => []
    end in
  let contextFlag :=
    match configured "K8S_CONTEXT" with
    | Some context => [JStr ("--context=" ++ context)]
    | None => []
    end in
  let spawnArgs := (contextFlag ++ configFlag ++ args)%list in
  commandLine args = Ok (client, spawnArgs)
  /\ (exists rest,
        trace (runKubectl args options)
        = EvKubectl args options :: EvSpawn client spawnArgs :: rest)
  /\ (forall settled,
        In (EvProc settled) (trace (runKubectl args options)) ->
        spawn (shellCommand client spawnArgs) = Started
        /\ exists input,
             settle (shellCommand client spawnArgs) input = Some settled).
Proof.
  intros Hlocal client configFlag contextFlag spawnArgs.
  assert (Hc : commandLine args = Ok (client, spawnArgs)).
  { unfold commandLine, spawnArgs, contextFlag, configFlag, client.
    unfold K8S_SSH_HOST, KUBECONFIG, K8S_CONTEXT, KUBECTL_PATH.
    rewrite !set_configured, !env_or_configured, Hlocal.
    destruct (configured "KUBECONFIG"), (configured "K8S_CONTEXT");
      reflexivity. }
  split; [exact Hc|]. split.
  - exact (runKubectl_spawns _ _ _ _ Hc).
  - intros settled Hin. exact (runKubectl_settles _ _ _ _ _ Hc Hin).
Qed.

(** ** Spawn failures *)

Lemma commandLine_strings (args : list string) :
  exists command spawnArgs,
    commandLine (map JStr args) = Ok (command, spawnArgs).
Proof.
  unfold commandLine. rewrite kubectlCmd_strings.
  destruct (set K8S_SSH_HOST); [|eauto].
  destruct (set K8S_SSH_KEY); [eauto|].
  destruct (set K8S_SSH_PASSWORD); [|eauto].
  destruct (process_platform =? "win32"); eauto.
Qed.

Lemma writeStdin_string (stdin : option string) :
  writeStdin (option_map JStr stdin)
  = (stdin_events (written stdin), Settled (Ok (written stdin))).
Proof.
  destruct stdin as [s|]; [|reflexivity]. simpl.
  destruct (s =? ""); reflexivity.
Qed.

(** On a started child that reports, the run of the executor resolves. *)
Lemma runKubectl_resolves (a : list jsval) (stdin : option string)
    (c : string) (sa : list jsval) (settled : proc_outcome) :
  commandLine a = Ok (c, sa) ->
  spawn (shellCommand c sa) = Started ->
  settle (shellCommand c sa) (written stdin) = Some settled ->
  runKubectl a (option_map JStr stdin)
  = ((EvKubectl a (option_map JStr stdin) :: EvSpawn c sa
        :: stdin_events (written stdin)) ++ [EvProc settled],
     Settled (Ok (resolved settled)))%list.
Proof.
  intros Hc Hs Hsettle. unfold runKubectl.
  rewrite Hc, bind_log, bind_lift_ok, bind_log, Hs, writeStdin_string, bind_ok.
  rewrite Hsettle, bind_log. reflexivity.
Qed.

(** C8, as the code has it.  Once the [error] event of the child has
    fired with the message [message], the promise of the executor is
    resolved with the failed result: empty output, [message] as error
    text, exit code 1.  The promise resolves whenever the command line
    can be built, [spawn] starts a child with its streams, the input (if
    any) is a string and the child reports; and it resolves only with
    what the two handlers make of a child that has reported. *)
Theorem spawn_failure_captured (args : list jsval) (options : option jsval) :
  (forall message,
     In (EvProc (ProcError message)) (trace (runKubectl args options)) ->
     outcome (runKubectl args options)
     = Settled (Ok {| stdout := ""; stderr := message; code := 1 |}))
  /\ (forall command spawnArgs stdin settled,
        options = option_map JStr stdin ->
        commandLine args = Ok (command, spawnArgs) ->
        spawn (shellCommand command spawnArgs) = Started ->
        settle (shellCommand command spawnArgs) (written stdin)
        = Some settled ->
        outcome (runKubectl args options) = Settled (Ok (resolved settled)))
  /\ (forall r,
        outcome (runKubectl args options) = Settled (Ok r) ->
        exists settled,
          In (EvProc settled) (trace (runKubectl args options))
          /\ r = resolved settled).
Proof.
  split; [|split].
  - intros message Hin.
    destruct (runKubectl_run args options)
      as (t & Hq & [(r & Hr & H) | [s H]]); rewrite H in *; simpl in Hin.
    + destruct Hin as [Hin|Hin]; [discriminate|].
      now apply quiet_not_proc in Hin.
    + destruct Hin as [Hin|Hin]; [discriminate|].
      apply in_app_or in Hin. destruct Hin as [Hin|[Hin|[]]].
      * now apply quiet_not_proc in Hin.
      * injection Hin as ->. reflexivity.
  - intros command spawnArgs stdin settled -> Hc Hs Hsettle.
    rewrite (runKubectl_resolves _ _ _ _ _ Hc Hs Hsettle). reflexivity.
  - intros r Hr.
    destruct (runKubectl_run args options)
      as (t & Hq & [(r' & Hr' & H) | [s H]]); rewrite H in *; simpl in Hr.
    + now contradiction (Hr' r).
    + injection Hr as <-. exists s. split; [|reflexivity].
      simpl. right. apply in_or_app. right. left. reflexivity.
Qed.

(** ** Argument lists of the pod tools *)

(** C6.  For [k8s_list_pods]: with a namespace [x] supplied (a
    non-empty string, such as the ["x"] of the specification) and
    [all_namespaces] not set, the argument list handed to the executor is
    [get pods -o wide -n x] (then the label selector, if any); with
    [all_namespaces] set it is [get pods -o wide --all-namespaces] (then
    the label selector, if any), with no namespace flag. *)
Theorem list_pods_namespace_flags (args : record) :
  let selector :=
    when args.["label_selector"] [JStr "-l"; args.["label_selector"]] in
  (forall x,
     args.["namespace"] = JStr x -> x <> "" ->
     truthy args.["all_namespaces"] = false ->
     exists rest,
       trace (handleTool "k8s_list_pods" (Some args))
       = EvNamespace (JStr x)
           :: EvKubectl (js["get"; "pods"; "-o"; "wide"; "-n"; x]
                           ++ selector)%list None
           :: rest)
  /\ (truthy args.["all_namespaces"] = true ->
      exists rest,
        trace (handleTool "k8s_list_pods" (Some args))
        = EvNamespace (getNamespace args.["namespace"])
            :: EvKubectl (js["get"; "pods"; "-o"; "wide"; "--all-namespaces"]
                            ++ selector)%list None
            :: rest).
Proof.
  intros selector.
  assert (Hs : forall ns, switch "k8s_list_pods" cases args ns
                          = case_k8s_list_pods args ns) by reflexivity.
  split.
  - intros x Hx Hne Hall. rewrite handleTool_unfold, Hs. unfold trace at 1.
    simpl fst.
    assert (Hns : getNamespace args.["namespace"] = JStr x).
    { unfold getNamespace, js_or. rewrite Hx. simpl.
      destruct (String.eqb_spec x ""); [contradiction|reflexivity]. }
    rewrite Hns. unfold case_k8s_list_pods, run_and_return, namespaceScope.
    rewrite Hall. cbv zeta.
    match goal with
    | |- context [bind (runKubectl ?a ?o) ?f] =>
        destruct (trace_run_head a o f) as (rest & ->)
    end.
    exists rest. reflexivity.
  - intros Hall. rewrite handleTool_unfold, Hs. unfold trace at 1.
    simpl fst.
    unfold case_k8s_list_pods, run_and_return, namespaceScope.
    rewrite Hall. cbv zeta.
    match goal with
    | |- context [bind (runKubectl ?a ?o) ?f] =>
        destruct (trace_run_head a o f) as (rest & ->)
    end.
    exists rest. reflexivity.
Qed.

(** ** Splitting the exec command *)

Lemma String_split_nonempty (sep : ascii) (s : string) :
  String_split sep s <> [].
Proof.
  destruct s as [|c rest]; simpl; [discriminate|].
  destruct (Ascii.eqb c sep); [discriminate|].
  destruct (String_split sep rest); discriminate.
Qed.

(** Joining the pieces with the separator gives the text back. *)
Lemma String_split_concat (sep : ascii) (s : string) :
  String.concat (str1 sep) (String_split sep s) = s.
Proof.
  induction s as [|c rest IH]; simpl; [reflexivity|].
  destruct (Ascii.eqb_spec c sep) as [->|Hne].
  - pose proof (String_split_nonempty sep rest) as Hn.
    simpl. destruct (String_split sep rest) as [|w ws]; [contradiction|].
    rewrite IH. reflexivity.
  - destruct (String_split sep rest) as [|w ws] eqn:Hsp.
    + now apply String_split_nonempty in Hsp.
    + simpl in *. destruct ws; simpl in *; rewrite <- IH; reflexivity.
Qed.

(** No piece contains the separator. *)
Lemma String_split_pieces (sep : ascii) (s : string) :
  Forall (fun w => ~ In sep (list_ascii_of_string w)) (String_split sep s).
Proof.
  induction s as [|c rest IH]; simpl.
  - constructor; [intros []|constructor].
  - destruct (Ascii.eqb_spec c sep) as [->|Hne].
    + constructor; [intros []|exact IH].
    + destruct (String_split sep rest) as [|w ws].
      * constructor; [|constructor]. simpl. intros [H|[]]. congruence.
      * inversion IH as [|? ? Hw Hws]; subst. constructor; [|exact Hws].
        simpl. intros [H|H]; [congruence|contradiction].
Qed.


Lemma append_assoc (a b c : string) : (a ++ b) ++ c = a ++ b ++ c.
Proof. induction a as [|x a IH]; simpl; [reflexivity|now rewrite IH]. Qed.

Lemma concat_app (sep : string) (l1 l2 : list string) :
  l1 <> [] -> l2 <> [] ->
  String.concat sep (l1 ++ l2)
  = String.concat sep l1 ++ sep ++ String.concat sep l2.
Proof.
  intros H1 H2. induction l1 as [|x rest IH]; [contradiction|].
  destruct rest as [|y rest].
  - simpl. destruct l2; [contradiction|reflexivity].
  - change (String.concat sep ((x :: y :: rest) ++ l2))
      with (x ++ sep ++ String.concat sep ((y :: rest) ++ l2)).
    rewrite IH by discriminate.
    change (String.concat sep (x :: y :: rest))
      with (x ++ sep ++ String.concat sep (y :: rest)).
    now rewrite !append_assoc.
Qed.

Lemma Array_join_app (sep : string) (l1 l2 : list jsval) :
  l1 <> [] -> l2 <> [] ->
  Array_join sep (l1 ++ l2)
  = Array_join sep l1 ++ sep ++ Array_join sep l2.
Proof.
  intros H1 H2. unfold Array_join. rewrite map_app.
  apply concat_app; destruct l1, l2; simpl; congruence.
Qed.



(** ** The default namespace *)

Lemma quiet_no_resolution (t : list event) :
  Forall quiet t -> filter is_resolution t = [].
Proof.
  induction 1 as [|e t He _ IH]; simpl; [reflexivity|].
  destruct e; simpl in *; try contradiction; exact IH.
Qed.

Lemma runKubectl_unresolving (a : list jsval) (o : option jsval) :
  filter is_resolution (trace (runKubectl a o)) = [].
Proof.
  destruct (runKubectl_run a o) as (t & Hq & [(r & Hr & H) | [s H]]);
    rewrite H; simpl.
  - now apply quiet_no_resolution.
  - rewrite filter_app, (quiet_no_resolution _ Hq). reflexivity.
Qed.





Lemma K8S_DEFAULT_NAMESPACE_set : set K8S_DEFAULT_NAMESPACE = true.
Proof.
  unfold K8S_DEFAULT_NAMESPACE, env_or, set.
  destruct (process_env "K8S_DEFAULT_NAMESPACE") as [v|]; [|reflexivity].
  destruct (v =? "") eqn:Hv; [reflexivity|]. now rewrite Hv.
Qed.













(** ** Decoding a secret *)

Lemma lookup_assign_own_same (k : string) (v : jsval) (o : record) :
  lookup k (assign_own k v o) = v.
Proof.
  induction o as [|[k' v'] rest IH]; simpl.
  - now rewrite String.eqb_refl.
  - destruct (String.eqb_spec k' k) as [->|Hne]; simpl.
    + now rewrite String.eqb_refl.
    + destruct (String.eqb_spec k' k); [contradiction|exact IH].
Qed.

Lemma lookup_assign_own_other (k k' : string) (v : jsval) (o : record) :
  k <> k' -> lookup k' (assign_own k v o) = lookup k' o.
Proof.
  intros Hne. induction o as [|[k0 v0] rest IH]; simpl.
  - destruct (String.eqb_spec k k'); [contradiction|reflexivity].
  - destruct (String.eqb_spec k0 k) as [->|H0]; simpl.
    + destruct (String.eqb_spec k k'); [contradiction|reflexivity].
    + destruct (String.eqb_spec k0 k'); [reflexivity|exact IH].
Qed.

Lemma lookup_assign_other (k k' : string) (v : jsval) (o : record) :
  k <> k' -> lookup k' (assign k v o) = lookup k' o.
Proof.
  intros Hne. unfold assign. destruct (k =? "__proto__"); [reflexivity|].
  now apply lookup_assign_own_other.
Qed.

Lemma lookup_assign_same (k : string) (v : jsval) (o : record) :
  k <> "__proto__" -> lookup k (assign k v o) = v.
Proof.
  intros Hne. unfold assign.
  destruct (String.eqb_spec k "__proto__"); [contradiction|].
  apply lookup_assign_own_same.
Qed.

(** The loop leaves alone the keys it does not visit. *)
Lemma decodeEntries_other (entries acc d : record) (k : string) :
  decodeEntries entries acc = Ok d ->
  ~ In k (map fst entries) ->
  lookup k d = lookup k acc.
Proof.
  revert acc. induction entries as [|[k0 v0] rest IH]; simpl; intros acc Hd Hk.
  - now injection Hd as <-.
  - destruct (decodeBase64 v0) as [text|]; [|discriminate].
    rewrite (IH _ Hd); [|tauto].
    apply lookup_assign_other. tauto.
Qed.

(** The loop never creates the key [__proto__]. *)
Lemma decodeEntries_proto (entries acc d : record) :
  decodeEntries entries acc = Ok d ->
  lookup "__proto__" d = lookup "__proto__" acc.
Proof.
  revert acc. induction entries as [|[k0 v0] rest IH]; simpl; intros acc Hd.
  - now injection Hd as <-.
  - destruct (decodeBase64 v0) as [text|]; [|discriminate].
    rewrite (IH _ Hd). unfold assign.
    destruct (String.eqb_spec k0 "__proto__") as [->|Hne]; [reflexivity|].
    now apply lookup_assign_own_other.
Qed.

(** Every other key of the data is decoded. *)
Lemma decodeEntries_decoded (entries acc d : record) (k v : string) :
  decodeEntries entries acc = Ok d ->
  NoDup (map fst entries) ->
  In (k, JStr v) entries ->
  k <> "__proto__" ->
  lookup k d = JStr (base64_utf8 v).
Proof.
  revert acc.
  induction entries as [|[k0 v0] rest IH]; simpl; intros acc Hd Hnd Hin Hk.
  - contradiction.
  - inversion Hnd as [|? ? Hnot Hrest]; subst.
    destruct Hin as [Heq|Hin].
    + injection Heq as -> ->. simpl in Hd.
      rewrite (decodeEntries_other _ _ _ _ Hd Hnot).
      now apply lookup_assign_same.
    + destruct (decodeBase64 v0) as [text|]; [|discriminate].
      exact (IH _ Hd Hrest Hin Hk).
Qed.

(** X24.  The response of the secret branch carries decoded values
    exactly when the decode flag and the secret's data are both
    truthy. *)
Lemma secretResponse_decodes_iff (args : record) (secret data : jsval)
    (response : record) :
  getp secret "data" = Ok data ->
  secretResponse args secret = Ok (JObj response) ->
  lookup "decodedData" response <> JUndefined
  <-> truthy args.["decode"] && truthy data = true.
Proof.
  unfold secretResponse. intros Hdata.
  destruct (getpath secret ["metadata"; "name"]); [|discriminate].
  destruct (getpath secret ["metadata"; "namespace"]); [|discriminate].
  destruct (getp secret "type"); [|try rewrite Hdata; discriminate].
  rewrite Hdata.
  destruct (truthy args.["decode"] && truthy data).
  - destruct (Object_entries data); [|discriminate].
    destruct (decodeEntries _ _); [|discriminate].
    intros H. injection H as <-. simpl. split; [reflexivity|discriminate].
  - intros H. injection H as <-. simpl. split; [congruence|discriminate].
Qed.

(** X23.  With the flag set, every key of the data other than
    [__proto__] has its base64 decoding in the response; the key
    [__proto__] has no entry. *)
Lemma secretResponse_decoded (args : record) (secret : jsval)
    (data response : record) :
  getp secret "data" = Ok (JObj data) ->
  truthy args.["decode"] = true ->
  NoDup (map fst data) ->
  secretResponse args secret = Ok (JObj response) ->
  exists decoded,
    lookup "decodedData" response = JObj decoded
    /\ (forall k v, In (k, JStr v) data -> k <> "__proto__" ->
                    lookup k decoded = JStr (base64_utf8 v))
    /\ lookup "__proto__" decoded = JUndefined.
Proof.
  unfold secretResponse. intros Hdata Hflag Hnd.
  destruct (getpath secret ["metadata"; "name"]); [|discriminate].
  destruct (getpath secret ["metadata"; "namespace"]); [|discriminate].
  destruct (getp secret "type"); [|try rewrite Hdata; discriminate].
  rewrite Hdata, Hflag. simpl.
  destruct (decodeEntries data []) as [decoded|] eqn:Hd; [|discriminate].
  intros H. injection H as <-. exists decoded. split; [reflexivity|split].
  - intros k v Hin Hk. exact (decodeEntries_decoded _ _ _ _ _ Hd Hnd Hin Hk).
  - exact (decodeEntries_proto _ _ _ Hd).
Qed.

(** C3, at a secret that has a key named [__proto__].  The client prints
    the secret [proto_secret], whose data has the keys [user] and
    [__proto__]; the call asks for decoding.  The response lists both
    keys, but its decoded values hold the key [user] only: the assignment
    [response.decodedData["__proto__"] = ...] reaches the prototype
    accessor and stores nothing. *)
Theorem proto_key_left_undecoded (out : string) :
  JSON_parse out = Some proto_secret ->
  (forall line, spawn line = Started) ->
  (forall line input, settle line input = Some (ProcClose out "" (Some 0%Z))) ->
  let args := [("name", JStr "db"); ("decode", JBool true)] in
  let response :=
    JObj [("name", JStr "db");
          ("namespace", JStr "apps");
          ("type", JStr "Opaque");
          ("keys", JArr [JStr "user"; JStr "__proto__"]);
          ("decodedData",
           JObj [("user", JStr (base64_utf8 "YWRtaW4="))])] in
  secretResponse args proto_secret = Ok response
  /\ snd (callTool "k8s_get_secret" (Some args))
     = Some {| text := JSON_stringify response; isError := false |}.
Proof.
  intros Hparse Hspawn Hsettle args response.
  assert (Hresp : secretResponse args proto_secret = Ok response)
    by reflexivity.
  split; [exact Hresp|].
  rewrite callTool_switch.
  change (switch "k8s_get_secret" cases args (getNamespace args.["namespace"]))
    with (case_k8s_get_secret args (JStr K8S_DEFAULT_NAMESPACE)).
  unfold case_k8s_get_secret.
  destruct (commandLine_strings
              ["get"; "secret"; "db"; "-n"; K8S_DEFAULT_NAMESPACE;
               "-o"; "json"]) as (command & spawnArgs & Hc).
  match goal with
  | |- context [runKubectl ?a ?o] =>
      change (runKubectl a o)
        with (runKubectl
                (map JStr ["get"; "secret"; "db"; "-n";
                           K8S_DEFAULT_NAMESPACE; "-o"; "json"])
                (option_map JStr None))
  end.
  rewrite (runKubectl_resolves _ None _ _ _ Hc (Hspawn _) (Hsettle _ _)).
  rewrite bind_ok. unfold snd, outcome. simpl snd.
  unfold parse. rewrite Hparse. reflexivity.
Qed.


End Facts.

(** * Examples *)

Lemma not_In_existsb (x : string) (l : list string) :
  existsb (String.eqb x) l = false -> ~ In x l.
Proof.
  intros H Hin.
  assert (Ht : existsb (String.eqb x) l = true).
  { apply existsb_exists. exists x. split; [exact Hin|apply String.eqb_refl]. }
  congruence.
Qed.

Lemma neq_eqb (x y : string) : (x =? y) = false -> x <> y.
Proof. intros H. now apply String.eqb_neq. Qed.

(** C1 on a local host whose client exits with status 1 and the error
    text [boom]: [k8s_get_pod] answers [Error: boom], flagged. *)
Lemma nonzero_exit_reported_witness :
  "k8s_get_pod" <> "k8s_exec_pod"
  /\ In (EvProc (ProcClose "out" "boom" (Some 1%Z)))
        (fst (@callTool failing_host "k8s_get_pod"
                (Some [("name", JStr "web")])))
  /\ 1%Z <> 0%Z
  /\ snd (@callTool failing_host "k8s_get_pod" (Some [("name", JStr "web")]))
     = Some {| text := "Error: boom"; isError := true |}.
Proof.
  assert (H1 : "k8s_get_pod" <> "k8s_exec_pod")
    by (apply neq_eqb; reflexivity).
  assert (H2 : In (EvProc (ProcClose "out" "boom" (Some 1%Z)))
                 (fst (@callTool failing_host "k8s_get_pod"
                         (Some [("name", JStr "web")]))))
    by (vm_compute; right; right; right; left; reflexivity).
  assert (H3 : 1%Z <> 0%Z) by lia.
  split; [exact H1|]. split; [exact H2|]. split; [exact H3|].
  exact (proj2 (@nonzero_exit_reported failing_host "k8s_get_pod"
                  (Some [("name", JStr "web")]) "out" "boom" 1%Z H1 H2 H3)).
Defined.

(** C1 as stated fails: on the same host [k8s_exec_pod] answers the
    nonzero exit with the concatenated output, not flagged; on a host
    whose client fails without any error text [k8s_top_nodes] answers
    with the fixed hint; and the text of a flagged answer starts with
    [Error: ]. *)
Lemma nonzero_exit_not_always_stderr :
  In (EvProc (ProcClose "out" "boom" (Some 1%Z)))
     (fst (@callTool failing_host "k8s_exec_pod"
             (Some [("name", JStr "web"); ("command", JStr "ls -la")])))
  /\ snd (@callTool failing_host "k8s_exec_pod"
            (Some [("name", JStr "web"); ("command", JStr "ls -la")]))
     = Some {| text := "outboom"; isError := false |}
  /\ In (EvProc (ProcClose "" "" (Some 1%Z)))
        (fst (@callTool mute_failing_host "k8s_top_nodes" (Some [])))
  /\ snd (@callTool mute_failing_host "k8s_top_nodes" (Some []))
     = Some {| text := "Error: Metrics server may not be installed";
               isError := true |}
  /\ snd (@callTool failing_host "k8s_get_cluster_info" (Some []))
     = Some {| text := "Error: boom"; isError := true |}.
Proof.
  split; [vm_compute; right; right; right; left; reflexivity|].
  split; [reflexivity|].
  split; [vm_compute; right; right; right; left; reflexivity|].
  split; reflexivity.
Qed.

(** C2 on a remote host: the pod name [my pod] is wrapped in double
    quotes inside the command string. *)
Lemma remote_command_quoting_witness :
  set (@K8S_SSH_HOST remote_host) = true
  /\ In (EvSpawn "ssh"
           [JStr "-i"; JStr "/keys/id";
            JStr "-o"; JStr "StrictHostKeyChecking=no";
            JStr "-o"; JStr "UserKnownHostsFile=/dev/null";
            JStr "-o"; JStr "BatchMode=yes";
            JStr "ops@10.0.0.5";
            JStr ("sudo kubectl get pod " ++ str1 dquote ++ "my pod"
                    ++ str1 dquote ++ " -n default")])
        (trace (@runKubectl remote_host
                  (map JStr ["get"; "pod"; "my pod"; "-n"; "default"]) None)).
Proof.
  assert (H : set (@K8S_SSH_HOST remote_host) = true) by reflexivity.
  split; [exact H|].
  destruct (@remote_command_quoting remote_host
              ["get"; "pod"; "my pod"; "-n"; "default"] None H)
    as [(command & sshArgs & Hc & Hin) _].
  vm_compute in Hc. injection Hc as <- Hargs.
  assert (Hs : (sshArgs ++
                [JStr ("sudo kubectl "
                   ++ String.concat " "
                        (map shellWord
                           ["get"; "pod"; "my pod"; "-n"; "default"]))])%list
               = [JStr "-i"; JStr "/keys/id";
                  JStr "-o"; JStr "StrictHostKeyChecking=no";
                  JStr "-o"; JStr "UserKnownHostsFile=/dev/null";
                  JStr "-o"; JStr "BatchMode=yes";
                  JStr "ops@10.0.0.5";
                  JStr ("sudo kubectl get pod " ++ str1 dquote ++ "my pod"
                          ++ str1 dquote ++ " -n default")]).
  { vm_compute. symmetry. exact Hargs. }
  rewrite Hs in Hin. exact Hin.
Defined.

(** C2 as stated fails: the selector [app="web"] contains quotes, and it
    reaches the command string as it is, neither quoted nor escaped. *)
Lemma double_quoted_argument_unescaped :
  String_includes (str1 dquote) quoted_selector = true
  /\ escapeArg (JStr quoted_selector) = Ok (JStr quoted_selector)
  /\ @commandLine remote_host
        [JStr "get"; JStr "pods"; JStr "-l"; JStr quoted_selector]
     = Ok ("ssh",
           [JStr "-i"; JStr "/keys/id";
            JStr "-o"; JStr "StrictHostKeyChecking=no";
            JStr "-o"; JStr "UserKnownHostsFile=/dev/null";
            JStr "-o"; JStr "BatchMode=yes";
            JStr "ops@10.0.0.5";
            JStr ("sudo kubectl get pods -l " ++ quoted_selector)]).
Proof. repeat split; reflexivity. Qed.

(** C3 on a host whose client prints [proto_secret]: the decoded values
    hold [user] (the decoding of [YWRtaW4=] is [admin]) and nothing for
    the key [__proto__], whose value [aGk=] decodes to [hi]. *)
Lemma proto_key_left_undecoded_witness :
  @JSON_parse secret_host "{secret}" = Some proto_secret
  /\ (forall line, @spawn secret_host line = Started)
  /\ (forall line input,
        @settle secret_host line input
        = Some (ProcClose "{secret}" "" (Some 0%Z)))
  /\ @secretResponse secret_host
       [("name", JStr "db"); ("decode", JBool true)] proto_secret
     = Ok (JObj [("name", JStr "db");
                 ("namespace", JStr "apps");
                 ("type", JStr "Opaque");
                 ("keys", JArr [JStr "user"; JStr "__proto__"]);
                 ("decodedData", JObj [("user", JStr "admin")])])
  /\ @base64_utf8 secret_host "aGk=" = "hi".
Proof.
  assert (H1 : @JSON_parse secret_host "{secret}" = Some proto_secret)
    by reflexivity.
  assert (H2 : forall line, @spawn secret_host line = Started)
    by (intros; reflexivity).
  assert (H3 : forall line input,
             @settle secret_host line input
             = Some (ProcClose "{secret}" "" (Some 0%Z)))
    by (intros; reflexivity).
  split; [exact H1|]. split; [exact H2|]. split; [exact H3|].
  split; [|reflexivity].
  exact (proj1 (@proto_key_left_undecoded secret_host "{secret}" H1 H2 H3)).
Defined.

(** C4 on the name [k8s_reboot_node], which is no [case] label, in a
    call that carries arguments. *)
Lemma unknown_tool_fails_witness :
  ~ In "k8s_reboot_node" (map fst (@cases failing_host))
  /\ @callTool failing_host "k8s_reboot_node" (Some [("name", JStr "n1")])
     = ([EvNamespace (JStr "apps")],
        Some {| text := "Error: Unknown tool: k8s_reboot_node";
                isError := true |}).
Proof.
  assert (H : ~ In "k8s_reboot_node" (map fst (@cases failing_host)))
    by (apply not_In_existsb; reflexivity).
  split; [exact H|].
  exact (proj2 (proj1 (@unknown_tool_fails failing_host "k8s_reboot_node"
                         (Some [("name", JStr "n1")]) H)
                  [("name", JStr "n1")] eq_refl)).
Defined.

(** C4 as stated fails: the same name in a call without arguments is
    answered with the message of a [TypeError], not with the fixed
    unknown-tool failure. *)
Lemma unknown_tool_without_arguments :
  ~ In "k8s_reboot_node" (map fst (@cases failing_host))
  /\ @callTool failing_host "k8s_reboot_node" None
     = ([],
        Some {| text := "Error: Cannot read properties of undefined "
                          ++ "(reading 'namespace')";
                isError := true |}).
Proof.
  split; [apply not_In_existsb; reflexivity|reflexivity].
Qed.


Example get_pod_without_namespace :
  trace (@handleTool failing_host "k8s_get_pod" (Some [("name", JStr "web")]))
  = [EvNamespace (JStr "apps");
     EvKubectl js["get"; "pod"; "web"; "-n"; "apps"; "-o"; "json"] None;
     EvSpawn "kubectl"
       js["--context=prod"; "--kubeconfig=/etc/kube.conf";
          "get"; "pod"; "web"; "-n"; "apps"; "-o"; "json"];
     EvProc (ProcClose "out" "boom" (Some 1%Z))].
Proof. reflexivity. Qed.


(** C6 on the namespace [x] with a label selector, and on
    [all_namespaces]. *)
Lemma list_pods_namespace_flags_witness :
  lookup "namespace" [("namespace", JStr "x");
                      ("label_selector", JStr "app=web")] = JStr "x"
  /\ "x" <> ""
  /\ (exists rest,
        trace (@handleTool failing_host "k8s_list_pods"
                 (Some [("namespace", JStr "x");
                        ("label_selector", JStr "app=web")]))
        = EvNamespace (JStr "x")
            :: EvKubectl js["get"; "pods"; "-o"; "wide"; "-n"; "x";
                            "-l"; "app=web"] None
            :: rest)
  /\ (exists rest,
        trace (@handleTool failing_host "k8s_list_pods"
                 (Some [("namespace", JStr "x");
                        ("all_namespaces", JBool true)]))
        = EvNamespace (JStr "x")
            :: EvKubectl js["get"; "pods"; "-o"; "wide"; "--all-namespaces"]
                 None
            :: rest).
Proof.
  assert (H1 : lookup "namespace" [("namespace", JStr "x");
                                   ("label_selector", JStr "app=web")]
               = JStr "x") by reflexivity.
  assert (H2 : "x" <> "") by (apply neq_eqb; reflexivity).
  split; [exact H1|]. split; [exact H2|]. split.
  - exact (proj1 (@list_pods_namespace_flags failing_host
                    [("namespace", JStr "x");
                     ("label_selector", JStr "app=web")])
             "x" H1 H2 eq_refl).
  - exact (proj2 (@list_pods_namespace_flags failing_host
                    [("namespace", JStr "x");
                     ("all_namespaces", JBool true)])
             eq_refl).
Defined.

(** C7 on a local host with a client path and a context, and no
    configuration file. *)
Lemma local_command_line_witness :
  @configured custom_host "K8S_SSH_HOST" = None
  /\ @commandLine custom_host js["get"; "nodes"]
     = Ok ("/usr/local/bin/kubectl", js["--context=prod"; "get"; "nodes"]).
Proof.
  assert (H : @configured custom_host "K8S_SSH_HOST" = None) by reflexivity.
  split; [exact H|].
  exact (proj1 (@local_command_line custom_host js["get"; "nodes"] None H)).
Defined.

(** C7 as stated fails: the client is not run directly.  With a client
    path and a configuration file that hold a space, the shell is handed
    the very line that a spawn of the program [/opt/k8s] with five
    arguments hands it: what is run is not the configured client, and
    the flag is not one argument. *)
Lemma client_path_cut_by_the_shell :
  @commandLine spaced_host js["get"; "nodes"]
  = Ok ("/opt/k8s tools/kubectl",
        js["--kubeconfig=/home/ops/my kube.conf"; "get"; "nodes"])
  /\ @shellCommand spaced_host "/opt/k8s tools/kubectl"
       js["--kubeconfig=/home/ops/my kube.conf"; "get"; "nodes"]
     = "/opt/k8s tools/kubectl --kubeconfig=/home/ops/my kube.conf get nodes"
  /\ @shellCommand spaced_host "/opt/k8s"
       js["tools/kubectl"; "--kubeconfig=/home/ops/my"; "kube.conf";
          "get"; "nodes"]
     = "/opt/k8s tools/kubectl --kubeconfig=/home/ops/my kube.conf get nodes".
Proof. repeat split; reflexivity. Qed.

(** C8 on a remote host where the shell cannot be forked. *)
Lemma spawn_failure_captured_witness :
  In (EvProc (ProcError "spawn /bin/sh EAGAIN"))
     (trace (@runKubectl remote_host (map JStr ["get"; "nodes"]) None))
  /\ outcome (@runKubectl remote_host (map JStr ["get"; "nodes"]) None)
     = Settled (Ok {| stdout := ""; stderr := "spawn /bin/sh EAGAIN";
                      code := 1 |}).
Proof.
  assert (H : In (EvProc (ProcError "spawn /bin/sh EAGAIN"))
                (trace (@runKubectl remote_host
                          (map JStr ["get"; "nodes"]) None)))
    by (vm_compute; right; right; left; reflexivity).
  split; [exact H|].
  exact (proj1 (@spawn_failure_captured remote_host
                  (map JStr ["get"; "nodes"]) None)
           "spawn /bin/sh EAGAIN" H).
Defined.

(** C8 as stated fails: the promise of the executor rejects when
    [spawn] throws and when the child has no streams, and it stays
    pending when the child never reports. *)
Lemma executor_promise_unresolved :
  @runKubectl throwing_host js["get"; "nodes"] None
  = ([EvKubectl js["get"; "nodes"] None;
      EvSpawn "kubectl"
        js["--context=prod"; "--kubeconfig=/etc/kube.conf"; "get"; "nodes"]],
     Settled (Throw (Error "spawn E2BIG")))
  /\ outcome (@runKubectl streamless_host js["get"; "nodes"] None)
     = Settled (Throw (Engine (TypeError (Read "on") JUndefined)))
  /\ outcome (@runKubectl hanging_host js["get"; "nodes"] None) = Pending
  /\ snd (@callTool throwing_host "k8s_list_nodes" (Some []))
     = Some {| text := "Error: spawn E2BIG"; isError := true |}.
Proof. repeat split; reflexivity. Qed.

(** C9 on the catalog entry of [k8s_scale_deployment]. *)
Lemma catalog_tools_dispatched_witness :
  In {| name := "k8s_scale_deployment";
        properties := [("name", TString); ("namespace", TString);
                       ("replicas", TNumber)];
        required := ["name"; "replicas"] |} tools
  /\ In "k8s_scale_deployment" (map fst (@cases failing_host))
  /\ @handleTool failing_host "k8s_scale_deployment"
       (Some [("name", JStr "web"); ("replicas", JNum 3)])
     <> ([EvNamespace (JStr "apps")],
         Settled (Throw (Error "Unknown tool: k8s_scale_deployment"))).
Proof.
  assert (H : In {| name := "k8s_scale_deployment";
                    properties := [("name", TString); ("namespace", TString);
                                   ("replicas", TNumber)];
                    required := ["name"; "replicas"] |} tools)
    by (unfold tools; repeat (first [left; reflexivity | right])).
  split; [exact H|].
  destruct (@catalog_tools_dispatched failing_host _
              [("name", JStr "web"); ("replicas", JNum 3)] H)
    as (H1 & _ & _ & H4 & _).
  split; [exact H1|exact H4].
Defined.



(** ** Further examples *)

Example ToString_values :
  map (@ToString ok_host)
    [JUndefined; JNull; JBool true; JNum (-12); JStr "web";
     JArr [JNum 1; JNull; JStr "a"]; JObj [("k", JNum 1)];
     JNum 9007199254740992; JNum (10 ^ 21)]
  = ["undefined"; "null"; "true"; "-12"; "web"; "1,,a"; "[object Object]";
     "9007199254740992"; "1e+21"].
Proof. reflexivity. Qed.

Example String_split_adjacent_spaces :
  String_split space "ls  -la " = ["ls"; ""; "-la"; ""].
Proof. reflexivity. Qed.

Example String_split_empty : String_split space "" = [""].
Proof. reflexivity. Qed.

Example shellWord_single_quote :
  shellWord "it's" = str1 dquote ++ "it's" ++ str1 dquote.
Proof. reflexivity. Qed.

Example shellWord_escapes_inner_quotes :
  shellWord ("say " ++ quoted_selector)
  = str1 dquote ++ "say app=" ++ str1 backslash ++ str1 dquote ++ "web"
      ++ str1 backslash ++ str1 dquote ++ str1 dquote.
Proof. reflexivity. Qed.

(** The scenario of the specification: scaling [web] to 3 replicas with
    the namespace omitted. *)
Example scale_deployment_scenario :
  @callTool ok_host "k8s_scale_deployment"
    (Some [("name", JStr "web"); ("replicas", JNum 3)])
  = ([EvNamespace (JStr "apps");
      EvKubectl js["scale"; "deployment"; "web"; "-n"; "apps";
                   "--replicas=3"] None;
      EvSpawn "kubectl"
        js["--context=prod"; "--kubeconfig=/etc/kube.conf";
           "scale"; "deployment"; "web"; "-n"; "apps"; "--replicas=3"];
      EvProc (ProcClose "deployment.apps/web scaled" "" (Some 0%Z))],
     Some {| text := "Deployment 'web' scaled to 3 replicas";
             isError := false |}).
Proof. reflexivity. Qed.

(** A call that leaves out the pod name hands [undefined] to the
    executor; in remote mode the escaping of the arguments then throws
    and the call fails before [spawn] is called. *)
Example missing_name_in_remote_mode :
  @callTool remote_host "k8s_get_pod" (Some [])
  = ([EvNamespace (JStr "default");
      EvKubectl js["get"; "pod"; JUndefined; "-n"; "default"; "-o"; "json"]
        None],
     Some {| text := "Error: Cannot read properties of undefined "
                       ++ "(reading 'includes')";
             isError := true |}).
Proof. reflexivity. Qed.

(** In local mode the same call goes through: the missing name prints
    as the empty string on the command line. *)
Example missing_name_in_local_mode :
  @shellCommand ok_host "kubectl"
    js["get"; "pod"; JUndefined; "-n"; "apps"; "-o"; "json"]
  = "kubectl get pod  -n apps -o json".
Proof. reflexivity. Qed.

(** A call whose process never reports is never answered. *)
Example hanging_call :
  @callTool hanging_host "k8s_list_nodes" (Some [])
  = ([EvNamespace (JStr "apps");
      EvKubectl js["get"; "nodes"; "-o"; "wide"] None;
      EvSpawn "kubectl"
        js["--context=prod"; "--kubeconfig=/etc/kube.conf";
           "get"; "nodes"; "-o"; "wide"]],
     None).
Proof. reflexivity. Qed.

(** * Further properties *)

Create HintDb steps.

Section MoreFacts.

Context `{P : Platform}.

#[local] Hint Resolve silent_ret silent_throw silent_lift silent_parse
  silent_path silent_throwIfFailed : steps.
#[local] Hint Extern 2 (silent (bind _ _)) =>
  apply silent_bind; [ | intro ] : steps.

(** ** The runs of the executor *)

Lemma single_run_bind (a : list jsval) (o : option jsval)
    (k : KubectlResult -> M string) :
  (forall r, silent (k r)) -> single_run (bind (runKubectl a o) k).
Proof.
  intros Hk. right. exists a, o. apply trace_bind_silent. exact Hk.
Qed.

Lemma single_run_lift {A} (r : result A) (f : A -> M string) :
  (forall x, single_run (f x)) -> single_run (bind (lift r) f).
Proof.
  intros Hf. destruct r as [x|e]; [rewrite bind_lift_ok; apply Hf|].
  left. reflexivity.
Qed.

Ltac solve_single_run :=
  simpl fst; simpl snd; unfold_branches; cbv zeta;
  try (apply single_run_lift; intro);
  apply single_run_bind; intro; auto 20 with steps.

Lemma branches_single_run (args : record) (ns : jsval) :
  Forall (fun lb => single_run (snd lb args ns)) cases.
Proof.
  unfold cases. repeat (apply Forall_cons; [solve_single_run|]).
  apply Forall_nil.
Qed.

Lemma handleTool_single_run (name : string) (args : record) :
  trace (handleTool name (Some args))
  = [EvNamespace (getNamespace args.["namespace"])]
  \/ exists a o,
       trace (handleTool name (Some args))
       = EvNamespace (getNamespace args.["namespace"])
           :: trace (runKubectl a o).
Proof.
  assert (H : single_run (switch name cases args
                            (getNamespace args.["namespace"]))).
  { apply (switch_elim (fun _ m => single_run m)).
    - apply branches_single_run.
    - left. reflexivity. }
  rewrite handleTool_unfold.
  destruct H as [H|(a & o & H)]; [left|right; exists a, o];
    unfold trace at 1; cbn [fst]; rewrite H; reflexivity.
Qed.

(** The events of a run of the executor, counted. *)
Lemma runKubectl_counts (a : list jsval) (o : option jsval) :
  let t := trace (runKubectl a o) in
  length (filter is_kubectl t) = 1
  /\ length (filter is_spawn t) <= 1
  /\ length (filter is_settle t) <= length (filter is_spawn t).
Proof.
  destruct (runKubectl_shapes a o)
    as [(e & _ & Hr)|(c & sa & _ & [(e & Hr)|(input & _ & _ & Hr)])];
    rewrite Hr.
  - simpl. lia.
  - simpl. lia.
  - destruct (settle (shellCommand c sa) input), input; simpl; lia.
Qed.

(** ** What a call does at most *)

(** X1.  Whatever the tool name and the arguments, a call of the
    dispatcher calls the executor at most once, calls [spawn] at most
    once and sees at most one process report; nothing reports that was
    not spawned.  There is no retry. *)
Theorem one_process_per_call (name : string) (args : option record) :
  let t := trace (handleTool name args) in
  length (filter is_kubectl t) <= 1
  /\ length (filter is_spawn t) <= 1
  /\ length (filter is_settle t) <= length (filter is_spawn t).
Proof.
  intros t. subst t. destruct args as [args|]; [|simpl; lia].
  destruct (handleTool_single_run name args) as [H|(a & o & H)]; rewrite H.
  - simpl. lia.
  - pose proof (runKubectl_counts a o) as Hn. simpl in *. lia.
Qed.

Lemma getNamespace_truthy (v : jsval) : truthy (getNamespace v) = true.
Proof.
  unfold getNamespace, js_or. destruct (truthy v) eqn:Hv; [exact Hv|].
  simpl. exact K8S_DEFAULT_NAMESPACE_set.
Qed.

Lemma runKubectl_no_resolution (a : list jsval) (o : option jsval)
    (ns : jsval) :
  ~ In (EvNamespace ns) (trace (runKubectl a o)).
Proof.
  intros Hin.
  assert (H : In (EvNamespace ns)
                (filter is_resolution (trace (runKubectl a o)))).
  { apply filter_In. split; [exact Hin|reflexivity]. }
  rewrite runKubectl_unresolving in H. exact H.
Qed.

(** X2.  The namespace a call resolves is never [undefined], [null] or the
    empty string: a supplied value that is falsy gives way to the
    configured default, and the default itself is never empty (an empty
    environment variable counts as unset). *)
Theorem resolved_namespace_never_empty (name : string) (args : record)
    (ns : jsval) :
  In (EvNamespace ns) (trace (handleTool name (Some args))) ->
  truthy ns = true
  /\ ns = getNamespace args.["namespace"]
  /\ (truthy args.["namespace"] = false -> ns = JStr K8S_DEFAULT_NAMESPACE)
  /\ K8S_DEFAULT_NAMESPACE <> "".
Proof.
  intros Hin.
  assert (Hns : ns = getNamespace args.["namespace"]).
  { destruct (handleTool_single_run name args) as [H|(a & o & H)];
      rewrite H in Hin; simpl in Hin.
    - destruct Hin as [Hin|[]]. now injection Hin.
    - destruct Hin as [Hin|Hin]; [now injection Hin|].
      now apply runKubectl_no_resolution in Hin. }
  split; [rewrite Hns; apply getNamespace_truthy|].
  split; [exact Hns|]. split.
  - intros Hf. rewrite Hns. unfold getNamespace, js_or. now rewrite Hf.
  - pose proof K8S_DEFAULT_NAMESPACE_set as Hset. unfold set in Hset.
    intros Heq. rewrite Heq in Hset. discriminate.
Qed.

Lemma env_or_nonempty (k d : string) : d <> "" -> env_or k d <> "".
Proof.
  intros Hd. unfold env_or. destruct (process_env k) as [v|]; [|exact Hd].
  destruct (String.eqb_spec v ""); [exact Hd|assumption].
Qed.

Lemma commandLine_command (a : list jsval) (c : string) (sa : list jsval) :
  commandLine a = Ok (c, sa) ->
  c <> ""
  /\ (set K8S_SSH_HOST = false -> c = KUBECTL_PATH)
  /\ (set K8S_SSH_HOST = true -> c = "ssh" \/ c = "plink" \/ c = "sshpass").
Proof.
  unfold commandLine. destruct (set K8S_SSH_HOST).
  - destruct (kubectlCmd a); [|discriminate].
    destruct (set K8S_SSH_KEY);
      [|destruct (set K8S_SSH_PASSWORD);
        [destruct (process_platform =? "win32")|]];
      intros H; injection H as <- _;
      (split; [discriminate|split; [discriminate|intros _; auto]]).
  - intros H. injection H as <- _.
    split; [apply env_or_nonempty; discriminate|].
    split; [reflexivity|discriminate].
Qed.

(** The one call of [spawn] in a run of the executor is the call of the
    command line the run has built. *)
Lemma runKubectl_spawned (a : list jsval) (o : option jsval)
    (c : string) (sa : list jsval) :
  In (EvSpawn c sa) (trace (runKubectl a o)) -> commandLine a = Ok (c, sa).
Proof.
  intros Hin.
  destruct (runKubectl_shapes a o)
    as [(e & _ & Hr)|(c' & sa' & Hc & [(e & Hr)|(input & _ & _ & Hr)])];
    rewrite Hr in Hin.
  - simpl in Hin. destruct Hin as [Hin|[]]. discriminate.
  - simpl in Hin. destruct Hin as [Hin|[Hin|[]]]; [discriminate|].
    now injection Hin as <- <-.
  - assert (Hin' : In (EvSpawn c sa)
                      ((EvKubectl a o :: EvSpawn c' sa'
                          :: stdin_events input)%list)
                   \/ exists s, EvSpawn c sa = EvProc s).
    { destruct (settle (shellCommand c' sa') input) as [s|].
      - simpl in Hin. destruct Hin as [Hin|[Hin|Hin]];
          [left; left; exact Hin|left; right; left; exact Hin|].
        apply in_app_or in Hin. destruct Hin as [Hin|[Hin|[]]].
        + left. right. right. exact Hin.
        + right. exists s. now symmetry.
      - left. exact Hin. }
    destruct Hin' as [[Hin'|[Hin'|Hin']]|(s & Hs)]; try discriminate.
    + now injection Hin' as <- <-.
    + destruct input; simpl in Hin'; [|contradiction].
      destruct Hin' as [Hin'|[]]. discriminate.
Qed.

(** X3.  The command a call hands to [spawn] is never the empty string:
    in local mode it is the configured client path (which falls back to
    [kubectl] when unset or empty), in remote mode one of [ssh], [plink]
    and [sshpass]. *)
Theorem spawned_command_known (name : string) (args : option record)
    (c : string) (sa : list jsval) :
  In (EvSpawn c sa) (trace (handleTool name args)) ->
  c <> ""
  /\ (set K8S_SSH_HOST = false -> c = KUBECTL_PATH)
  /\ (set K8S_SSH_HOST = true -> c = "ssh" \/ c = "plink" \/ c = "sshpass").
Proof.
  intros Hin. destruct args as [args|]; [|destruct Hin].
  destruct (handleTool_single_run name args) as [H|(a & o & H)];
    rewrite H in Hin; simpl in Hin.
  - destruct Hin as [Hin|[]]. discriminate.
  - destruct Hin as [Hin|Hin]; [discriminate|].
    exact (commandLine_command _ _ _ (runKubectl_spawned _ _ _ _ Hin)).
Qed.

(** ** A run that does not resolve *)

Lemma awaits_run_bind (a : list jsval) (o : option jsval)
    (k : KubectlResult -> M string) :
  (forall r, silent (k r)) -> awaits_run (bind (runKubectl a o) k).
Proof.
  intros Hk. right. exists a, o. split; [apply trace_bind_silent; exact Hk|].
  rewrite outcome_bind.
  destruct (outcome (runKubectl a o)) as [[r|e]|]; simpl; trivial.
Qed.

Lemma awaits_run_lift {A} (r : result A) (f : A -> M string) :
  (forall x, awaits_run (f x)) -> awaits_run (bind (lift r) f).
Proof.
  intros Hf. destruct r as [x|e]; [rewrite bind_lift_ok; apply Hf|].
  left. reflexivity.
Qed.

Ltac solve_awaits_run :=
  simpl fst; simpl snd; unfold_branches; cbv zeta;
  try (apply awaits_run_lift; intro);
  apply awaits_run_bind; intro; auto 20 with steps.

Lemma branches_await_run (args : record) (ns : jsval) :
  Forall (fun lb => awaits_run (snd lb args ns)) cases.
Proof.
  unfold cases. repeat (apply Forall_cons; [solve_awaits_run|]).
  apply Forall_nil.
Qed.

(** A call that spawns runs the executor once, and ends as that run
    does when the run does not resolve. *)
Lemma spawning_call (name : string) (args : option record) (c : string)
    (sa : list jsval) :
  In (EvSpawn c sa) (fst (callTool name args)) ->
  exists mapping a o,
    args = Some mapping
    /\ fst (callTool name args)
       = EvNamespace (getNamespace mapping.["namespace"])
           :: trace (runKubectl a o)
    /\ commandLine a = Ok (c, sa)
    /\ carried (outcome (runKubectl a o)) (outcome (handleTool name args)).
Proof.
  rewrite callTool_trace. destruct args as [args|]; [|intros []].
  assert (H : awaits_run (switch name cases args
                            (getNamespace args.["namespace"]))).
  { apply (switch_elim (fun _ m => awaits_run m)).
    - apply branches_await_run.
    - left. reflexivity. }
  rewrite handleTool_unfold. unfold trace at 1 3, outcome at 2. cbn [fst snd].
  destruct H as [H|(a & o & H & Hout)]; rewrite H.
  - intros [Hin|[]]. discriminate.
  - intros [Hin|Hin]; [discriminate|]. exists args, a, o.
    split; [reflexivity|]. split; [reflexivity|].
    split; [exact (runKubectl_spawned _ _ _ _ Hin)|exact Hout].
Qed.

(** X25.  Whatever the tool: when [spawn] throws on the command line of
    a call (an argument that holds a NUL byte, a line that is too long),
    the call is answered with a flagged error response whose text is
    [Error: ] followed by the message of the thrown error, and no process
    reports. *)
Theorem spawn_throw_reported (name : string) (args : option record)
    (c : string) (sa : list jsval) (message : string) :
  In (EvSpawn c sa) (fst (callTool name args)) ->
  spawn (shellCommand c sa) = SpawnThrows message ->
  snd (callTool name args)
  = Some {| text := "Error: " ++ message; isError := true |}
  /\ forall settled, ~ In (EvProc settled) (fst (callTool name args)).
Proof.
  intros Hin Hthrow.
  destruct (spawning_call _ _ _ _ Hin)
    as (mapping & a & o & _ & Htrace & Hc & Hout).
  assert (Hrun : runKubectl a o
                 = ([EvKubectl a o; EvSpawn c sa],
                    Settled (Throw (Error message)))).
  { unfold runKubectl.
    rewrite Hc, bind_log, bind_lift_ok, bind_log, Hthrow. reflexivity. }
  rewrite Hrun in Hout, Htrace. simpl in Hout. split.
  - rewrite callTool_answer, Hout. reflexivity.
  - intros settled Hs. rewrite Htrace in Hs.
    destruct Hs as [Hs|[Hs|[Hs|[]]]]; discriminate.
Qed.

(** X26.  There is no timeout: when the child of a call is started and
    never reports, whatever is written to it, the call is never
    answered; the one exception is an input text that is no string,
    whose write throws, so that the call is answered with the message of
    that [TypeError] while the child runs on. *)
Theorem hung_process_unanswered (name : string) (args : option record)
    (c : string) (sa : list jsval) :
  In (EvSpawn c sa) (fst (callTool name args)) ->
  spawn (shellCommand c sa) = Started ->
  (forall input, settle (shellCommand c sa) input = None) ->
  (forall settled, ~ In (EvProc settled) (fst (callTool name args)))
  /\ (snd (callTool name args) = None
      \/ exists a v,
           In (EvKubectl a (Some v)) (fst (callTool name args))
           /\ (forall text, v <> JStr text)
           /\ snd (callTool name args)
              = Some {| text := "Error: " ++ engine_message
                                             (TypeError Write v);
                        isError := true |}).
Proof.
  intros Hin Hstart Hhang.
  destruct (spawning_call _ _ _ _ Hin)
    as (mapping & a & o & _ & Htrace & Hc & Hout).
  rewrite Htrace, callTool_answer. revert Hout. unfold runKubectl.
  rewrite Hc, bind_log, bind_lift_ok, bind_log, Hstart.
  destruct (writeStdin_cases o) as [(v & -> & Hw)|[input Hw]]; rewrite Hw.
  - simpl. intros ->. split.
    + intros settled [Hs|[Hs|[Hs|[]]]]; discriminate.
    + right. exists a, v. split; [right; left; reflexivity|].
      split; [|reflexivity].
      intros text ->. simpl in Hw.
      destruct (negb (text =? "")); discriminate.
  - rewrite bind_ok, Hhang. cbn [pending fst snd outcome trace].
    rewrite app_nil_r. intros ->. split; [|left; reflexivity].
    intros settled [Hs|[Hs|[Hs|Hs]]]; try discriminate.
    destruct input; simpl in Hs; [destruct Hs as [Hs|[]]; discriminate|].
    exact Hs.
Qed.

End MoreFacts.

(** ** Results of the executor, as the dispatcher reads them *)

Section Results.

Context `{P : Platform}.

#[local] Hint Resolve silent_ret silent_throw silent_lift silent_parse
  silent_path silent_throwIfFailed : steps.
#[local] Hint Extern 2 (silent (bind _ _)) =>
  apply silent_bind; [ | intro ] : steps.

Lemma lifted_no_settle {A} (r : result A) (f : A -> M string)
    (Q : M string -> Prop) :
  (forall x, Q (f x)) ->
  (forall e, Q ([], Settled (Throw e))) ->
  Q (bind (lift r) f).
Proof.
  intros Hf He. destruct r as [x|e]; [rewrite bind_lift_ok; apply Hf|apply He].
Qed.

Ltac settle_with msgf :=
  match goal with
  | Hin : In (EvProc ?s) (trace _) |- _ =>
      refine (eq_trans (checked_run_settled _ _ msgf _ s _ Hin) _);
      [ intro; auto 20 with steps | ]
  end.

Ltac solve_reports_failure :=
  simpl fst; simpl snd; unfold_branches; cbv zeta;
  try (apply (lifted_no_settle _ _ (reports_failure _));
       [intro | intros ? _ ? []]);
  intros _ settled Hin Hc;
  first [ settle_with (fun r : KubectlResult => stderr r)
        | settle_with (fun r : KubectlResult => str_or (stderr r) metricsHint) ];
  destruct (Z.eqb_spec (code (resolved settled)) 0); [contradiction|];
  reflexivity.

Lemma branches_report_failure (args : record) (ns : jsval) :
  Forall (fun lb => reports_failure (fst lb) (snd lb args ns)) cases.
Proof.
  unfold cases.
  do 12 (apply Forall_cons; [solve_reports_failure|]).
  apply Forall_cons; [intros Hne; now contradiction Hne|].
  repeat (apply Forall_cons; [solve_reports_failure|]). apply Forall_nil.
Qed.

(** X6.  For every tool other than [k8s_exec_pod]: when the child
    reports an [error] event (a failure of the spawn that shows after
    [spawn] has returned), the call is answered with a flagged error
    response whose text is [Error: ] followed by the message of the
    event (for the two metrics tools the fixed hint stands in for an
    empty message). *)
Theorem spawn_failure_reported (name : string) (args : option record)
    (message : string) :
  name <> "k8s_exec_pod" ->
  In (EvProc (ProcError message)) (fst (callTool name args)) ->
  snd (callTool name args)
  = Some {| text := "Error: " ++ reportedText name message;
            isError := true |}.
Proof.
  intros Hname Hin.
  apply switch_settled in Hin; [|discriminate].
  destruct Hin as (mapping & -> & Hin).
  rewrite (callTool_outcome name mapping
             (Settled (Throw (Error (reportedText name message)))));
    [reflexivity|].
  refine (switch_elim reports_failure name cases mapping _
            (branches_report_failure mapping _) _ Hname
            (ProcError message) Hin _).
  - intros _ ? [].
  - simpl. discriminate.
Qed.

Ltac not_listed :=
  let Hin := fresh in
  intros Hin; exfalso; revert Hin; apply not_In_existsb; reflexivity.

Ltac solve_returns_output :=
  simpl fst; simpl snd;
  first
    [ not_listed
    | unfold_branches; cbv zeta;
      intros _ settled Hin Hc;
      first [ settle_with (fun r : KubectlResult => stderr r)
            | settle_with
                (fun r : KubectlResult => str_or (stderr r) metricsHint) ];
      rewrite Hc; reflexivity ].

Lemma branches_return_output (args : record) (ns : jsval) :
  Forall (fun lb => returns_output (fst lb) (snd lb args ns)) cases.
Proof.
  unfold cases. repeat (apply Forall_cons; [solve_returns_output|]).
  apply Forall_nil.
Qed.

(** X7.  For the tools that return the client's output as it is (the
    list, describe, events, yaml, rollout, metrics and context tools):
    when the process exits with status 0, or is killed by a signal and
    has no exit status, the response is the collected standard output,
    not flagged; what the process wrote to standard error is dropped. *)
Theorem raw_output_on_success (name : string) (args : option record)
    (out err : string) (c : option Z) :
  In name raw_output_tools ->
  In (EvProc (ProcClose out err c)) (fst (callTool name args)) ->
  c = None \/ c = Some 0%Z ->
  snd (callTool name args) = Some {| text := out; isError := false |}.
Proof.
  intros Hname Hin Hc.
  apply switch_settled in Hin; [|discriminate].
  destruct Hin as (mapping & -> & Hin).
  rewrite (callTool_outcome name mapping (Settled (Ok out))); [reflexivity|].
  refine (switch_elim returns_output name cases mapping _
            (branches_return_output mapping _) _ Hname
            (ProcClose out err c) Hin _).
  - intros _ ? [].
  - destruct Hc as [->| ->]; reflexivity.
Qed.

Ltac solve_rejects_bad_json :=
  simpl fst; simpl snd;
  first
    [ not_listed
    | unfold_branches; cbv zeta;
      intros _ settled Hin Hc Hparse;
      settle_with (fun r : KubectlResult => stderr r);
      rewrite Hc; simpl; rewrite outcome_bind;
      unfold parse; rewrite Hparse; reflexivity ].

Lemma branches_reject_bad_json (args : record) (ns : jsval) :
  Forall (fun lb => rejects_bad_json (fst lb) (snd lb args ns)) cases.
Proof.
  unfold cases. repeat (apply Forall_cons; [solve_rejects_bad_json|]).
  apply Forall_nil.
Qed.

(** X8.  For the nine tools that parse the client's output as JSON: when
    the process succeeds but its output is not JSON, the call is answered
    with a flagged error response: [Error: ] followed by the message the
    engine gives the [SyntaxError] of that output. *)
Theorem unparsable_output_reported (name : string) (args : option record)
    (out err : string) (c : option Z) :
  In name json_tools ->
  In (EvProc (ProcClose out err c)) (fst (callTool name args)) ->
  c = None \/ c = Some 0%Z ->
  JSON_parse out = None ->
  snd (callTool name args)
  = Some {| text := "Error: " ++ engine_message (SyntaxError out);
            isError := true |}.
Proof.
  intros Hname Hin Hc Hparse.
  apply switch_settled in Hin; [|discriminate].
  destruct Hin as (mapping & -> & Hin).
  rewrite (callTool_outcome name mapping
             (Settled (Throw (Engine (SyntaxError out)))));
    [reflexivity|].
  refine (switch_elim rejects_bad_json name cases mapping _
            (branches_reject_bad_json mapping _) _ Hname
            (ProcClose out err c) Hin _ Hparse).
  - intros _ ? [].
  - destruct Hc as [->| ->]; reflexivity.
Qed.

End Results.

(** ** The input text, the exec tool, the remote client *)

Section Executor.

Context `{P : Platform}.

(** X9.  The executor and the input text it is given, once the command
    line is built and [spawn] has started a child: a non-empty string is
    written to the child, which reports (or not) on it; a falsy value
    (absent, empty string, null, 0, false) is not written and the input
    of the child is left alone; any other value makes the write throw
    after the process has been spawned, so the promise rejects although
    a process is running. *)
Theorem stdin_handling (a : list jsval) (c : string) (sa : list jsval)
    (v : jsval) :
  commandLine a = Ok (c, sa) ->
  spawn (shellCommand c sa) = Started ->
  (forall text, v = JStr text -> text <> "" ->
     runKubectl a (Some v)
     = match settle (shellCommand c sa) (Some text) with
       | Some settled =>
           ([EvKubectl a (Some v); EvSpawn c sa; EvStdin text;
             EvProc settled],
            Settled (Ok (resolved settled)))
       | None =>
           ([EvKubectl a (Some v); EvSpawn c sa; EvStdin text], Pending)
       end)
  /\ (truthy v = false ->
      runKubectl a (Some v)
      = match settle (shellCommand c sa) None with
        | Some settled =>
            ([EvKubectl a (Some v); EvSpawn c sa; EvProc settled],
             Settled (Ok (resolved settled)))
        | None => ([EvKubectl a (Some v); EvSpawn c sa], Pending)
        end)
  /\ (truthy v = true -> (forall text, v <> JStr text) ->
      runKubectl a (Some v)
      = ([EvKubectl a (Some v); EvSpawn c sa],
         Settled (Throw (Engine (TypeError Write v))))).
Proof.
  intros Hc Hs. unfold runKubectl.
  rewrite Hc, bind_log, bind_lift_ok, bind_log, Hs.
  split; [|split].
  - intros text -> Hne. simpl writeStdin.
    destruct (String.eqb_spec text ""); [contradiction|]. simpl negb.
    cbv iota. rewrite bind_ok.
    destruct (settle (shellCommand c sa) (Some text)); reflexivity.
  - intros Hf. simpl writeStdin. rewrite Hf. unfold ret. rewrite bind_ok.
    destruct (settle (shellCommand c sa) None); reflexivity.
  - intros Ht Hns. simpl writeStdin. rewrite Ht.
    destruct v; try reflexivity. now contradiction (Hns s).
Qed.

(** X10.  The exec tool does not flag a failure that its process
    reports: whenever the process reports (the [close] event with any
    exit status or after a kill, or the [error] event), the response is
    the standard output followed by the standard-error text (for an
    [error] event, its message), not flagged.  A call with arguments but
    without a command string fails with a [TypeError] before the
    executor is called, and is answered with the message of that error,
    flagged. *)
Theorem exec_pod_never_flags (args : record) :
  let ns := getNamespace args.["namespace"] in
  (forall settled,
     In (EvProc settled) (fst (callTool "k8s_exec_pod" (Some args))) ->
     snd (callTool "k8s_exec_pod" (Some args))
     = Some {| text := stdout (resolved settled) ++ stderr (resolved settled);
               isError := false |})
  /\ ((forall command, args.["command"] <> JStr command) ->
      exists e,
        type_error e
        /\ callTool "k8s_exec_pod" (Some args)
           = ([EvNamespace ns],
              Some {| text := "Error: " ++ message_of e; isError := true |}))
  /\ (args.["command"] = JUndefined ->
      callTool "k8s_exec_pod" (Some args)
      = ([EvNamespace ns],
         Some {| text := "Error: " ++ engine_message
                                        (TypeError (Read "split") JUndefined);
                 isError := true |})).
Proof.
  intros ns.
  assert (Hs : switch "k8s_exec_pod" cases args ns
               = case_k8s_exec_pod args ns) by reflexivity.
  split; [|split].
  - intros settled Hin.
    apply switch_settled in Hin; [|discriminate].
    destruct Hin as (mapping & Heq & Hin). injection Heq as <-.
    fold ns in Hin. rewrite Hs in Hin.
    rewrite (callTool_outcome _ _
               (Settled (Ok (stdout (resolved settled)
                               ++ stderr (resolved settled)))));
      [reflexivity|].
    fold ns. rewrite Hs. exact (exec_pod_returns_output _ _ _ Hin).
  - intros Hcmd. rewrite callTool_switch. fold ns. rewrite Hs.
    unfold case_k8s_exec_pod.
    destruct (splitCommand args.["command"]) as [words|e] eqn:Hsplit.
    + destruct (args.["command"]) as [| | | |command| |] eqn:Hc;
        try discriminate Hsplit.
      now contradiction (Hcmd command).
    + exists e. split; [exact (splitCommand_throws _ _ Hsplit)|reflexivity].
  - intros Hcmd. rewrite callTool_switch. fold ns. rewrite Hs.
    unfold case_k8s_exec_pod. rewrite Hcmd. reflexivity.
Qed.

(** X11.  The remote-shell client, for string arguments in remote mode:
    with a key configured it is [ssh] with the key and batch mode,
    whatever the password; with a password only it is [plink] on
    Windows and [sshpass] elsewhere, the password being passed on the
    command line; with neither it is plain [ssh].  The target is always
    [user@host] and the remote command is always the last argument. *)
Theorem remote_client_selection (args : list string) :
  set K8S_SSH_HOST = true ->
  let remote :=
    JStr ("sudo kubectl " ++ String.concat " " (map shellWord args)) in
  (set K8S_SSH_KEY = true ->
   commandLine (map JStr args)
   = Ok ("ssh",
         [JStr "-i"; JStr K8S_SSH_KEY;
          JStr "-o"; JStr "StrictHostKeyChecking=no";
          JStr "-o"; JStr "UserKnownHostsFile=/dev/null";
          JStr "-o"; JStr "BatchMode=yes"; userAtHost; remote]))
  /\ (set K8S_SSH_KEY = false -> set K8S_SSH_PASSWORD = true ->
      commandLine (map JStr args)
      = if process_platform =? "win32"
        then Ok ("plink",
                 [JStr "-batch"; JStr "-pw"; JStr K8S_SSH_PASSWORD;
                  userAtHost; remote])
        else Ok ("sshpass",
                 [JStr "-p"; JStr K8S_SSH_PASSWORD; JStr "ssh";
                  JStr "-o"; JStr "StrictHostKeyChecking=no";
                  JStr "-o"; JStr "UserKnownHostsFile=/dev/null";
                  userAtHost; remote]))
  /\ (set K8S_SSH_KEY = false -> set K8S_SSH_PASSWORD = false ->
      commandLine (map JStr args)
      = Ok ("ssh",
            [JStr "-o"; JStr "StrictHostKeyChecking=no"; userAtHost; remote])).
Proof.
  intros Hremote remote. unfold commandLine.
  rewrite Hremote, kubectlCmd_strings. fold remote.
  split; [|split].
  - intros ->. reflexivity.
  - intros -> ->. destruct (process_platform =? "win32"); reflexivity.
  - intros -> ->. reflexivity.
Qed.

End Executor.

(** ** Argument lists and answers of single tools *)

Ltac settle_run msgf :=
  match goal with
  | Hin : In (EvProc ?s) (trace _) |- _ =>
      refine (eq_trans (checked_run_settled _ _ msgf _ s _ Hin) _);
      [ intro; auto 20 with steps | ]
  end.

Section Tools.

Context `{P : Platform}.

#[local] Hint Resolve silent_ret silent_throw silent_lift silent_parse
  silent_path silent_throwIfFailed : steps.
#[local] Hint Extern 2 (silent (bind _ _)) =>
  apply silent_bind; [ | intro ] : steps.

Lemma settled_success (c : option Z) (out err : string) :
  c = None \/ c = Some 0%Z ->
  code (resolved (ProcClose out err c)) = 0%Z.
Proof. intros [->| ->]; reflexivity. Qed.

(** The events of the branch a call runs, for a call with arguments. *)
Lemma branch_settled (name : string) (args : record) (e : event) :
  In e (fst (callTool name (Some args))) ->
  (forall ns, e <> EvNamespace ns) ->
  In e (trace (switch name cases args (getNamespace args.["namespace"]))).
Proof.
  intros Hin Hne. apply switch_settled in Hin; [|exact Hne].
  destruct Hin as (mapping & Heq & Hin). now injection Heq as <-.
Qed.

(** X12.  The logs tool: a [tail] of 0 (like an absent one) passes no
    [--tail] flag, so the whole log is fetched; and when the process
    succeeds with an empty output the response is the fixed text
    [No logs available], otherwise the output itself. *)
Theorem pod_logs_edges (args : record) :
  let ns := getNamespace args.["namespace"] in
  (truthy args.["tail"] = false ->
   exists rest,
     trace (handleTool "k8s_get_pod_logs" (Some args))
     = EvNamespace ns
         :: EvKubectl (js["logs"; args.["name"]; "-n"; ns]
                         ++ when args.["container"]
                              [JStr "-c"; args.["container"]]
                         ++ when args.["previous"] [JStr "--previous"]
                         ++ when args.["since"]
                              [JStr "--since"; args.["since"]])%list None
         :: rest)
  /\ forall out err c,
       In (EvProc (ProcClose out err c))
          (fst (callTool "k8s_get_pod_logs" (Some args))) ->
       c = None \/ c = Some 0%Z ->
       snd (callTool "k8s_get_pod_logs" (Some args))
       = Some {| text := if out =? "" then "No logs available" else out;
                 isError := false |}.
Proof.
  intros ns.
  assert (Hs : switch "k8s_get_pod_logs" cases args ns
               = case_k8s_get_pod_logs args ns) by reflexivity.
  split.
  - intros Htail. rewrite handleTool_unfold. fold ns. rewrite Hs.
    unfold case_k8s_get_pod_logs. cbv zeta.
    unfold when at 3. rewrite Htail. rewrite app_nil_r.
    unfold trace at 1. simpl fst.
    match goal with
    | |- context [bind (runKubectl ?a ?o) ?f] =>
        destruct (trace_run_head a o f) as (rest & ->)
    end.
    exists rest. rewrite <- !app_assoc. reflexivity.
  - intros out err c Hin Hc.
    apply branch_settled in Hin; [|discriminate]. fold ns in Hin.
    rewrite Hs in Hin.
    rewrite (callTool_outcome _ _
               (Settled (Ok (if out =? "" then "No logs available"
                             else out))));
      [reflexivity|].
    fold ns. rewrite Hs. revert Hin.
    unfold case_k8s_get_pod_logs. cbv zeta. intros Hin.
    settle_run (fun r : KubectlResult => stderr r).
    rewrite (settled_success _ _ _ Hc). simpl. unfold str_or, set.
    destruct (out =? ""); reflexivity.
Qed.





(** X16.  Without the decode flag the response of the secret tool has
    four fields only, the name, the namespace, the type and the list of
    the key names: no value of the secret's data is part of it. *)
Theorem secret_values_withheld (args : record) (secret response : jsval) :
  truthy args.["decode"] = false ->
  secretResponse args secret = Ok response ->
  exists name namespace type data,
    getpath secret ["metadata"; "name"] = Ok name
    /\ getpath secret ["metadata"; "namespace"] = Ok namespace
    /\ getp secret "type" = Ok type
    /\ getp secret "data" = Ok data
    /\ response
       = JObj [("name", name); ("namespace", namespace); ("type", type);
               ("keys", JArr (map JStr (Object_keys (js_or data (JObj [])))))].
Proof.
  unfold secretResponse. intros Hflag.
  destruct (getpath secret ["metadata"; "name"]) as [name|]; [|discriminate].
  destruct (getpath secret ["metadata"; "namespace"]) as [namespace|];
    [|discriminate].
  destruct (getp secret "type") as [type|]; [|discriminate].
  destruct (getp secret "data") as [data|]; [|discriminate].
  rewrite Hflag. simpl. intros H. injection H as <-.
  exists name, namespace, type, data. repeat split; reflexivity.
Qed.

(** [find] stops at the first condition of type [Ready]. *)
Lemma readyCondition_first (pre post : list jsval) (c : record) :
  Forall (fun x => exists o, x = JObj o
                             /\ is_string "Ready" o.["type"] = false) pre ->
  (is_string "Ready" c.["type"] = true ->
   readyCondition (JArr (pre ++ JObj c :: post)) = Ok c.["status"])
  /\ readyCondition (JArr pre) = Ok JUndefined.
Proof.
  intros Hpre. split.
  - intros Hc. unfold readyCondition.
    induction Hpre as [|x pre (o & -> & Ho) _ IH]; simpl.
    + rewrite Hc. reflexivity.
    + rewrite Ho. exact IH.
  - unfold readyCondition.
    induction Hpre as [|x pre (o & -> & Ho) _ IH]; simpl; [reflexivity|].
    rewrite Ho. exact IH.
Qed.

(** X17.  The node tool, on a successful run whose output parses to an
    object with [metadata] and [status]: the status it reports is read
    from the first condition of type [Ready] alone, [Ready] when the
    status of that condition is the string [True] and [NotReady]
    otherwise; conditions before it that have another type are passed
    over, conditions after it are not consulted; with no condition of
    that type, or no conditions at all, the node is reported [NotReady].
    The other fields of the response are copied from the output. *)
Theorem node_ready_first_condition (args : record) (out err : string)
    (c : option Z) (node metadata status : record)
    (pre post : list jsval) (cond : record) :
  In (EvProc (ProcClose out err c))
     (fst (callTool "k8s_get_node" (Some args))) ->
  c = None \/ c = Some 0%Z ->
  JSON_parse out = Some (JObj node) ->
  node.["metadata"] = JObj metadata ->
  node.["status"] = JObj status ->
  Forall (fun x => exists o, x = JObj o
                             /\ is_string "Ready" o.["type"] = false) pre ->
  let answer (ready : string) :=
    Some {| text :=
              JSON_stringify
                (JObj [("name", metadata.["name"]);
                       ("labels", metadata.["labels"]);
                       ("status", JStr ready);
                       ("conditions", status.["conditions"]);
                       ("capacity", status.["capacity"]);
                       ("allocatable", status.["allocatable"]);
                       ("nodeInfo", status.["nodeInfo"])]);
            isError := false |} in
  (status.["conditions"] = JArr (pre ++ JObj cond :: post) ->
   is_string "Ready" cond.["type"] = true ->
   snd (callTool "k8s_get_node" (Some args))
   = answer (if is_string "True" cond.["status"]
             then "Ready" else "NotReady"))
  /\ (status.["conditions"] = JArr pre
      \/ status.["conditions"] = JUndefined ->
      snd (callTool "k8s_get_node" (Some args)) = answer "NotReady").
Proof.
  intros Hin Hc Hparse Hmeta Hstatus Hpre answer.
  apply branch_settled in Hin; [|discriminate].
  assert (Hs : forall ns, switch "k8s_get_node" cases args ns
                          = case_k8s_get_node args ns) by reflexivity.
  rewrite Hs in Hin.
  assert (Hrun : forall ready,
             readyCondition status.["conditions"] = Ok ready ->
             snd (callTool "k8s_get_node" (Some args))
             = answer (if is_string "True" ready
                       then "Ready" else "NotReady")).
  { intros ready Hready.
    rewrite (callTool_outcome _ _
               (Settled (Ok (JSON_stringify
                  (JObj [("name", metadata.["name"]);
                         ("labels", metadata.["labels"]);
                         ("status", JStr (if is_string "True" ready
                                          then "Ready" else "NotReady"));
                         ("conditions", status.["conditions"]);
                         ("capacity", status.["capacity"]);
                         ("allocatable", status.["allocatable"]);
                         ("nodeInfo", status.["nodeInfo"])])))));
      [reflexivity|].
    rewrite Hs. revert Hin. unfold case_k8s_get_node. intros Hin.
    settle_run (fun r : KubectlResult => stderr r).
    rewrite (settled_success _ _ _ Hc). cbv iota.
    rewrite outcome_bind. unfold parse. simpl stdout. rewrite Hparse.
    cbn [outcome snd ret]. unfold path, getpath, getp.
    rewrite Hmeta, Hstatus. rewrite !bind_lift_ok, Hready, !bind_lift_ok.
    reflexivity. }
  destruct (readyCondition_first pre post cond Hpre) as [Hfound Hnone].
  split.
  - intros Hconds Hready. apply Hrun. rewrite Hconds. exact (Hfound Hready).
  - intros [Hconds|Hconds].
    + apply (Hrun JUndefined). rewrite Hconds. exact Hnone.
    + apply (Hrun JUndefined). rewrite Hconds. reflexivity.
Qed.

End Tools.

(** ** Malformed output, escaping, the catalog, start-up *)

Section Rest.

Context `{P : Platform}.

#[local] Hint Resolve silent_ret silent_throw silent_lift silent_parse
  silent_path silent_throwIfFailed : steps.
#[local] Hint Extern 2 (silent (bind _ _)) =>
  apply silent_bind; [ | intro ] : steps.

Lemma getpath_throws (v : jsval) (p : list string) (e : exn) :
  getpath v p = Throw e -> type_error e.
Proof.
  revert v. induction p as [|k rest IH]; simpl; intros v; [discriminate|].
  destruct (getp v k) as [w|e'] eqn:Hg.
  - apply IH.
  - intros H. injection H as <-. unfold type_error.
    destruct v; simpl in Hg; try discriminate; injection Hg as <-; eauto.
Qed.

Ltac not_listed' :=
  let Hin := fresh in
  intros Hin; exfalso; revert Hin; apply not_In_existsb; reflexivity.

Ltac solve_needs_metadata :=
  simpl fst; simpl snd;
  first
    [ not_listed'
    | unfold_branches; cbv zeta;
      intros _ settled v e Hin Hc Hparse Hmeta;
      settle_run (fun r : KubectlResult => stderr r);
      rewrite Hc; change (0 =? 0)%Z with true; cbv iota;
      rewrite outcome_bind; unfold parse; rewrite Hparse;
      cbn [outcome snd ret];
      rewrite outcome_bind; unfold path, lift, secretResponse;
      cbn [outcome snd];
      rewrite Hmeta; reflexivity ].

Lemma branches_need_metadata (args : record) (ns : jsval) :
  Forall (fun lb => needs_metadata (fst lb) (snd lb args ns)) cases.
Proof.
  unfold cases. repeat (apply Forall_cons; [solve_needs_metadata|]).
  apply Forall_nil.
Qed.

(** X18.  For the six tools that project fields of the client's JSON
    output: when the process succeeds and its output parses, but the
    parsed value has no [metadata.name] to read (it is [null], or has
    no [metadata]), the call is answered with a flagged error response
    carrying the message of the [TypeError] that the reading of
    [metadata.name] throws. *)
Theorem output_without_metadata_reported (name : string)
    (args : option record) (out err : string) (c : option Z) (v : jsval)
    (e : exn) :
  In name projecting_tools ->
  In (EvProc (ProcClose out err c)) (fst (callTool name args)) ->
  c = None \/ c = Some 0%Z ->
  JSON_parse out = Some v ->
  getpath v ["metadata"; "name"] = Throw e ->
  type_error e
  /\ snd (callTool name args)
     = Some {| text := "Error: " ++ message_of e; isError := true |}.
Proof.
  intros Hname Hin Hc Hparse Hmeta.
  split; [exact (getpath_throws _ _ _ Hmeta)|].
  apply switch_settled in Hin; [|discriminate].
  destruct Hin as (mapping & -> & Hin).
  rewrite (callTool_outcome name mapping (Settled (Throw e)));
    [reflexivity|].
  refine (switch_elim needs_metadata name cases mapping _
            (branches_need_metadata mapping _) _ Hname
            (ProcClose out err c) v e Hin _ Hparse Hmeta).
  - intros _ ? ? ? [].
  - destruct Hc as [->| ->]; reflexivity.
Qed.

Lemma escape_dquotes_head (s : string) (rest : string) :
  escape_dquotes s <> String dquote rest.
Proof.
  destruct s as [|c s']; simpl; [discriminate|].
  destruct (Ascii.eqb_spec c dquote) as [->|Hne]; [discriminate|].
  intros H. injection H as H _. contradiction.
Qed.

Lemma unescape_escape (s : string) : unescape_dquotes (escape_dquotes s) = s.
Proof.
  induction s as [|c rest IH]; [reflexivity|].
  simpl escape_dquotes. destruct (Ascii.eqb_spec c dquote) as [->|Hne].
  - simpl. rewrite IH. reflexivity.
  - pose proof (escape_dquotes_head rest) as Hh.
    simpl. destruct (escape_dquotes rest) as [|d rest'] eqn:He.
    + destruct rest; [reflexivity|]. simpl in He.
      destruct (Ascii.eqb a dquote); discriminate.
    + rewrite <- IH.
      destruct (Ascii.eqb_spec d dquote) as [->|Hd];
        [now contradiction (Hh rest')|].
      rewrite andb_false_r. reflexivity.
Qed.

Lemma escape_no_bare (s : string) (guarded : bool) :
  bare_dquote guarded (escape_dquotes s)
  = match s with
    | EmptyString => false
    | String c _ => false
    end.
Proof.
  revert guarded. induction s as [|c rest IH]; intros guarded; [reflexivity|].
  simpl escape_dquotes. destruct (Ascii.eqb_spec c dquote) as [->|Hne].
  - simpl. rewrite IH. destruct rest; reflexivity.
  - simpl. destruct (Ascii.eqb_spec c dquote); [contradiction|].
    simpl. rewrite IH. destruct rest; reflexivity.
Qed.

Lemma escape_length (s : string) :
  String.length (escape_dquotes s)
  = String.length s + count_char dquote s.
Proof.
  induction s as [|c rest IH]; [reflexivity|].
  simpl. destruct (Ascii.eqb c dquote); simpl; rewrite IH; lia.
Qed.

(** X19.  The escaping of double quotes in remote mode: in the escaped
    text every double quote has a backslash before it; the text grows by
    one character per double quote; and nothing is lost, since dropping
    those backslashes gives the argument back, so that two different
    arguments never escape to the same text. *)
Theorem escape_dquotes_faithful (s s' : string) :
  bare_dquote false (escape_dquotes s) = false
  /\ String.length (escape_dquotes s)
     = String.length s + count_char dquote s
  /\ unescape_dquotes (escape_dquotes s) = s
  /\ (escape_dquotes s = escape_dquotes s' -> s = s').
Proof.
  split; [|split; [|split]].
  - rewrite escape_no_bare. destruct s; reflexivity.
  - apply escape_length.
  - apply unescape_escape.
  - intros H. rewrite <- (unescape_escape s), <- (unescape_escape s'), H.
    reflexivity.
Qed.

Lemma distinct_NoDup (l : list string) : distinct l = true -> NoDup l.
Proof.
  induction l as [|x rest IH]; simpl; intros H; [constructor|].
  apply andb_true_iff in H. destruct H as [Hx Hrest].
  constructor; [|now apply IH].
  apply not_In_existsb. now apply negb_true_iff.
Qed.

Lemma declared_incl (t : Tool) :
  declared t = true -> incl (required t) (map fst (properties t)).
Proof.
  unfold declared. rewrite forallb_forall. intros H r Hr.
  specialize (H r Hr). apply existsb_exists in H.
  destruct H as (k & Hk & Heq). apply String.eqb_eq in Heq. now subst.
Qed.

(** X20.  The catalog is well formed: there are 49 tools, no two with the
    same name, and every argument a tool requires is one of its declared
    properties; the [case] labels of the dispatcher are pairwise
    different too, so no branch is shadowed by an earlier one. *)
Theorem catalog_well_formed :
  List.length tools = 49
  /\ NoDup (map name tools)
  /\ NoDup (map fst cases)
  /\ Forall (fun t => incl (required t) (map fst (properties t))) tools.
Proof.
  split; [reflexivity|]. split; [|split].
  - apply distinct_NoDup. vm_compute. reflexivity.
  - rewrite <- catalog_labels. apply distinct_NoDup. vm_compute. reflexivity.
  - apply Forall_forall. intros t Ht. apply declared_incl.
    assert (H : forallb declared tools = true) by (vm_compute; reflexivity).
    rewrite forallb_forall in H. exact (H t Ht).
Qed.

End Rest.

Section Startup.

Context `{P : Platform} `{T : Transport}.

Lemma modeLines_console (x : startup) :
  In x modeLines -> exists line, x = Console line.
Proof.
  unfold modeLines.
  destruct (set K8S_SSH_HOST), (set KUBECONFIG), (set K8S_CONTEXT);
    simpl; intuition eauto.
Qed.

Lemma probeLines_console (r : KubectlResult) (x : startup) :
  In x (probeLines r) -> exists line, x = Console line.
Proof.
  unfold probeLines. destruct (code r =? 0)%Z; simpl; intuition eauto.
Qed.

(** What [main] does after the lines that tell the mode. *)
Lemma main_unfold :
  exists t,
    In (EvKubectl js["version"; "--short"] None) t
    /\ main
       = ([Console "Kubernetes MCP Server starting..."] ++ modeLines
          ++ Executor t
          :: match outcome (runKubectl js["version"; "--short"] None) with
             | Settled (Throw error) => failedToStart (message_of error)
             | Settled (Ok versionResult) =>
                 probeLines versionResult ++ connectSteps
             | Pending => []
             end)%list.
Proof.
  unfold main.
  destruct (runKubectl_run js["version"; "--short"] None)
    as (t & Hquiet & [(r & Hr & H) | (settled & H)]); rewrite H.
  - exists (EvKubectl js["version"; "--short"] None :: t).
    split; [left; reflexivity|].
    destruct r as [[x|e]|]; reflexivity.
  - exists ((EvKubectl js["version"; "--short"] None :: t)
            ++ [EvProc settled])%list.
    split; [left; reflexivity|]. reflexivity.
Qed.

(** X21.  Start-up: [main] probes the client with [version --short].
    When the promise of the probe resolves, whatever the result (success,
    a nonzero exit, an [error] event), [main] connects the transport; it
    exits with status 1 when the connection fails, and otherwise the
    last thing it does is to announce that the server is running.  When
    the promise of the probe rejects, [main] exits with status 1 without
    connecting; when it stays pending, [main] neither connects nor
    exits. *)
Theorem startup_connects_whatever_the_probe :
  let probe := outcome (runKubectl js["version"; "--short"] None) in
  (exists t, In (Executor t) main
             /\ In (EvKubectl js["version"; "--short"] None) t)
  /\ (In Connect main <-> exists r, probe = Settled (Ok r))
  /\ (forall status,
        In (Exit status) main
        <-> status = 1%Z
            /\ ((exists e, probe = Settled (Throw e))
                \/ ((exists r, probe = Settled (Ok r))
                    /\ connect_error <> None)))
  /\ ((exists r, probe = Settled (Ok r)) -> connect_error = None ->
      exists before,
        main = (before ++ [Connect;
                           Console "Kubernetes MCP server running"])%list).
Proof.
  intros probe. destruct main_unfold as (t & Ht & Hmain).
  fold probe in Hmain.
  assert (Hin : forall x,
             (forall line, x <> Console line) -> (forall t', x <> Executor t') ->
             In x main
             <-> In x match probe with
                      | Settled (Throw error) =>
                          failedToStart (message_of error)
                      | Settled (Ok versionResult) => connectSteps
                      | Pending => []
                      end).
  { intros x Hc He. rewrite Hmain. split.
    - intros Hin. apply in_app_or in Hin.
      destruct Hin as [[Hin|[]]|Hin]; [now contradiction (Hc _ (eq_sym Hin))|].
      apply in_app_or in Hin. destruct Hin as [Hin|Hin].
      + destruct (modeLines_console _ Hin) as (line & ->).
        now contradiction (Hc line).
      + destruct Hin as [Hin|Hin]; [now contradiction (He _ (eq_sym Hin))|].
        destruct probe as [[r|e]|]; [|exact Hin|exact Hin].
        apply in_app_or in Hin. destruct Hin as [Hin|Hin]; [|exact Hin].
        destruct (probeLines_console _ _ Hin) as (line & ->).
        now contradiction (Hc line).
    - intros Hin. apply in_or_app. right. apply in_or_app. right. right.
      destruct probe as [[r|e]|]; [|exact Hin|exact Hin].
      apply in_or_app. right. exact Hin. }
  split; [|split; [|split]].
  - exists t. split; [|exact Ht]. rewrite Hmain.
    apply in_or_app. right. apply in_or_app. right. left. reflexivity.
  - rewrite Hin by discriminate.
    destruct probe as [[r|e]|]; unfold connectSteps, failedToStart.
    + split; [eauto|]. intros _. destruct connect_error; left; reflexivity.
    + split; [|intros (r & Hr); discriminate].
      intros [H|[H|[]]]; discriminate.
    + split; [intros []|intros (r & Hr); discriminate].
  - intros status. rewrite Hin by discriminate.
    destruct probe as [[r|e]|]; unfold connectSteps, failedToStart.
    + destruct connect_error as [message|]; simpl; split.
      * intros [H|[H|[H|[]]]]; try discriminate. injection H as <-.
        split; [reflexivity|]. right. split; [eauto|discriminate].
      * intros [-> _]. right. right. left. reflexivity.
      * intros [H|[H|[]]]; discriminate.
      * intros [_ [(e & He)|[_ Hne]]]; [discriminate|now contradiction Hne].
    + simpl. split.
      * intros [H|[H|[]]]; try discriminate. injection H as <-.
        split; [reflexivity|]. left. eauto.
      * intros [-> _]. right. left. reflexivity.
    + simpl. split; [intros []|].
      intros [_ [(e & He)|[(r & Hr) _]]]; discriminate.
  - intros (r & Hr) Hok. rewrite Hmain, Hr. unfold connectSteps.
    rewrite Hok.
    exists ([Console "Kubernetes MCP Server starting..."] ++ modeLines
            ++ Executor t :: probeLines r)%list.
    rewrite <- !app_assoc. reflexivity.
Qed.

End Startup.

(** ** The exec command in remote mode *)

Section RemoteExec.

Context `{P : Platform}.

Lemma includes_char (c : ascii) (s : string) :
  String_includes (str1 c) s = existsb (Ascii.eqb c) (list_ascii_of_string s).
Proof.
  induction s as [|a rest IH]; [reflexivity|].
  simpl. rewrite <- IH.
  destruct (ascii_dec c a) as [->|Hne].
  - rewrite Ascii.eqb_refl. destruct rest; reflexivity.
  - destruct (Ascii.eqb_spec c a); [contradiction|reflexivity].
Qed.

Lemma String_split_chars (sep : ascii) (s : string) :
  Forall (fun w => forall ch, In ch (list_ascii_of_string w) ->
                              In ch (list_ascii_of_string s))
         (String_split sep s).
Proof.
  induction s as [|c rest IH]; simpl.
  - constructor; [intros ch []|constructor].
  - destruct (Ascii.eqb c sep).
    + constructor; [intros ch []|].
      eapply Forall_impl; [|exact IH]. simpl. intros w Hw ch Hch.
      right. now apply Hw.
    + destruct (String_split sep rest) as [|w ws].
      * constructor; [|constructor]. simpl. intros ch [H|[]]. now left.
      * inversion IH as [|? ? Hw Hws]; subst. constructor.
        -- simpl. intros ch [H|H]; [now left|right; now apply Hw].
        -- eapply Forall_impl; [|exact Hws]. simpl. intros w' Hw' ch Hch.
           right. now apply Hw'.
Qed.

Lemma existsb_false_not_In (c : ascii) (l : list ascii) :
  existsb (Ascii.eqb c) l = false <-> ~ In c l.
Proof.
  split.
  - intros H Hin.
    assert (Ht : existsb (Ascii.eqb c) l = true).
    { apply existsb_exists. exists c. split; [exact Hin|apply Ascii.eqb_refl]. }
    congruence.
  - intros Hn. destruct (existsb (Ascii.eqb c) l) eqn:He; [|reflexivity].
    apply existsb_exists in He. destruct He as (x & Hx & Heq).
    apply Ascii.eqb_eq in Heq. subst. contradiction.
Qed.

(** The pieces of a command that holds no single quote pass the
    escaping unchanged. *)
Lemma shellWord_pieces (command : string) :
  String_includes "'" command = false ->
  map shellWord (String_split space command) = String_split space command.
Proof.
  intros Hq.
  change "'" with (str1 squote) in Hq. rewrite includes_char in Hq.
  apply existsb_false_not_In in Hq.
  pose proof (String_split_chars space command) as Hchars.
  pose proof (String_split_pieces space command) as Hspace.
  induction (String_split space command) as [|w ws IH]; [reflexivity|].
  inversion Hchars as [|? ? Hw Hws]; inversion Hspace as [|? ? Sw Sws]; subst.
  simpl. rewrite (IH Hws Sws). f_equal.
  unfold shellWord.
  change "'" with (str1 squote). change " " with (str1 space).
  rewrite !includes_char.
  assert (H1 : existsb (Ascii.eqb squote) (list_ascii_of_string w) = false).
  { apply existsb_false_not_In. intros Hin. apply Hq. now apply Hw. }
  assert (H2 : existsb (Ascii.eqb space) (list_ascii_of_string w) = false)
    by now apply existsb_false_not_In.
  rewrite H1, H2. reflexivity.
Qed.

Lemma concat_cons (sep x : string) (l : list string) :
  l <> [] -> String.concat sep (x :: l) = x ++ sep ++ String.concat sep l.
Proof. destruct l; [contradiction|reflexivity]. Qed.

Lemma remote_spawn_strings (l : list string) (o : option jsval) :
  set K8S_SSH_HOST = true ->
  exists client sshArgs,
    sshArgs <> []
    /\ In (EvSpawn client
             (sshArgs ++ [JStr ("sudo kubectl "
                                  ++ String.concat " " (map shellWord l))])%list)
          (trace (runKubectl (map JStr l) o)).
Proof.
  intros Hremote.
  assert (Hc : exists client sshArgs,
             sshArgs <> []
             /\ commandLine (map JStr l)
                = Ok (client,
                      (sshArgs ++ [JStr ("sudo kubectl "
                         ++ String.concat " " (map shellWord l))])%list)).
  { unfold commandLine. rewrite Hremote, kubectlCmd_strings.
    destruct (set K8S_SSH_KEY).
    - eexists; eexists (_ :: _ :: _ :: _ :: _ :: _ :: _ :: _ :: [_]);
        split; [discriminate|reflexivity].
    - destruct (set K8S_SSH_PASSWORD).
      + destruct (process_platform =? "win32").
        * eexists; eexists (_ :: _ :: _ :: [_]);
            split; [discriminate|reflexivity].
        * eexists; eexists (_ :: _ :: _ :: _ :: _ :: _ :: _ :: [_]);
            split; [discriminate|reflexivity].
      + eexists; eexists (_ :: _ :: [_]); split; [discriminate|reflexivity]. }
  destruct Hc as (client & sshArgs & Hne & Hc). exists client, sshArgs.
  split; [exact Hne|].
  destruct (runKubectl_spawns _ o _ _ Hc) as (rest & ->).
  right. left. reflexivity.
Qed.

Lemma in_trace_bind {A B} (m : M A) (f : A -> M B) (e : event) :
  In e (trace m) -> In e (trace (bind m f)).
Proof.
  intros Hin. rewrite trace_bind.
  destruct (outcome m) as [[a|x]|]; try exact Hin.
  apply in_or_app. now left.
Qed.

(** X22.  The exec tool in remote mode: although the command is cut at
    its spaces, the pieces are joined with spaces again, so that in the
    last argument handed to the remote-shell client a command that holds
    no single quote follows [sudo kubectl exec <pod> -n <namespace> -- ]
    exactly as it was given.  And as [spawn] runs with the option
    [shell], that last argument is not kept whole: the command line
    handed to the local shell ends with the same text, so that the local
    shell is the first to read the quoting of the command. *)
Theorem remote_exec_verbatim (args : record) (pod ns command : string) :
  set K8S_SSH_HOST = true ->
  args.["name"] = JStr pod ->
  truthy args.["container"] = false ->
  args.["command"] = JStr command ->
  getNamespace args.["namespace"] = JStr ns ->
  String_includes "'" command = false ->
  let remote :=
    "sudo kubectl exec " ++ shellWord pod ++ " -n " ++ shellWord ns
      ++ " -- " ++ command in
  exists client sshArgs,
    In (EvSpawn client (sshArgs ++ [JStr remote])%list)
       (trace (handleTool "k8s_exec_pod" (Some args)))
    /\ shellCommand client (sshArgs ++ [JStr remote])%list
       = shellCommand client sshArgs ++ " " ++ remote.
Proof.
  intros Hremote Hpod Hcont Hcmd Hns Hq remote.
  destruct (remote_spawn_strings
              (["exec"; pod; "-n"; ns; "--"] ++ String_split space command)%list
              None Hremote) as (client & sshArgs & Hne & Hin).
  exists client, sshArgs.
  pose proof (String_split_nonempty space command) as Hwords.
  pose proof (String_split_concat space command) as Hjoin.
  assert (Hline : "sudo kubectl "
                    ++ String.concat " "
                         (map shellWord
                            (["exec"; pod; "-n"; ns; "--"]
                               ++ String_split space command)%list)
                  = remote).
  { rewrite map_app, shellWord_pieces by exact Hq.
    simpl map. simpl app.
    rewrite !concat_cons by (discriminate || exact Hwords).
    change (String.concat " " (String_split space command))
      with (String.concat (str1 space) (String_split space command)).
    rewrite Hjoin. reflexivity. }
  rewrite Hline in Hin. split.
  - rewrite handleTool_unfold, Hns.
    change (switch "k8s_exec_pod" cases args (JStr ns))
      with (case_k8s_exec_pod args (JStr ns)).
    unfold case_k8s_exec_pod. rewrite Hpod, Hcmd. unfold splitCommand, when.
    rewrite Hcont, bind_lift_ok. cbv zeta.
    unfold trace at 1. simpl fst. right.
    apply in_trace_bind. rewrite map_app in Hin. exact Hin.
  - unfold shellCommand.
    change (JStr client :: (sshArgs ++ [JStr remote])%list)
      with ((JStr client :: sshArgs) ++ [JStr remote])%list.
    rewrite Array_join_app by discriminate. reflexivity.
Qed.

End RemoteExec.

(** ** The age helper *)

Section Age.

Context `{C : Clock}.

(** X4.  For a valid timestamp that is not in the future, [calculateAge]
    prints the age in the largest unit that is at least one: whole days
    from one day on, else whole hours from one hour on, else whole
    minutes (so [0m] under a minute); the smaller units are dropped. *)
Theorem calculateAge_past (timestamp : string) (created : Z) :
  timestamp <> "" ->
  Date_parse timestamp = Some created ->
  (created <= Date_now)%Z ->
  let diff := (Date_now - created)%Z in
  ((msPerDay <= diff)%Z ->
   calculateAge timestamp = Z_to_string (diff / msPerDay) ++ "d")
  /\ ((msPerHour <= diff < msPerDay)%Z ->
      calculateAge timestamp = Z_to_string (diff / msPerHour) ++ "h")
  /\ ((diff < msPerHour)%Z ->
      calculateAge timestamp = Z_to_string (diff / msPerMinute) ++ "m").
Proof.
  intros Hne Hparse Hle diff.
  assert (H0 : (0 <= diff)%Z) by (unfold diff; lia).
  unfold calculateAge. rewrite Hparse. fold diff.
  destruct (String.eqb_spec timestamp ""); [contradiction|].
  unfold msPerDay, msPerHour, msPerMinute in *. simpl Z.mul in *.
  split; [|split].
  - intros Hd.
    assert (1 <= diff / 86400000)%Z
      by (apply Z.div_le_lower_bound; lia).
    destruct (Z.ltb_spec 0 (diff / 86400000)); [reflexivity|lia].
  - intros [Hh Hd].
    rewrite (Z.div_small diff 86400000) by lia.
    rewrite (Z.rem_small diff 86400000) by lia. simpl (0 <? 0)%Z.
    assert (1 <= diff / 3600000)%Z
      by (apply Z.div_le_lower_bound; lia).
    destruct (Z.ltb_spec 0 (diff / 3600000)); [reflexivity|lia].
  - intros Hm.
    rewrite (Z.div_small diff 86400000) by lia.
    rewrite (Z.rem_small diff 86400000) by lia.
    rewrite (Z.div_small diff 3600000) by lia.
    rewrite (Z.rem_small diff 3600000) by lia. reflexivity.
Qed.

(** X5.  For a valid timestamp in the future, however far, [calculateAge]
    prints a number of minutes between -60 and 0: the days and hours are
    not positive, so the function falls through to the minute
    remainder. *)
Theorem calculateAge_future (timestamp : string) (created : Z) :
  timestamp <> "" ->
  Date_parse timestamp = Some created ->
  (Date_now < created)%Z ->
  exists minutes,
    (-60 <= minutes <= 0)%Z
    /\ minutes = (Z.rem (Date_now - created) msPerHour / msPerMinute)%Z
    /\ calculateAge timestamp = Z_to_string minutes ++ "m".
Proof.
  intros Hne Hparse Hlt.
  set (diff := (Date_now - created)%Z).
  assert (H0 : (diff < 0)%Z) by (unfold diff; lia).
  unfold calculateAge. rewrite Hparse. fold diff.
  destruct (String.eqb_spec timestamp ""); [contradiction|].
  unfold msPerDay, msPerHour, msPerMinute in *. simpl Z.mul in *.
  pose proof (Z.rem_bound_pos_neg diff 86400000 ltac:(lia) ltac:(lia)) as Hd.
  pose proof (Z.rem_bound_pos_neg diff 3600000 ltac:(lia) ltac:(lia)) as Hh.
  assert (Hdays : (diff / 86400000 < 0)%Z)
    by (apply Z.div_lt_upper_bound; lia).
  assert (Hhours : (Z.rem diff 86400000 / 3600000 <= 0)%Z).
  { apply Z.lt_succ_r. apply Z.div_lt_upper_bound; lia. }
  assert (Hmin : (-60 <= Z.rem diff 3600000 / 60000 <= 0)%Z).
  { split.
    - apply Z.div_le_lower_bound; lia.
    - apply Z.lt_succ_r. apply Z.div_lt_upper_bound; lia. }
  exists (Z.rem diff 3600000 / 60000)%Z.
  split; [exact Hmin|]. split; [reflexivity|].
  destruct (Z.ltb_spec 0 (diff / 86400000)); [lia|].
  destruct (Z.ltb_spec 0 (Z.rem diff 86400000 / 3600000)); [lia|].
  reflexivity.
Qed.

End Age.

(** ** Examples of the further properties *)

(** X2 on a call that gives an empty namespace. *)
Lemma resolved_namespace_never_empty_witness :
  In (EvNamespace (JStr "apps"))
     (trace (@handleTool failing_host "k8s_get_pod"
               (Some [("name", JStr "web"); ("namespace", JStr "")])))
  /\ truthy (JStr "apps") = true
  /\ @K8S_DEFAULT_NAMESPACE failing_host <> "".
Proof.
  assert (H : In (EvNamespace (JStr "apps"))
                (trace (@handleTool failing_host "k8s_get_pod"
                          (Some [("name", JStr "web");
                                 ("namespace", JStr "")]))))
    by (vm_compute; left; reflexivity).
  split; [exact H|].
  destruct (@resolved_namespace_never_empty failing_host _ _ _ H)
    as (H1 & _ & _ & H4).
  split; [exact H1|exact H4].
Defined.

(** X3 on a local host with a configured client path. *)
Lemma spawned_command_known_witness :
  In (EvSpawn "/usr/local/bin/kubectl"
        js["--context=prod"; "get"; "nodes"; "-o"; "wide"])
     (trace (@handleTool custom_host "k8s_list_nodes" (Some [])))
  /\ "/usr/local/bin/kubectl" <> ""
  /\ (set (@K8S_SSH_HOST custom_host) = false ->
      "/usr/local/bin/kubectl" = @KUBECTL_PATH custom_host).
Proof.
  assert (H : In (EvSpawn "/usr/local/bin/kubectl"
                    js["--context=prod"; "get"; "nodes"; "-o"; "wide"])
                (trace (@handleTool custom_host "k8s_list_nodes" (Some []))))
    by (vm_compute; right; right; left; reflexivity).
  split; [exact H|].
  destruct (@spawned_command_known custom_host _ _ _ _ H) as (H1 & H2 & _).
  split; [exact H1|exact H2].
Defined.

(** X4 at 2023-11-14T22:13:20Z: ages of 1 day 2 h 3 min, of 2 h 3 min
    and of 3 min. *)
Lemma calculateAge_past_witness :
  @calculateAge sample_clock "2023-11-13T20:10:16Z" = "1d"
  /\ @calculateAge sample_clock "2023-11-14T20:10:16Z" = "2h"
  /\ @calculateAge sample_clock "2023-11-14T22:10:16Z" = "3m".
Proof.
  split; [|split].
  - exact (proj1 (@calculateAge_past sample_clock "2023-11-13T20:10:16Z"
                    1699906216000
                    (neq_eqb "2023-11-13T20:10:16Z" "" eq_refl) eq_refl
                    ltac:(vm_compute; discriminate))
             ltac:(vm_compute; discriminate)).
  - exact (proj1 (proj2 (@calculateAge_past sample_clock
                           "2023-11-14T20:10:16Z" 1699992616000
                           (neq_eqb "2023-11-14T20:10:16Z" "" eq_refl)
                           eq_refl
                           ltac:(vm_compute; discriminate)))
             ltac:(split; vm_compute; (discriminate || reflexivity))).
  - exact (proj2 (proj2 (@calculateAge_past sample_clock
                           "2023-11-14T22:10:16Z" 1699999816000
                           (neq_eqb "2023-11-14T22:10:16Z" "" eq_refl)
                           eq_refl
                           ltac:(vm_compute; discriminate)))
             ltac:(vm_compute; reflexivity)).
Defined.

(** X5 on a timestamp two days ahead: the age prints as [0m]. *)
Lemma calculateAge_future_witness :
  "2023-11-16T22:13:20Z" <> ""
  /\ @Date_parse sample_clock "2023-11-16T22:13:20Z" = Some 1700172800000%Z
  /\ (@Date_now sample_clock < 1700172800000)%Z
  /\ @calculateAge sample_clock "2023-11-16T22:13:20Z" = "0m".
Proof.
  assert (H1 : "2023-11-16T22:13:20Z" <> "") by (apply neq_eqb; reflexivity).
  assert (H2 : @Date_parse sample_clock "2023-11-16T22:13:20Z"
               = Some 1700172800000%Z) by reflexivity.
  assert (H3 : (@Date_now sample_clock < 1700172800000)%Z)
    by (vm_compute; reflexivity).
  split; [exact H1|]. split; [exact H2|]. split; [exact H3|].
  destruct (@calculateAge_future sample_clock _ _ H1 H2 H3)
    as (minutes & _ & Hm & Hage).
  rewrite Hage, Hm. reflexivity.
Defined.

(** X6 on a remote host where the shell cannot be forked. *)
Lemma spawn_failure_reported_witness :
  "k8s_list_nodes" <> "k8s_exec_pod"
  /\ In (EvProc (ProcError "spawn /bin/sh EAGAIN"))
        (fst (@callTool remote_host "k8s_list_nodes" (Some [])))
  /\ snd (@callTool remote_host "k8s_list_nodes" (Some []))
     = Some {| text := "Error: spawn /bin/sh EAGAIN"; isError := true |}.
Proof.
  assert (H1 : "k8s_list_nodes" <> "k8s_exec_pod")
    by (apply neq_eqb; reflexivity).
  assert (H2 : In (EvProc (ProcError "spawn /bin/sh EAGAIN"))
                 (fst (@callTool remote_host "k8s_list_nodes" (Some []))))
    by (vm_compute; right; right; right; left; reflexivity).
  split; [exact H1|]. split; [exact H2|].
  exact (@spawn_failure_reported remote_host _ _ _ H1 H2).
Defined.

(** X7 on a client killed by a signal: its output is returned as a
    success. *)
Lemma raw_output_on_success_witness :
  In "k8s_list_pods" raw_output_tools
  /\ In (EvProc (ProcClose "NAME  READY" "Terminated" None))
        (fst (@callTool killed_host "k8s_list_pods" (Some [])))
  /\ snd (@callTool killed_host "k8s_list_pods" (Some []))
     = Some {| text := "NAME  READY"; isError := false |}.
Proof.
  assert (H1 : In "k8s_list_pods" raw_output_tools)
    by (unfold raw_output_tools; repeat (first [left; reflexivity | right])).
  assert (H2 : In (EvProc (ProcClose "NAME  READY" "Terminated" None))
                 (fst (@callTool killed_host "k8s_list_pods" (Some []))))
    by (vm_compute; right; right; right; left; reflexivity).
  split; [exact H1|]. split; [exact H2|].
  exact (@raw_output_on_success killed_host _ _ _ _ _ H1 H2
           (or_introl eq_refl)).
Defined.

(** X8 on a client whose output is no JSON: the message quotes the head
    of the output. *)
Lemma unparsable_output_reported_witness :
  In "k8s_get_pod" json_tools
  /\ In (EvProc (ProcClose "deployment.apps/web scaled" "" (Some 0%Z)))
        (fst (@callTool ok_host "k8s_get_pod" (Some [("name", JStr "web")])))
  /\ @JSON_parse ok_host "deployment.apps/web scaled" = None
  /\ snd (@callTool ok_host "k8s_get_pod" (Some [("name", JStr "web")]))
     = Some {| text := "Error: Unexpected token 'd', " ++ str1 dquote
                         ++ "deployment" ++ str1 dquote
                         ++ "... is not valid JSON";
               isError := true |}.
Proof.
  assert (H1 : In "k8s_get_pod" json_tools)
    by (unfold json_tools; repeat (first [left; reflexivity | right])).
  assert (H2 : In (EvProc (ProcClose "deployment.apps/web scaled" ""
                             (Some 0%Z)))
                 (fst (@callTool ok_host "k8s_get_pod"
                         (Some [("name", JStr "web")]))))
    by (vm_compute; right; right; right; left; reflexivity).
  assert (H3 : @JSON_parse ok_host "deployment.apps/web scaled" = None)
    by reflexivity.
  split; [exact H1|]. split; [exact H2|]. split; [exact H3|].
  exact (@unparsable_output_reported ok_host _ _ _ _ _ H1 H2
           (or_intror eq_refl) H3).
Defined.

(** X9 on a manifest text and on a number, on a host whose child
    reports; and on a manifest text on a host whose child never does. *)
Lemma stdin_handling_witness :
  @commandLine ok_host js["apply"; "-f"; "-"]
  = Ok ("kubectl",
        js["--context=prod"; "--kubeconfig=/etc/kube.conf";
           "apply"; "-f"; "-"])
  /\ @spawn ok_host
       (@shellCommand ok_host "kubectl"
          js["--context=prod"; "--kubeconfig=/etc/kube.conf";
             "apply"; "-f"; "-"])
     = Started
  /\ @runKubectl ok_host js["apply"; "-f"; "-"] (Some (JStr "kind: Pod"))
     = ([EvKubectl js["apply"; "-f"; "-"] (Some (JStr "kind: Pod"));
         EvSpawn "kubectl"
           js["--context=prod"; "--kubeconfig=/etc/kube.conf";
              "apply"; "-f"; "-"];
         EvStdin "kind: Pod";
         EvProc (ProcClose "deployment.apps/web scaled" "" (Some 0%Z))],
        Settled (Ok {| stdout := "deployment.apps/web scaled";
                       stderr := ""; code := 0 |}))
  /\ @runKubectl ok_host js["apply"; "-f"; "-"] (Some (JNum 7))
     = ([EvKubectl js["apply"; "-f"; "-"] (Some (JNum 7));
         EvSpawn "kubectl"
           js["--context=prod"; "--kubeconfig=/etc/kube.conf";
              "apply"; "-f"; "-"]],
        Settled (Throw (Engine (TypeError Write (JNum 7)))))
  /\ @runKubectl hanging_host js["apply"; "-f"; "-"]
       (Some (JStr "kind: Pod"))
     = ([EvKubectl js["apply"; "-f"; "-"] (Some (JStr "kind: Pod"));
         EvSpawn "kubectl"
           js["--context=prod"; "--kubeconfig=/etc/kube.conf";
              "apply"; "-f"; "-"];
         EvStdin "kind: Pod"],
        Pending).
Proof.
  assert (H : @commandLine ok_host js["apply"; "-f"; "-"]
              = Ok ("kubectl",
                    js["--context=prod"; "--kubeconfig=/etc/kube.conf";
                       "apply"; "-f"; "-"])) by reflexivity.
  assert (Hs : @spawn ok_host
                 (@shellCommand ok_host "kubectl"
                    js["--context=prod"; "--kubeconfig=/etc/kube.conf";
                       "apply"; "-f"; "-"])
               = Started) by reflexivity.
  split; [exact H|]. split; [exact Hs|]. split; [|split].
  - exact (proj1 (@stdin_handling ok_host _ _ _ (JStr "kind: Pod") H Hs)
             "kind: Pod" eq_refl (neq_eqb "kind: Pod" "" eq_refl)).
  - exact (proj2 (proj2 (@stdin_handling ok_host _ _ _ (JNum 7) H Hs))
             eq_refl ltac:(intros text; discriminate)).
  - exact (proj1 (@stdin_handling hanging_host _ _ _ (JStr "kind: Pod")
                    eq_refl eq_refl)
             "kind: Pod" eq_refl (neq_eqb "kind: Pod" "" eq_refl)).
Defined.

(** X10 on a failing client, and on a call without a command. *)
Lemma exec_pod_never_flags_witness :
  In (EvProc (ProcClose "out" "boom" (Some 1%Z)))
     (fst (@callTool failing_host "k8s_exec_pod"
             (Some [("name", JStr "web"); ("command", JStr "ls")])))
  /\ snd (@callTool failing_host "k8s_exec_pod"
            (Some [("name", JStr "web"); ("command", JStr "ls")]))
     = Some {| text := "outboom"; isError := false |}
  /\ @callTool failing_host "k8s_exec_pod" (Some [("name", JStr "web")])
     = ([EvNamespace (JStr "apps")],
        Some {| text := "Error: Cannot read properties of undefined "
                          ++ "(reading 'split')";
                isError := true |}).
Proof.
  assert (H : In (EvProc (ProcClose "out" "boom" (Some 1%Z)))
                (fst (@callTool failing_host "k8s_exec_pod"
                        (Some [("name", JStr "web");
                               ("command", JStr "ls")]))))
    by (vm_compute; right; right; right; left; reflexivity).
  split; [exact H|]. split.
  - exact (proj1 (@exec_pod_never_flags failing_host _) _ H).
  - exact (proj2 (proj2 (@exec_pod_never_flags failing_host
                           [("name", JStr "web")]))
             eq_refl).
Defined.

(** X11 with a key, and with a password only on a POSIX host. *)
Lemma remote_client_selection_witness :
  set (@K8S_SSH_HOST remote_host) = true
  /\ set (@K8S_SSH_KEY remote_host) = true
  /\ @commandLine remote_host (map JStr ["get"; "nodes"])
     = Ok ("ssh",
           js["-i"; "/keys/id"; "-o"; "StrictHostKeyChecking=no";
              "-o"; "UserKnownHostsFile=/dev/null"; "-o"; "BatchMode=yes";
              "ops@10.0.0.5"; "sudo kubectl get nodes"])
  /\ @commandLine password_host (map JStr ["get"; "nodes"])
     = Ok ("sshpass",
           js["-p"; "s3cret"; "ssh"; "-o"; "StrictHostKeyChecking=no";
              "-o"; "UserKnownHostsFile=/dev/null";
              "ops@10.0.0.5"; "sudo kubectl get nodes"]).
Proof.
  assert (H1 : set (@K8S_SSH_HOST remote_host) = true) by reflexivity.
  assert (H2 : set (@K8S_SSH_KEY remote_host) = true) by reflexivity.
  split; [exact H1|]. split; [exact H2|]. split.
  - exact (proj1 (@remote_client_selection remote_host ["get"; "nodes"] H1)
             H2).
  - exact (proj1 (proj2 (@remote_client_selection password_host
                           ["get"; "nodes"] eq_refl))
             eq_refl eq_refl).
Defined.

(** X12 on a tail of 0 and on an empty log. *)
Lemma pod_logs_edges_witness :
  (exists rest,
     trace (@handleTool empty_host "k8s_get_pod_logs"
              (Some [("name", JStr "web"); ("tail", JNum 0)]))
     = EvNamespace (JStr "apps")
         :: EvKubectl js["logs"; "web"; "-n"; "apps"] None
         :: rest)
  /\ snd (@callTool empty_host "k8s_get_pod_logs"
            (Some [("name", JStr "web"); ("tail", JNum 0)]))
     = Some {| text := "No logs available"; isError := false |}.
Proof.
  split.
  - exact (proj1 (@pod_logs_edges empty_host
                    [("name", JStr "web"); ("tail", JNum 0)]) eq_refl).
  - exact (proj2 (@pod_logs_edges empty_host
                    [("name", JStr "web"); ("tail", JNum 0)])
             "" "" (Some 0%Z)
             ltac:(vm_compute; right; right; right; left; reflexivity)
             (or_intror eq_refl)).
Defined.




(** A count beyond 2^53 is printed as the engine prints it. *)
Example scale_deployment_large_count :
  snd (@callTool ok_host "k8s_scale_deployment"
         (Some [("name", JStr "web"); ("replicas", JNum (10 ^ 21))]))
  = Some {| text := "Deployment 'web' scaled to 1e+21 replicas";
            isError := false |}.
Proof. reflexivity. Qed.

(** X16 on [proto_secret] without the decode flag. *)
Lemma secret_values_withheld_witness :
  truthy (lookup "decode" [("name", JStr "db")]) = false
  /\ @secretResponse secret_host [("name", JStr "db")] proto_secret
     = Ok (JObj [("name", JStr "db"); ("namespace", JStr "apps");
                 ("type", JStr "Opaque");
                 ("keys", JArr [JStr "user"; JStr "__proto__"])])
  /\ exists name namespace type data,
       getpath proto_secret ["metadata"; "name"] = Ok name
       /\ getpath proto_secret ["metadata"; "namespace"] = Ok namespace
       /\ getp proto_secret "type" = Ok type
       /\ getp proto_secret "data" = Ok data
       /\ JObj [("name", JStr "db"); ("namespace", JStr "apps");
                ("type", JStr "Opaque");
                ("keys", JArr [JStr "user"; JStr "__proto__"])]
          = JObj [("name", name); ("namespace", namespace); ("type", type);
                  ("keys",
                   JArr (map JStr (Object_keys (js_or data (JObj [])))))].
Proof.
  assert (H : truthy (lookup "decode" [("name", JStr "db")]) = false)
    by reflexivity.
  assert (H' : @secretResponse secret_host [("name", JStr "db")] proto_secret
               = Ok (JObj [("name", JStr "db"); ("namespace", JStr "apps");
                           ("type", JStr "Opaque");
                           ("keys", JArr [JStr "user"; JStr "__proto__"])]))
    by reflexivity.
  split; [exact H|]. split; [exact H'|].
  exact (@secret_values_withheld secret_host [("name", JStr "db")]
           proto_secret _ H H').
Defined.

(** X17 on a client that prints [sample_node]: memory pressure off,
    ready, and a later condition that says the opposite. *)
Lemma node_ready_first_condition_witness :
  In (EvProc (ProcClose "{node}" "" (Some 0%Z)))
     (fst (@callTool node_host "k8s_get_node" (Some [("name", JStr "n1")])))
  /\ @JSON_parse node_host "{node}" = Some sample_node
  /\ snd (@callTool node_host "k8s_get_node" (Some [("name", JStr "n1")]))
     = Some {| text :=
                 @JSON_stringify node_host
                   (JObj [("name", JStr "n1");
                          ("labels", JObj [("zone", JStr "a")]);
                          ("status", JStr "Ready");
                          ("conditions",
                           JArr [JObj [("type", JStr "MemoryPressure");
                                       ("status", JStr "False")];
                                 JObj [("type", JStr "Ready");
                                       ("status", JStr "True")];
                                 JObj [("type", JStr "Ready");
                                       ("status", JStr "False")]]);
                          ("capacity", JObj [("cpu", JStr "4")]);
                          ("allocatable", JUndefined);
                          ("nodeInfo", JUndefined)]);
               isError := false |}.
Proof.
  assert (H1 : In (EvProc (ProcClose "{node}" "" (Some 0%Z)))
                 (fst (@callTool node_host "k8s_get_node"
                         (Some [("name", JStr "n1")]))))
    by (vm_compute; right; right; right; left; reflexivity).
  assert (H2 : @JSON_parse node_host "{node}" = Some sample_node)
    by reflexivity.
  assert (H3 : Forall (fun x => exists o,
                         x = JObj o
                         /\ is_string "Ready" (lookup "type" o) = false)
                 [JObj [("type", JStr "MemoryPressure");
                        ("status", JStr "False")]]).
  { constructor; [|constructor]. eexists. split; reflexivity. }
  split; [exact H1|]. split; [exact H2|].
  exact (proj1 (@node_ready_first_condition node_host
                  [("name", JStr "n1")] "{node}" "" (Some 0%Z)
                  _ _ _ _
                  [JObj [("type", JStr "Ready"); ("status", JStr "False")]]
                  [("type", JStr "Ready"); ("status", JStr "True")]
                  H1 (or_intror eq_refl) H2 eq_refl eq_refl H3)
           eq_refl eq_refl).
Defined.

(** X18 on a client that prints [null]. *)
Lemma output_without_metadata_reported_witness :
  In "k8s_get_node" projecting_tools
  /\ In (EvProc (ProcClose "null" "" (Some 0%Z)))
        (fst (@callTool null_host "k8s_get_node"
                (Some [("name", JStr "n1")])))
  /\ @JSON_parse null_host "null" = Some JNull
  /\ getpath JNull ["metadata"; "name"]
     = Throw (Engine (TypeError (Read "metadata") JNull))
  /\ snd (@callTool null_host "k8s_get_node" (Some [("name", JStr "n1")]))
     = Some {| text := "Error: Cannot read properties of null "
                         ++ "(reading 'metadata')";
               isError := true |}.
Proof.
  assert (H1 : In "k8s_get_node" projecting_tools) by (left; reflexivity).
  assert (H2 : In (EvProc (ProcClose "null" "" (Some 0%Z)))
                 (fst (@callTool null_host "k8s_get_node"
                         (Some [("name", JStr "n1")]))))
    by (vm_compute; right; right; right; left; reflexivity).
  assert (H3 : @JSON_parse null_host "null" = Some JNull) by reflexivity.
  assert (H4 : getpath JNull ["metadata"; "name"]
               = Throw (Engine (TypeError (Read "metadata") JNull)))
    by reflexivity.
  split; [exact H1|]. split; [exact H2|]. split; [exact H3|].
  split; [exact H4|].
  exact (proj2 (@output_without_metadata_reported null_host _ _ _ _ _ JNull
                  _ H1 H2 (or_intror eq_refl) H3 H4)).
Defined.

(** X19 on the selector [app="web"]. *)
Lemma escape_dquotes_faithful_witness :
  String.length (escape_dquotes quoted_selector) = 11
  /\ unescape_dquotes (escape_dquotes quoted_selector) = quoted_selector.
Proof.
  destruct (escape_dquotes_faithful quoted_selector quoted_selector)
    as (_ & H2 & H3 & _).
  split; [rewrite H2; reflexivity|exact H3].
Defined.

(** X21 on a local host whose client fails: the transport is connected
    all the same, and the process does not exit; and on a host on which
    [spawn] throws: the process exits without connecting. *)
Lemma startup_connects_whatever_the_probe_witness :
  @connect_error working_transport = None
  /\ In Connect (@main failing_host working_transport)
  /\ ~ In (Exit 1) (@main failing_host working_transport)
  /\ In (Exit 1) (@main throwing_host working_transport)
  /\ ~ In Connect (@main throwing_host working_transport).
Proof.
  split; [reflexivity|].
  destruct (@startup_connects_whatever_the_probe failing_host
              working_transport) as (_ & Hc & He & _).
  destruct (@startup_connects_whatever_the_probe throwing_host
              working_transport) as (_ & Hc' & He' & _).
  split; [apply Hc; eexists; reflexivity|].
  split.
  - intros Hin. apply He in Hin.
    destruct Hin as [_ [(e & Hin)|[_ Hne]]]; [discriminate|now apply Hne].
  - split.
    + apply He'. split; [reflexivity|]. left. eexists. reflexivity.
    + intros Hin. apply Hc' in Hin. destruct Hin as (r & Hin). discriminate.
Defined.

Example startup_with_failing_client :
  @main failing_host working_transport
  = [Console "Kubernetes MCP Server starting...";
     Console "Mode: Local kubectl";
     Console "Kubeconfig: /etc/kube.conf";
     Console "Context: prod";
     Executor
       [EvKubectl js["version"; "--short"] None;
        EvSpawn "kubectl"
          js["--context=prod"; "--kubeconfig=/etc/kube.conf";
             "version"; "--short"];
        EvProc (ProcClose "out" "boom" (Some 1%Z))];
     Console "Warning: kubectl may not be fully accessible: boom";
     Connect;
     Console "Kubernetes MCP server running"].
Proof. reflexivity. Qed.

Example startup_when_spawn_throws :
  @main throwing_host working_transport
  = [Console "Kubernetes MCP Server starting...";
     Console "Mode: Local kubectl";
     Console "Kubeconfig: /etc/kube.conf";
     Console "Context: prod";
     Executor
       [EvKubectl js["version"; "--short"] None;
        EvSpawn "kubectl"
          js["--context=prod"; "--kubeconfig=/etc/kube.conf";
             "version"; "--short"]];
     Console "Failed to start server: spawn E2BIG";
     Exit 1].
Proof. reflexivity. Qed.

(** X22 on a command with a double-quoted argument. *)
Lemma remote_exec_verbatim_witness :
  set (@K8S_SSH_HOST remote_host) = true
  /\ String_includes "'" ("sh -c " ++ quoted_selector) = false
  /\ exists client sshArgs,
       In (EvSpawn client
             (sshArgs ++ [JStr ("sudo kubectl exec web -n default -- sh -c "
                                  ++ quoted_selector)])%list)
          (trace (@handleTool remote_host "k8s_exec_pod"
                    (Some [("name", JStr "web");
                           ("command", JStr ("sh -c " ++ quoted_selector))])))
       /\ @shellCommand remote_host client
            (sshArgs ++ [JStr ("sudo kubectl exec web -n default -- sh -c "
                                 ++ quoted_selector)])%list
          = @shellCommand remote_host client sshArgs
              ++ " sudo kubectl exec web -n default -- sh -c "
              ++ quoted_selector.
Proof.
  assert (H1 : set (@K8S_SSH_HOST remote_host) = true) by reflexivity.
  assert (H2 : String_includes "'" ("sh -c " ++ quoted_selector) = false)
    by reflexivity.
  split; [exact H1|]. split; [exact H2|].
  exact (@remote_exec_verbatim remote_host
           [("name", JStr "web");
            ("command", JStr ("sh -c " ++ quoted_selector))]
           "web" "default" ("sh -c " ++ quoted_selector)
           H1 eq_refl eq_refl eq_refl eq_refl H2).
Defined.

(** The line the local shell is handed for that call. *)
Example remote_exec_shell_line :
  @shellCommand remote_host "ssh"
    js["-i"; "/keys/id"; "-o"; "StrictHostKeyChecking=no";
       "-o"; "UserKnownHostsFile=/dev/null"; "-o"; "BatchMode=yes";
       "ops@10.0.0.5";
       "sudo kubectl exec web -n default -- sh -c " ++ quoted_selector]
  = "ssh -i /keys/id -o StrictHostKeyChecking=no "
      ++ "-o UserKnownHostsFile=/dev/null -o BatchMode=yes ops@10.0.0.5 "
      ++ "sudo kubectl exec web -n default -- sh -c " ++ quoted_selector.
Proof. reflexivity. Qed.

(** X23 on [proto_secret] with the decode flag. *)
Lemma secretResponse_decoded_witness :
  NoDup (map fst [("user", JStr "YWRtaW4="); ("__proto__", JStr "aGk=")])
  /\ exists decoded,
       lookup "user" decoded = JStr "admin"
       /\ lookup "__proto__" decoded = JUndefined.
Proof.
  assert (Hn : NoDup (map fst [("user", JStr "YWRtaW4=");
                               ("__proto__", JStr "aGk=")])).
  { repeat constructor; simpl; intuition discriminate. }
  split; [exact Hn|].
  destruct (@secretResponse_decoded secret_host
              [("name", JStr "db"); ("decode", JBool true)] proto_secret
              [("user", JStr "YWRtaW4="); ("__proto__", JStr "aGk=")]
              _ eq_refl eq_refl Hn eq_refl)
    as (decoded & _ & Hk & Hp).
  exists decoded. split; [|exact Hp].
  exact (Hk "user" "YWRtaW4=" (or_introl eq_refl)
           (neq_eqb "user" "__proto__" eq_refl)).
Defined.

(** X24 on [proto_secret]: decoded values with the flag, none without. *)
Lemma secretResponse_decodes_iff_witness :
  lookup "decodedData"
    [("name", JStr "db"); ("namespace", JStr "apps"); ("type", JStr "Opaque");
     ("keys", JArr [JStr "user"; JStr "__proto__"])] <> JUndefined
  <-> truthy (lookup "decode" [("name", JStr "db")])
      && truthy (JObj [("user", JStr "YWRtaW4="); ("__proto__", JStr "aGk=")])
      = true.
Proof.
  exact (@secretResponse_decodes_iff secret_host [("name", JStr "db")]
           proto_secret _ _ eq_refl eq_refl).
Defined.

(** X25 on a host on which [spawn] throws. *)
Lemma spawn_throw_reported_witness :
  In (EvSpawn "kubectl"
        js["--context=prod"; "--kubeconfig=/etc/kube.conf";
           "get"; "nodes"; "-o"; "wide"])
     (fst (@callTool throwing_host "k8s_list_nodes" (Some [])))
  /\ @spawn throwing_host
       (@shellCommand throwing_host "kubectl"
          js["--context=prod"; "--kubeconfig=/etc/kube.conf";
             "get"; "nodes"; "-o"; "wide"])
     = SpawnThrows "spawn E2BIG"
  /\ snd (@callTool throwing_host "k8s_list_nodes" (Some []))
     = Some {| text := "Error: spawn E2BIG"; isError := true |}.
Proof.
  assert (H1 : In (EvSpawn "kubectl"
                     js["--context=prod"; "--kubeconfig=/etc/kube.conf";
                        "get"; "nodes"; "-o"; "wide"])
                 (fst (@callTool throwing_host "k8s_list_nodes" (Some []))))
    by (vm_compute; right; right; left; reflexivity).
  assert (H2 : @spawn throwing_host
                 (@shellCommand throwing_host "kubectl"
                    js["--context=prod"; "--kubeconfig=/etc/kube.conf";
                       "get"; "nodes"; "-o"; "wide"])
               = SpawnThrows "spawn E2BIG") by reflexivity.
  split; [exact H1|]. split; [exact H2|].
  exact (proj1 (@spawn_throw_reported throwing_host _ _ _ _ _ H1 H2)).
Defined.

(** X26 on a host whose child never reports. *)
Lemma hung_process_unanswered_witness :
  In (EvSpawn "kubectl"
        js["--context=prod"; "--kubeconfig=/etc/kube.conf";
           "get"; "nodes"; "-o"; "wide"])
     (fst (@callTool hanging_host "k8s_list_nodes" (Some [])))
  /\ (forall input,
        @settle hanging_host
          (@shellCommand hanging_host "kubectl"
             js["--context=prod"; "--kubeconfig=/etc/kube.conf";
                "get"; "nodes"; "-o"; "wide"]) input
        = None)
  /\ forall settled,
       ~ In (EvProc settled)
            (fst (@callTool hanging_host "k8s_list_nodes" (Some []))).
Proof.
  assert (H1 : In (EvSpawn "kubectl"
                     js["--context=prod"; "--kubeconfig=/etc/kube.conf";
                        "get"; "nodes"; "-o"; "wide"])
                 (fst (@callTool hanging_host "k8s_list_nodes" (Some []))))
    by (vm_compute; right; right; left; reflexivity).
  assert (H2 : forall input,
             @settle hanging_host
               (@shellCommand hanging_host "kubectl"
                  js["--context=prod"; "--kubeconfig=/etc/kube.conf";
                     "get"; "nodes"; "-o"; "wide"]) input
             = None) by (intros; reflexivity).
  split; [exact H1|]. split; [exact H2|].
  exact (proj1 (@hung_process_unanswered hanging_host _ _ _ _ H1 eq_refl H2)).
Defined.

(** On that host a manifest that is no string is answered, with the
    message of the write that threw. *)
Example hanging_apply_with_a_number :
  @callTool hanging_host "k8s_apply_manifest" (Some [("manifest", JNum 7)])
  = ([EvNamespace (JStr "apps");
      EvKubectl js["apply"; "-f"; "-"] (Some (JNum 7));
      EvSpawn "kubectl"
        js["--context=prod"; "--kubeconfig=/etc/kube.conf";
           "apply"; "-f"; "-"]],
     Some {| text := "Error: The " ++ str1 dquote ++ "chunk" ++ str1 dquote
                       ++ " argument must be of type string or an instance "
                       ++ "of Buffer, TypedArray, or DataView. "
                       ++ "Received type number (7)";
             isError := true |}).
Proof. reflexivity. Qed.
